(** * pdb-intersect: address-to-exchange resolution and presence intersection

    A shallow embedding of [lib_peeringdb.py] (address normaliser, prefix
    resolver) and of [pdb-intersect.py] (presence intersector), together
    with the part of CPython's [ipaddress] module (version 3.11) that the
    resolver calls.

    Conventions.
    - A Python [str] is a [string]; every operation the sources perform on
      text compares single characters with ASCII characters, so the 256
      values of [ascii] are enough.
    - A Python [int] is a [Z].
    - A call that may raise is an [outcome]: [Ret v] for a normal return,
      [Raise e] for an exception of class [e].
    - The PeeringDB web service is the class [Pdb]; [directory] with
      [memory_pdb] is an in-memory implementation of it. *)

From Stdlib Require Import ZArith Lia Ascii.
From stdpp Require Import gmap strings pretty list fin_maps fin_sets.

Local Open Scope Z_scope.

(* ===================================================================== *)
(** * Exceptions *)

Inductive exn : Type :=
  | AddressValueError   (* ipaddress.AddressValueError, a ValueError *)
  | NetmaskValueError   (* ipaddress.NetmaskValueError, a ValueError *)
  | ValueError
  | TypeError
  | KeyError
  | IndexError.

Inductive outcome (A : Type) : Type :=
  | Ret (a : A)
  | Raise (e : exn).
Arguments Ret {A} a.
Arguments Raise {A} e.

(** Sequencing: [x ← m; k] runs [m] and, unless it raised, runs [k]. *)
Definition bind {A B : Type} (k : A → outcome B) (m : outcome A) : outcome B :=
  match m with
  | Ret a => k a
  | Raise e => Raise e
  end.

#[global] Instance outcome_bind : MBind outcome := @bind.
#[global] Instance outcome_ret : MRet outcome := @Ret.

(** [raised m] holds when the call did not return. *)
Definition raised {A : Type} (m : outcome A) : Prop :=
  match m with
  | Ret _ => False
  | Raise _ => True
  end.

(** Sequencing a fallible function over a list, left to right. *)
Fixpoint mapM {A B : Type} (f : A → outcome B) (l : list A) : outcome (list B) :=
  match l with
  | [] => Ret []
  | x :: r => y ← f x; ys ← mapM f r; Ret (y :: ys)
  end.

(* ===================================================================== *)
(** * Python string operations *)

(** [s.split(sep)] for a one-character separator. *)
Fixpoint split (sep : ascii) (s : string) : list string :=
  match s with
  | EmptyString => [EmptyString]
  | String c r =>
      if Ascii.eqb c sep then EmptyString :: split sep r
      else match split sep r with
           | h :: t => String c h :: t
           | [] => [String c EmptyString]
           end
  end.

(** [sep.join(l)]. *)
Fixpoint join (sep : string) (l : list string) : string :=
  match l with
  | [] => EmptyString
  | [x] => x
  | x :: r => x +:+ sep +:+ join sep r
  end.

(** [c in s] for a character [c]. *)
Fixpoint contains (c : ascii) (s : string) : bool :=
  match s with
  | EmptyString => false
  | String d r => Ascii.eqb d c || contains c r
  end.

(** The number of occurrences of a character. *)
Fixpoint count_char (c : ascii) (s : string) : nat :=
  match s with
  | EmptyString => O
  | String d r => (if Ascii.eqb d c then 1 else 0) + count_char c r
  end.

(** [re.sub("^0*", "", s)] and [re.sub("^0+", "", s)]: without the
    MULTILINE flag [^] matches at the start of the text only, so both remove
    the longest run of ["0"] characters the text starts with. *)
Fixpoint re_sub_leading_zeros (s : string) : string :=
  match s with
  | String c r => if Ascii.eqb c "0"%char then re_sub_leading_zeros r else s
  | EmptyString => EmptyString
  end.

(** [s.startswith(p)]. *)
Fixpoint startswith (p s : string) : bool :=
  match p, s with
  | EmptyString, _ => true
  | String a p', String b s' => Ascii.eqb a b && startswith p' s'
  | String _ _, EmptyString => false
  end.

(** [l[i]] on a list: IndexError out of range. *)
Definition getitem {A : Type} (l : list A) (i : nat) : outcome A :=
  match l !! i with
  | Some x => Ret x
  | None => Raise IndexError
  end.

Definition chars (s : string) : list ascii := String.list_ascii_of_string s.

Definition is_decimal_digit (c : ascii) : bool :=
  let n := Z.of_N (N_of_ascii c) in (48 <=? n) && (n <=? 57).

Definition is_hex_digit (c : ascii) : bool :=
  let n := Z.of_N (N_of_ascii c) in
  ((48 <=? n) && (n <=? 57)) || ((65 <=? n) && (n <=? 70)) || ((97 <=? n) && (n <=? 102)).

(** [s.isascii() and s.isdigit()]; [isdigit] is false on the empty text. *)
Definition isascii_isdigit (s : string) : bool :=
  negb (String.eqb s "") && forallb is_decimal_digit (chars s).

Definition digit_value (c : ascii) : Z :=
  let n := Z.of_N (N_of_ascii c) in
  if (48 <=? n) && (n <=? 57) then n - 48
  else if (65 <=? n) && (n <=? 70) then n - 55
  else n - 87.

(** [int(s, base)] on a text already known to hold digits of the base. *)
Definition int_of_digits (base : Z) (s : string) : Z :=
  fold_left (fun acc c => base * acc + digit_value c) (chars s) 0.

Definition hex_char (n : Z) : ascii :=
  ascii_of_N (Z.to_N (if n <? 10 then 48 + n else 87 + n)).

(** ['%04x' % n] for [0 <= n < 65536]. *)
Definition hex4 (n : Z) : string :=
  String (hex_char (Z.land (Z.shiftr n 12) 15))
    (String (hex_char (Z.land (Z.shiftr n 8) 15))
       (String (hex_char (Z.land (Z.shiftr n 4) 15))
          (String (hex_char (Z.land n 15)) EmptyString))).

(** ['%x' % n] for [0 <= n < 65536]: the four digits without padding. *)
Definition pct_x (n : Z) : string :=
  let s := re_sub_leading_zeros (hex4 n) in
  if String.eqb s "" then "0" else s.

(** [str(n)] for an integer. *)
Definition str_int (n : Z) : string := pretty n.

(** [str(v)] for a JSON value that is a text or null. *)
Definition str_opt (v : option string) : string :=
  match v with
  | Some s => s
  | None => "None"
  end.

(* ===================================================================== *)
(** * The [ipaddress] module

    Addresses and networks as CPython 3.11 builds them from text:
    [IPv4Address], [IPv6Address], [IPv4Network], [IPv6Network] (always with
    [strict=True], the default the sources use), [ip_address], [ip_network],
    [subnet_of] and [exploded]. *)

Inductive ip_version : Type := IPv4 | IPv6.

Definition ip_version_eqb (v w : ip_version) : bool :=
  match v, w with
  | IPv4, IPv4 | IPv6, IPv6 => true
  | _, _ => false
  end.

(** [_max_prefixlen] and [_ALL_ONES] of [_BaseV4] and [_BaseV6]. *)
Definition max_prefixlen (v : ip_version) : Z :=
  match v with IPv4 => 32 | IPv6 => 128 end.

Definition ALL_ONES (v : ip_version) : Z := 2 ^ max_prefixlen v - 1.

(** An address object: its class, [_ip], and [_scope_id] (always [None] on
    an [IPv4Address]). *)
Record ip_addr : Type := IpAddr {
  version : ip_version;
  ip_int : Z;
  scope_id : option string
}.

(** A network object. *)
Record ip_net : Type := IpNet {
  network_address : ip_addr;
  netmask : Z;
  prefixlen : Z
}.

Definition option_string_eqb (a b : option string) : bool :=
  match a, b with
  | None, None => true
  | Some x, Some y => String.eqb x y
  | _, _ => false
  end.

(** [_BaseV4._parse_octet]. *)
Definition parse_octet (octet_str : string) : outcome Z :=
  if String.eqb octet_str "" then Raise ValueError
  else if negb (isascii_isdigit octet_str) then Raise ValueError
  else if (3 <? String.length octet_str)%nat then Raise ValueError
  else if negb (String.eqb octet_str "0") && startswith "0" octet_str then Raise ValueError
  else
    let octet_int := int_of_digits 10 octet_str in
    if 255 <? octet_int then Raise ValueError else Ret octet_int.

(** [int.from_bytes(octets, 'big')]. *)
Definition from_bytes_big (l : list Z) : Z :=
  fold_left (fun acc b => acc * 256 + b) l 0.

(** [_BaseV4._ip_int_from_string]. *)
Definition v4_ip_int_from_string (ip_str : string) : outcome Z :=
  if String.eqb ip_str "" then Raise AddressValueError
  else
    let octets := split "." ip_str in
    if negb (length octets =? 4)%nat then Raise AddressValueError
    else match mapM parse_octet octets with
         | Ret l => Ret (from_bytes_big l)
         | Raise _ => Raise AddressValueError
         end.

(** [IPv4Address(address)] for a text. *)
Definition IPv4Address (address : string) : outcome ip_addr :=
  if contains "/" address then Raise AddressValueError
  else
    n ← v4_ip_int_from_string address;
    Ret (IpAddr IPv4 n None).

(** [_BaseV6._parse_hextet]: the empty text passes the digit and length
    checks and fails in [int('', 16)]. *)
Definition parse_hextet (hextet_str : string) : outcome Z :=
  if negb (forallb is_hex_digit (chars hextet_str)) then Raise ValueError
  else if (4 <? String.length hextet_str)%nat then Raise ValueError
  else if String.eqb hextet_str "" then Raise ValueError
  else Ret (int_of_digits 16 hextet_str).

(** The [skip_index] loop of [_BaseV6._ip_int_from_string]: the index of the
    one empty part strictly between the end points, an error when there are
    two. [i] is the index of the head of [interior]. *)
Fixpoint find_skip_index (interior : list string) (i : Z) (skip_index : option Z)
  : outcome (option Z) :=
  match interior with
  | [] => Ret skip_index
  | p :: r =>
      if String.eqb p "" then
        match skip_index with
        | Some _ => Raise AddressValueError
        | None => find_skip_index r (i + 1) (Some i)
        end
      else find_skip_index r (i + 1) skip_index
  end.

(** The two hextet loops: [ip_int <<= 16; ip_int |= _parse_hextet(part)]. *)
Fixpoint parse_hextets (parts : list string) (ip : Z) : outcome Z :=
  match parts with
  | [] => Ret ip
  | p :: r =>
      h ← parse_hextet p;
      parse_hextets r (Z.lor (Z.shiftl ip 16) h)
  end.

(** [_BaseV6._ip_int_from_string]. *)
Definition v6_ip_int_from_string (ip_str : string) : outcome Z :=
  if String.eqb ip_str "" then Raise AddressValueError
  else
    let parts := split ":" ip_str in
    if (length parts <? 3)%nat then Raise AddressValueError
    else
      parts ←
        (let last_part := List.last parts "" in
         if contains "." last_part then
           match IPv4Address last_part with
           | Ret a =>
               let ipv4_int := ip_int a in
               Ret (removelast parts ++
                      [pct_x (Z.land (Z.shiftr ipv4_int 16) 65535);
                       pct_x (Z.land ipv4_int 65535)])
           | Raise _ => Raise AddressValueError
           end
         else Ret parts);
      let n := Z.of_nat (length parts) in
      if 9 <? n then Raise AddressValueError
      else
        skip_index ← find_skip_index (removelast (tail parts)) 1 None;
        let first_part := List.hd "" parts in
        let last_part := List.last parts "" in
        '(parts_hi, parts_lo, parts_skipped) ←
          match skip_index with
          | Some skip_index =>
              let parts_hi := skip_index in
              let parts_lo := n - skip_index - 1 in
              parts_hi ←
                (if String.eqb first_part "" then
                   if negb (parts_hi - 1 =? 0) then Raise AddressValueError
                   else Ret (parts_hi - 1)
                 else Ret parts_hi);
              parts_lo ←
                (if String.eqb last_part "" then
                   if negb (parts_lo - 1 =? 0) then Raise AddressValueError
                   else Ret (parts_lo - 1)
                 else Ret parts_lo);
              let parts_skipped := 8 - (parts_hi + parts_lo) in
              if parts_skipped <? 1 then Raise AddressValueError
              else Ret (parts_hi, parts_lo, parts_skipped)
          | None =>
              if negb (n =? 8) then Raise AddressValueError
              else if String.eqb first_part "" then Raise AddressValueError
              else if String.eqb last_part "" then Raise AddressValueError
              else Ret (n, 0, 0)
          end;
        match
          (hi ← parse_hextets (take (Z.to_nat parts_hi) parts) 0;
           parse_hextets (drop (Z.to_nat (n - parts_lo)) parts)
             (Z.shiftl hi (16 * parts_skipped)))
        with
        | Ret v => Ret v
        | Raise _ => Raise AddressValueError
        end.

(** [_BaseV6._split_scope_id]: [ip_str.partition('%')]; a scope that is
    empty or holds another ['%'] is refused. *)
Definition split_scope_id (ip_str : string) : outcome (string * option string) :=
  match split "%" ip_str with
  | [addr] => Ret (addr, None)
  | [addr; scope] =>
      if String.eqb scope "" then Raise AddressValueError
      else Ret (addr, Some scope)
  | _ => Raise AddressValueError
  end.

(** [IPv6Address(address)] for a text. *)
Definition IPv6Address (address : string) : outcome ip_addr :=
  if contains "/" address then Raise AddressValueError
  else
    '(addr_str, scope) ← split_scope_id address;
    n ← v6_ip_int_from_string addr_str;
    Ret (IpAddr IPv6 n scope).

(** The constructor and the text parser of each address class. *)
Definition address_class (v : ip_version) : string → outcome ip_addr :=
  match v with IPv4 => IPv4Address | IPv6 => IPv6Address end.

Definition ip_int_from_string (v : ip_version) : string → outcome Z :=
  match v with IPv4 => v4_ip_int_from_string | IPv6 => v6_ip_int_from_string end.

(** [int.bit_length()]. *)
Definition bit_length (x : Z) : Z :=
  if x =? 0 then 0 else Z.log2 (Z.abs x) + 1.

(** [_count_righthand_zero_bits]. *)
Definition count_righthand_zero_bits (number bits : Z) : Z :=
  if number =? 0 then bits
  else Z.min bits (bit_length (Z.land (Z.lnot number) (number - 1))).

(** [_ip_int_from_prefix]. *)
Definition ip_int_from_prefix (v : ip_version) (prefixlen : Z) : Z :=
  Z.lxor (ALL_ONES v) (Z.shiftr (ALL_ONES v) prefixlen).

(** [_prefix_from_ip_int]. *)
Definition prefix_from_ip_int (v : ip_version) (ip_int : Z) : outcome Z :=
  let trailing_zeroes := count_righthand_zero_bits ip_int (max_prefixlen v) in
  let prefixlen := max_prefixlen v - trailing_zeroes in
  let leading_ones := Z.shiftr ip_int trailing_zeroes in
  let all_ones := Z.shiftl 1 prefixlen - 1 in
  if negb (leading_ones =? all_ones) then Raise ValueError else Ret prefixlen.

(** [_prefix_from_prefix_string]. *)
Definition prefix_from_prefix_string (v : ip_version) (prefixlen_str : string)
  : outcome Z :=
  if negb (isascii_isdigit prefixlen_str) then Raise NetmaskValueError
  else
    let prefixlen := int_of_digits 10 prefixlen_str in
    if negb ((0 <=? prefixlen) && (prefixlen <=? max_prefixlen v))
    then Raise NetmaskValueError
    else Ret prefixlen.

(** [_prefix_from_ip_string]: a netmask, else a hostmask. *)
Definition prefix_from_ip_string (v : ip_version) (ip_str : string) : outcome Z :=
  match ip_int_from_string v ip_str with
  | Raise _ => Raise NetmaskValueError
  | Ret ip_int =>
      match prefix_from_ip_int v ip_int with
      | Ret p => Ret p
      | Raise _ =>
          match prefix_from_ip_int v (Z.lxor ip_int (ALL_ONES v)) with
          | Ret p => Ret p
          | Raise _ => Raise NetmaskValueError
          end
      end
  end.

(** [_make_netmask]; the argument is the text after ["/"], or the integer
    [_max_prefixlen] ([None] here) when the text has no ["/"]. The IPv4 class
    falls back to dotted netmasks and hostmasks, the IPv6 class does not. *)
Definition make_netmask (v : ip_version) (arg : option string) : outcome (Z * Z) :=
  prefixlen ←
    match arg with
    | None => Ret (max_prefixlen v)
    | Some s =>
        match v with
        | IPv4 =>
            match prefix_from_prefix_string v s with
            | Ret p => Ret p
            | Raise _ => prefix_from_ip_string v s
            end
        | IPv6 => prefix_from_prefix_string v s
        end
    end;
  Ret (ip_int_from_prefix v prefixlen, prefixlen).

(** [_split_addr_prefix], with [_split_optional_netmask]. *)
Definition split_addr_prefix (address : string) : outcome (string * option string) :=
  let addr := split "/" address in
  if (2 <? length addr)%nat then Raise AddressValueError
  else
    match addr with
    | [a; m] => Ret (a, Some m)
    | a :: _ => Ret (a, None)
    | [] => Ret (""%string, None)
    end.

(** [IPv4Network(address)] and [IPv6Network(address)], [strict=True]. *)
Definition ip_network_class (v : ip_version) (address : string) : outcome ip_net :=
  '(addr, mask) ← split_addr_prefix address;
  na ← address_class v addr;
  '(netmask, prefixlen) ← make_netmask v mask;
  let packed := ip_int na in
  if negb (Z.land packed netmask =? packed) then Raise ValueError
  else Ret (IpNet na netmask prefixlen).

(** The [except (AddressValueError, NetmaskValueError)] clauses. *)
Definition is_address_or_netmask_error (e : exn) : bool :=
  match e with
  | AddressValueError | NetmaskValueError => true
  | _ => false
  end.

(** [ipaddress.ip_address]. *)
Definition ip_address (address : string) : outcome ip_addr :=
  match IPv4Address address with
  | Ret a => Ret a
  | Raise e =>
      if is_address_or_netmask_error e then
        match IPv6Address address with
        | Ret a => Ret a
        | Raise e' =>
            if is_address_or_netmask_error e' then Raise ValueError else Raise e'
        end
      else Raise e
  end.

(** [ipaddress.ip_network]. *)
Definition ip_network (address : string) : outcome ip_net :=
  match ip_network_class IPv4 address with
  | Ret n => Ret n
  | Raise e =>
      if is_address_or_netmask_error e then
        match ip_network_class IPv6 address with
        | Ret n => Ret n
        | Raise e' =>
            if is_address_or_netmask_error e' then Raise ValueError else Raise e'
        end
      else Raise e
  end.

(** [_BaseAddress.__lt__] between addresses of one version, [__eq__] (the
    [IPv6Address] one also compares scopes), and the [<=], [>=] that
    [functools.total_ordering] derives from them. *)
Definition addr_lt (x y : ip_addr) : bool :=
  if negb (ip_int x =? ip_int y) then ip_int x <? ip_int y else false.

Definition addr_eq (x y : ip_addr) : bool :=
  (ip_int x =? ip_int y) && ip_version_eqb (version x) (version y)
  && option_string_eqb (scope_id x) (scope_id y).

Definition addr_le (x y : ip_addr) : bool := addr_lt x y || addr_eq x y.

Definition addr_ge (x y : ip_addr) : bool := negb (addr_lt x y).

Definition net_version (n : ip_net) : ip_version := version (network_address n).

Definition hostmask (n : ip_net) : Z := Z.lxor (netmask n) (ALL_ONES (net_version n)).

Definition broadcast_address (n : ip_net) : ip_addr :=
  IpAddr (net_version n) (Z.lor (ip_int (network_address n)) (hostmask n)) None.

(** [a.subnet_of(b)]: TypeError between the two versions. *)
Definition subnet_of (a b : ip_net) : outcome bool :=
  if negb (ip_version_eqb (net_version a) (net_version b)) then Raise TypeError
  else Ret (addr_le (network_address b) (network_address a)
            && addr_ge (broadcast_address b) (broadcast_address a)).

(** The eight hextets of a 128-bit integer, most significant first. *)
Definition hextets (ip : Z) : list Z :=
  map (fun i => Z.land (Z.shiftr ip (16 * (7 - i))) 65535) [0; 1; 2; 3; 4; 5; 6; 7].

(** The four octets of a 32-bit integer, most significant first. *)
Definition octets_of (ip : Z) : list Z :=
  map (fun i => Z.land (Z.shiftr ip (8 * (3 - i))) 255) [0; 1; 2; 3].

(** [address.exploded]. An [IPv4Address] gives its dotted text. An
    [IPv6Address] re-parses its own compressed text and prints ['%032x'] in
    groups of four digits; with a scope id the text ends in ["%scope"] and
    the re-parse raises AddressValueError. *)
Definition exploded (a : ip_addr) : outcome string :=
  match version a with
  | IPv4 => Ret (join "." (map str_int (octets_of (ip_int a))))
  | IPv6 =>
      match scope_id a with
      | Some _ => Raise AddressValueError
      | None => Ret (join ":" (map hex4 (hextets (ip_int a))))
      end
  end.

(* ===================================================================== *)
(** * PeeringDB records and queries

    The JSON objects of the service, with the keys the sources read:
    ["id"], ["ixlan_id"], ["prefix"] of an [ixpfx]; ["id"], ["ix_id"] of an
    [ixlan]; ["id"], ["name"] of an [ix]; ["ixlan_id"], ["asn"],
    ["ipaddr4"], ["ipaddr6"], ["name"] of a [netixlan]. *)

Record Ixpfx : Type := MkIxpfx {
  ixpfx_id : Z;
  ixpfx_ixlan_id : Z;
  ixpfx_prefix : string
}.

#[global] Instance Ixpfx_eq_dec : EqDecision Ixpfx.
Proof. solve_decision. Defined.

Record Ixlan : Type := MkIxlan {
  ixlan_id : Z;
  ixlan_ix_id : Z
}.

Record Ix : Type := MkIx {
  ix_id : Z;
  ix_name : string
}.

Record Netixlan : Type := MkNetixlan {
  ni_ixlan_id : Z;
  ni_asn : Z;
  ni_ipaddr4 : option string;
  ni_ipaddr6 : option string;
  ni_name : string
}.

(** What [querypdb] returns: a dict whose ["data"] list may be missing. *)
Record reply (A : Type) : Type := Reply { data : option (list A) }.
Arguments Reply {A} data.
Arguments data {A} r.

(** [r["data"]]. *)
Definition getitem_data {A : Type} (r : reply A) : outcome (list A) :=
  match data r with
  | Some l => Ret l
  | None => Raise KeyError
  end.

(** The queries the resolver sends: [/ixpfx?prefix__startswith=],
    [/ixlan?id=] and [/ix?id=]. *)
Class Pdb : Type := {
  getixpfxlist_by_partial : string → reply Ixpfx;
  pdb_ixlan_by_id : Z → reply Ixlan;
  pdb_ix_by_id : Z → reply Ix
}.

(** An in-memory directory and the service that answers from it. *)
Record directory : Type := MkDirectory {
  dir_ixpfx : list Ixpfx;
  dir_ixlan : list Ixlan;
  dir_ix : list Ix
}.

Definition memory_pdb (d : directory) : Pdb := {|
  getixpfxlist_by_partial partial :=
    Reply (Some (List.filter (fun p => startswith partial (ixpfx_prefix p)) (dir_ixpfx d)));
  pdb_ixlan_by_id id :=
    Reply (Some (List.filter (fun l => ixlan_id l =? id) (dir_ixlan d)));
  pdb_ix_by_id id :=
    Reply (Some (List.filter (fun x => ix_id x =? id) (dir_ix d)))
|}.

(* ===================================================================== *)
(** * lib_peeringdb.py *)

(** [unexplode_ip]. *)
Definition unexplode_ip (ip : string) : string :=
  let ips := split "." ip in
  let choice :=
    if (length ips =? 4)%nat then Some ("."%string, ips)
    else
      let ips := split ":" ip in
      if (1 <? length ips)%nat then Some (":"%string, ips) else None in
  match choice with
  | None => ip
  | Some (joinchar, ips) =>
      let results :=
        fold_left
          (fun results i =>
             let i := re_sub_leading_zeros i in
             let i := if (String.length i =? 0)%nat then "0"%string else i in
             results ++ [i])
          ips [] in
      join joinchar results
  end.

(** The coarse key of [getixp_by_ipv4]: [v4arr[0]+"."+v4arr[1]]. *)
Definition v4partial (v4 : string) : outcome string :=
  let v4arr := split "." v4 in
  a0 ← getitem v4arr 0;
  a1 ← getitem v4arr 1;
  Ret (a0 +:+ "." +:+ a1).

(** The coarse key of [getixp_by_ipv6], from the exploded text: the loop
    over [reversed(v6arr)] with its [atend] flag and [insert(0, part)]. *)
Definition v6partial (v6full : string) : string :=
  let v6arr := take 6 (split ":" v6full) in
  let '(resultarr, _) :=
    fold_left
      (fun '(resultarr, atend) part =>
         if String.eqb part "0000" && atend then (resultarr, atend)
         else
           let part := re_sub_leading_zeros part in
           let part := if String.eqb part "" then "0"%string else part in
           (part :: resultarr, false))
      (rev v6arr) ([], true) in
  join ":" (take 6 resultarr).

Section Resolver.
Context `{Pdb}.

(** Modelled from the spec: the sources call [getixlan_by_id], which no
    file of the repository defines; section 4.2 step 7 resolves the
    exchange-lan identifier to its ExchangeLan record, the query
    [pdb_ixlan_by_id] sends. *)
Definition getixlan_by_id (id : Z) : reply Ixlan := pdb_ixlan_by_id id.

(** Modelled from the spec: the sources call [getixp_by_id], which no
    file of the repository defines; section 4.2 step 7 resolves the
    exchange-point identifier to the ExchangePoint record, the query
    [pdb_ix_by_id] sends. *)
Definition getixp_by_id (id : Z) : reply Ix := pdb_ix_by_id id.

(** [one_ixp_by_ixpfx]; falling off the end of the function returns
    [None]. *)
Definition one_ixp_by_ixpfx (ixpfx : Ixpfx) : outcome (option Ix) :=
  ixlans ← getitem_data (getixlan_by_id (ixpfx_ixlan_id ixpfx));
  if (length ixlans =? 0)%nat then Ret None
  else
    ixlan0 ← getitem ixlans 0;
    let ixp := getixp_by_id (ixlan_ix_id ixlan0) in
    d ← getitem_data ixp;
    if (0 <? length d)%nat then
      d ← getitem_data ixp;
      ix ← getitem d 0;
      Ret (Some ix)
    else Ret None.

(** Modelled from the spec: the sources call [getixp_by_ixpfx], which no
    file of the repository defines; section 4.2 step 7 is the resolution
    through the exchange-lan to the exchange point that
    [one_ixp_by_ixpfx] performs. *)
Definition getixp_by_ixpfx (ixpfx : Ixpfx) : outcome (option Ix) :=
  one_ixp_by_ixpfx ixpfx.

(** The loop [for ixpfx in data] of [getixp_by_ipv4] and
    [getixp_by_ipv6]. The third argument is the variable [ixpfx]: [None]
    before the loop, rebound to each candidate in turn, and read after the
    loop. The bare [except] covers the [ip_network] call only. *)
Fixpoint find_supernet (vnet : ip_net) (candidates : list Ixpfx)
    (ixpfx : option Ixpfx) : outcome (option Ixpfx) :=
  match candidates with
  | [] => Ret ixpfx
  | candidate :: rest =>
      let ixpfx := Some candidate in
      match ip_network (ixpfx_prefix candidate) with
      | Raise _ => find_supernet vnet rest ixpfx
      | Ret net =>
          found ← subnet_of vnet net;
          if found : bool then Ret ixpfx
          else find_supernet vnet rest ixpfx
      end
  end.

(** [getixp_by_ipv4]. *)
Definition getixp_by_ipv4 (v4 : string) : outcome (option Ix) :=
  v4net ← ip_network (v4 +:+ "/32");
  partial ← v4partial v4;
  data ← getitem_data (getixpfxlist_by_partial partial);
  ixpfx ← find_supernet v4net data None;
  match ixpfx with
  | None => Ret None
  | Some ixpfx => getixp_by_ixpfx ixpfx
  end.

(** [getixp_by_ipv6]. *)
Definition getixp_by_ipv6 (v6 : string) : outcome (option Ix) :=
  v6net ← ip_network (v6 +:+ "/128");
  v6add ← ip_address v6;
  v6full ← exploded v6add;
  let partial := v6partial v6full in
  data ← getitem_data (getixpfxlist_by_partial partial);
  ixpfx ← find_supernet v6net data None;
  match ixpfx with
  | None => Ret None
  | Some ixpfx => getixp_by_ixpfx ixpfx
  end.

(** [getixp_by_ip]; [addr.version] is 4 or 6. *)
Definition getixp_by_ip (ip : string) : outcome (option Ix) :=
  let ip := unexplode_ip ip in
  addr ← ip_address ip;
  match version addr with
  | IPv4 => getixp_by_ipv4 ip
  | IPv6 => getixp_by_ipv6 ip
  end.

End Resolver.

(* ===================================================================== *)
(** * pdb-intersect.py *)

(** A loop whose body may raise. *)
Fixpoint foldM {A S : Type} (f : S → A → outcome S) (l : list A) (s : S) : outcome S :=
  match l with
  | [] => Ret s
  | x :: r => s' ← f s x; foldM f r s'
  end.

(** [d[key]] on a dict. *)
Definition dict_getitem {V : Type} (d : gmap Z V) (key : Z) : outcome V :=
  match d !! key with
  | Some v => Ret v
  | None => Raise KeyError
  end.

(** The two grouping loops: [if key not in d: d[key] = []], then
    [d[key].append(netixlan)]. *)
Definition group_step (d : gmap Z (list Netixlan)) (netixlan : Netixlan)
  : outcome (gmap Z (list Netixlan)) :=
  let key := ni_ixlan_id netixlan in
  let d := match d !! key with
           | None => <[key := []]> d
           | Some _ => d
           end in
  bucket ← dict_getitem d key;
  Ret (<[key := bucket ++ [netixlan]]> d).

Definition group_by_ixlanid (netixlans : list Netixlan)
  : outcome (gmap Z (list Netixlan)) :=
  foldM group_step netixlans ∅.

Definition newline : string := String (ascii_of_nat 10) EmptyString.

(** One entry of [items1] and [items2]. *)
Definition item (ni : Netixlan) : string :=
  join newline
    [ "ASN:  " +:+ str_int (ni_asn ni);
      "IPv4: " +:+ str_opt (ni_ipaddr4 ni);
      "IPv6: " +:+ str_opt (ni_ipaddr6 ni) ].

(** A row of the table [tab], which [main] gives three columns. *)
Definition row : Type := string * string * string.

(** The body of the loop [for ixlanid in ixlans_common], ending in
    [tab.add_row([col1, col2, col3])]. *)
Definition intersect_step (by1 by2 : gmap Z (list Netixlan)) (tab : list row) (ixlanid : Z)
  : outcome (list row) :=
  netixlans1 ← dict_getitem by1 ixlanid;
  netixlans2 ← dict_getitem by2 ixlanid;
  let items1 := map item netixlans1 in
  let items2 := map item netixlans2 in
  first ← getitem netixlans1 0;
  let col1 := ni_name first in
  let col2 := join (newline +:+ newline) items1 in
  let col3 := join (newline +:+ newline) items2 in
  Ret (tab ++ [(col1, col2, col3)]).

(** [ixlan_intersect]: the rows are added to the table [tab]; the common
    identifiers are visited in the iteration order of the set. *)
Definition ixlan_intersect (netixlan1 netixlan2 : list Netixlan) (tab : list row)
  : outcome (list row) :=
  netixlans1_by_ixlanid ← group_by_ixlanid netixlan1;
  netixlans2_by_ixlanid ← group_by_ixlanid netixlan2;
  let ixlans1 : gset Z := dom netixlans1_by_ixlanid in
  let ixlans2 : gset Z := dom netixlans2_by_ixlanid in
  let ixlans_common := ixlans1 ∩ ixlans2 in
  foldM (intersect_step netixlans1_by_ixlanid netixlans2_by_ixlanid)
    (elements ixlans_common) tab.

(* ===================================================================== *)
(** * Specification-side definitions *)

(** One component with its leading zeros removed, ["0"] when nothing is
    left. *)
Definition strip_component (c : string) : string :=
  match re_sub_leading_zeros c with
  | EmptyString => "0"%string
  | s => s
  end.

(** The normaliser as the specification words it: four dot-separated
    components are IPv4, else two or more colon-separated components are
    IPv6, else the text is returned unchanged. *)
Definition unexplode_ip_spec (ip : string) : string :=
  if decide (length (split "." ip) = 4%nat) then
    join "." (map strip_component (split "." ip))
  else if decide (2 ≤ length (split ":" ip))%nat then
    join ":" (map strip_component (split ":" ip))
  else ip.

(** Trailing ["0000"] groups dropped, from the last group backwards, until
    a group that is not ["0000"] is seen. *)
Fixpoint drop_trailing_zero_groups (groups : list string) : list string :=
  match groups with
  | [] => []
  | g :: r =>
      match drop_trailing_zero_groups r with
      | [] => if String.eqb g "0000" then [] else [g]
      | r' => g :: r'
      end
  end.

(** The IPv6 coarse key as the specification words it. *)
Definition v6partial_spec (v6full : string) : string :=
  join ":" (map strip_component
              (drop_trailing_zero_groups (take 6 (split ":" v6full)))).

(** [n] characters ["0"]. *)
Fixpoint zeros (n : nat) : string :=
  match n with
  | O => EmptyString
  | S m => String "0" (zeros m)
  end.

(** [s'] is a zero-padded variant of the dotted quad [s]: the same four
    components, each with some zeros added in front. *)
Definition zero_padded_variant (s s' : string) : Prop :=
  length (split "." s) = 4%nat ∧
  Forall2 (fun c c' => ∃ n, c' = zeros n +:+ c) (split "." s) (split "." s').

(** Lines 270 to 292 of [getixp_by_ipv6]: the coarse key of a text. *)
Definition v6key (v6 : string) : outcome string :=
  v6add ← ip_address v6;
  v6full ← exploded v6add;
  Ret (v6partial v6full).

(** The single-address network of an address: what [ip_network] builds
    from the address text followed by ["/32"] or ["/128"]. *)
Definition host_network (a : ip_addr) : ip_net :=
  IpNet a (ALL_ONES (version a)) (max_prefixlen (version a)).

(** The prefix text of [q] is a network that contains the address. *)
Definition is_supernet (q : Ixpfx) (a : ip_addr) : Prop :=
  ∃ net, ip_network (ixpfx_prefix q) = Ret net ∧
         subnet_of (host_network a) net = Ret true.

(** The prefix text of [q] is a network of the family of the address. *)
Definition valid_for (q : Ixpfx) (a : ip_addr) : Prop :=
  ∃ net, ip_network (ixpfx_prefix q) = Ret net ∧ net_version net = version a.

(** The coarse key [getixp_by_ip] queries with, for the normalised text
    [ip] of the address [a]. *)
Definition coarse_key (a : ip_addr) (ip : string) : outcome string :=
  match version a with
  | IPv4 => v4partial ip
  | IPv6 => v6full ← exploded a; Ret (v6partial v6full)
  end.

(** The exchange-lan identifiers that occur in a sequence of attachments. *)
Definition ixlan_ids (l : list Netixlan) : gset Z :=
  list_to_set (map ni_ixlan_id l).

(** The attachments of a sequence at one exchange-lan, in order. *)
Definition attachments_at (id : Z) (l : list Netixlan) : list Netixlan :=
  List.filter (fun ni => ni_ixlan_id ni =? id) l.

(** The merged row of a shared exchange-lan: the name of the first side-A
    attachment, all side-A attachments, all side-B attachments. *)
Definition merged_row (A B : list Netixlan) (id : Z) : row :=
  ( match attachments_at id A with
    | first :: _ => ni_name first
    | [] => EmptyString
    end,
    join (newline +:+ newline) (map item (attachments_at id A)),
    join (newline +:+ newline) (map item (attachments_at id B)) ).

(** A text that starts with decimal digits followed by a dot. *)
Definition dotted_head (s : string) : Prop :=
  ∃ o r, isascii_isdigit o = true ∧ s = o +:+ String "." r.

(** The example directories: the prefix of the specification's example,
    a prefix shorter than the coarse key, a prefix text that is no network,
    two overlapping prefixes behind one that does not match, and a prefix
    whose exchange-lan is missing. *)
Definition ix_a : Ix := MkIx 77 "IX-A".
Definition ix_b : Ix := MkIx 88 "IX-B".
Definition ix_c : Ix := MkIx 99 "IX-C".

Definition pfx_24 : Ixpfx := MkIxpfx 1 10 "198.51.100.0/24".
Definition pfx_8 : Ixpfx := MkIxpfx 1 10 "10.0.0.0/8".
Definition pfx_malformed : Ixpfx := MkIxpfx 1 10 "198.51.100.0/x".
Definition pfx_16 : Ixpfx := MkIxpfx 2 20 "198.51.0.0/16".
Definition pfx_other : Ixpfx := MkIxpfx 3 30 "198.51.99.0/24".

Definition dir_one_prefix : directory :=
  MkDirectory [pfx_24] [MkIxlan 10 77] [ix_a].

Definition dir_short_prefix : directory :=
  MkDirectory [pfx_8] [MkIxlan 10 77] [ix_a].

Definition dir_malformed : directory :=
  MkDirectory [pfx_malformed] [MkIxlan 10 77] [ix_a].

Definition dir_overlap : directory :=
  MkDirectory [pfx_other; pfx_16; pfx_24]
    [MkIxlan 10 77; MkIxlan 20 88; MkIxlan 30 99] [ix_a; ix_b; ix_c].

Definition dir_disjoint : directory :=
  MkDirectory [pfx_other; pfx_24]
    [MkIxlan 10 77; MkIxlan 30 99] [ix_a; ix_c].

Definition pfx_v6 : Ixpfx := MkIxpfx 4 40 "2001:7f8:10::/48".

Definition dir_v6 : directory :=
  MkDirectory [pfx_v6] [MkIxlan 40 99] [ix_c].

Definition dir_no_lan : directory :=
  MkDirectory [pfx_24] [] [ix_a].

Definition dir_no_ix : directory :=
  MkDirectory [pfx_24] [MkIxlan 10 77] [].

(** The addresses of the examples, as [ip_address] parses them. *)
Definition addr_198_51_100_7 : ip_addr := IpAddr IPv4 3325256711 None.
Definition addr_198_51_101_7 : ip_addr := IpAddr IPv4 3325256967 None.
Definition addr_10_1_2_3 : ip_addr := IpAddr IPv4 167838211 None.
Definition addr_2001_7f8_1__1_5 : ip_addr :=
  IpAddr IPv6 42540649787428580785618661884133703685 None.

(** A candidate the loop of the resolvers passes over: its text is no
    network, or it is a network that does not contain [vnet]. *)
Definition passed_over (vnet : ip_net) (q : Ixpfx) : Prop :=
  raised (ip_network (ixpfx_prefix q)) ∨
  ∃ n, ip_network (ixpfx_prefix q) = Ret n ∧ subnet_of vnet n = Ret false.

(** The referential chain of a prefix is broken: no exchange-lan record,
    or no exchange-point record for the first exchange-lan. *)
Definition broken_chain `{Pdb} (ixpfx : Ixpfx) : Prop :=
  data (getixlan_by_id (ixpfx_ixlan_id ixpfx)) = Some [] ∨
  ∃ ixlan rest,
    data (getixlan_by_id (ixpfx_ixlan_id ixpfx)) = Some (ixlan :: rest) ∧
    data (getixp_by_id (ixlan_ix_id ixlan)) = Some [].

(* ===================================================================== *)
(** * The other functions of lib_peeringdb.py and pdb-intersect.py

    [first_data_object], [all_data_objects] and [pdb_set_credentials] of the
    library; [get_all_net_for_orgid], [get_orgid_for_asn],
    [readcreds_fromconfig], [getArgs] and the two halves of the script body
    around the table header. *)

(** The keys the script reads of a [net] object, with its identifier: two
    dicts are equal when all their keys are. *)
Record Net : Type := MkNet {
  net_id : Z;
  net_org_id : Z;
  net_asn : Z;
  net_notes : string;
  net_netixlan_set : list Netixlan
}.

#[global] Instance Netixlan_eq_dec : EqDecision Netixlan.
Proof. solve_decision. Defined.

#[global] Instance Net_eq_dec : EqDecision Net.
Proof. solve_decision. Defined.

(** The queries of the script. An argument is what the source formats into
    the URL: the ASN text of the command line, the [org_id] of a net or
    [None], the comma-joined ASN list. The result is what [querypdb]
    returns, [None] for a JSON null. *)
Class PdbNet : Type := {
  pdb_net_by_asn : string → option (reply Net);
  pdb_net_by_orgid : option Z → option (reply Net);
  pdb_net_tree_by_asnlist : string → option (reply Net)
}.

(** [first_data_object]. *)
Definition first_data_object {A : Type} (obj : option (reply A)) : outcome (option A) :=
  match obj with
  | None => Ret None
  | Some r =>
      match data r with
      | None => Ret None
      | Some _ =>
          d ← getitem_data r;
          if (length d =? 0)%nat then Ret None
          else
            d ← getitem_data r;
            x ← getitem d 0;
            Ret (Some x)
      end
  end.

(** [all_data_objects]: the elements are appended to a new list. *)
Definition all_data_objects {A : Type} (obj : option (reply A))
  : outcome (option (list A)) :=
  match obj with
  | None => Ret None
  | Some r =>
      match data r with
      | None => Ret None
      | Some _ =>
          d ← getitem_data r;
          if (length d =? 0)%nat then Ret None
          else
            d ← getitem_data r;
            Ret (Some (fold_left (fun reslist o => reslist ++ [o]) d []))
      end
  end.

(** [l.remove(x)]: the first element equal to [x] goes, ValueError when
    there is none. *)
Fixpoint list_remove_first {A : Type} `{EqDecision A} (x : A) (l : list A)
  : outcome (list A) :=
  match l with
  | [] => Raise ValueError
  | y :: r =>
      if decide (y = x) then Ret r
      else r' ← list_remove_first x r; Ret (y :: r')
  end.

(** The anonymous base URL, and [pdb_set_credentials]. *)
Definition PDB_baseurl : string := "https://peeringdb.com/api".

Definition pdb_set_credentials (arguser argpass : string) : string :=
  "https://" +:+ arguser +:+ ":" +:+ argpass +:+ "@peeringdb.com/api".

(** The characters [str.rstrip()] removes, among the code points below
    256, and [s.rstrip()]. *)
Definition is_space (c : ascii) : bool :=
  let n := Z.of_N (N_of_ascii c) in
  ((9 <=? n) && (n <=? 13)) || ((28 <=? n) && (n <=? 32))
  || (n =? 133) || (n =? 160).

Fixpoint rstrip (s : string) : string :=
  match s with
  | EmptyString => EmptyString
  | String c r =>
      match rstrip r with
      | EmptyString => if is_space c then EmptyString else String c EmptyString
      | r' => String c r'
      end
  end.

(** The globals [asn1], [asn2], [pat1], [pat2] of the script. *)
Record Globals : Type := MkGlobals {
  asn1 : option string;
  asn2 : option string;
  pat1 : option string;
  pat2 : option string
}.

(** How a run of script code ends: it goes on, or [exit(code)]. *)
Inductive completion (A : Type) : Type :=
  | Returned (a : A)
  | SystemExit (code : Z).
Arguments Returned {A} a.
Arguments SystemExit {A} code.

(** The [else] branch of the loop of [getArgs]: a positional argument fills
    the first global that is still [None]. *)
Definition positional (g : Globals) (arg : string) : Globals :=
  match asn1 g, asn2 g, pat1 g, pat2 g with
  | None, _, _, _ => MkGlobals (Some arg) (asn2 g) (pat1 g) (pat2 g)
  | _, None, _, _ => MkGlobals (asn1 g) (Some arg) (pat1 g) (pat2 g)
  | _, _, None, _ => MkGlobals (asn1 g) (asn2 g) (Some arg) (pat2 g)
  | _, _, _, None => MkGlobals (asn1 g) (asn2 g) (pat1 g) (Some arg)
  | _, _, _, _ => g
  end.

(** The [while arg != None] loop of [getArgs] on what is left of
    [sys.argv]. An option pops its value; when nothing is left the
    IndexError is swallowed and so is the one of the next [pop], which ends
    the loop. *)
Fixpoint getArgs_loop (g : Globals) (config : string) (argv : list string)
  : Globals * string :=
  match argv with
  | [] => (g, config)
  | arg :: rest =>
      if String.eqb arg "--asn1" then
        match rest with
        | v :: rest' => getArgs_loop (MkGlobals (Some v) (asn2 g) (pat1 g) (pat2 g)) config rest'
        | [] => (g, config)
        end
      else if String.eqb arg "--asn2" then
        match rest with
        | v :: rest' => getArgs_loop (MkGlobals (asn1 g) (Some v) (pat1 g) (pat2 g)) config rest'
        | [] => (g, config)
        end
      else if String.eqb arg "--pat1" then
        match rest with
        | v :: rest' => getArgs_loop (MkGlobals (asn1 g) (asn2 g) (Some v) (pat2 g)) config rest'
        | [] => (g, config)
        end
      else if String.eqb arg "--pat2" then
        match rest with
        | v :: rest' => getArgs_loop (MkGlobals (asn1 g) (asn2 g) (pat1 g) (Some v)) config rest'
        | [] => (g, config)
        end
      else if String.eqb arg "--config" then
        match rest with
        | v :: rest' => getArgs_loop g v rest'
        | [] => (g, config)
        end
      else getArgs_loop (positional g arg) config rest
  end.

Section Script.
Context `{PdbNet}.

(** [re.match(pattern, text)] is not [None]; the call raises on a pattern
    that does not compile. *)
Variable re_match : string → string → outcome bool.

(** [os.path.dirname(__file__)], and the lines [readline] returns from the
    file of a path, [None] when [open] or a read raises. *)
Variable script_dir : string.
Variable open_read : string → option (list string).

(** [get_orgid_for_asn]. *)
Definition get_orgid_for_asn (asn : string) : outcome (option Z) :=
  net ← first_data_object (pdb_net_by_asn asn);
  match net with
  | None => Ret None
  | Some net => Ret (Some (net_org_id net))
  end.

(** The loop [for net in nets] of [get_all_net_for_orgid], which removes
    from the list it iterates over: [i] is the index of the list iterator,
    which stops when it is no index of the list any more. One iteration
    uses one unit of [fuel]. *)
Fixpoint remove_unmatched (fuel : nat) (pat : string) (nets : list Net) (i : nat)
  : outcome (list Net) :=
  match fuel with
  | O => Ret nets
  | S fuel =>
      match nets !! i with
      | None => Ret nets
      | Some net =>
          m ← re_match pat (net_notes net);
          if m : bool then remove_unmatched fuel pat nets (S i)
          else
            nets' ← list_remove_first net nets;
            remove_unmatched fuel pat nets' (S i)
      end
  end.

(** [get_all_net_for_orgid]; the loop makes at most one iteration per
    element of the list. *)
Definition get_all_net_for_orgid (orgid : option Z) (pat : option string)
  : outcome (option (list Net)) :=
  nets ← all_data_objects (pdb_net_by_orgid orgid);
  match nets with
  | None => Ret None
  | Some nets =>
      match pat with
      | None => Ret (Some nets)
      | Some pat =>
          let pat := ".*" +:+ pat +:+ ".*" in
          nets ← remove_unmatched (length nets) pat nets 0;
          Ret (Some nets)
      end
  end.

(** [readcreds_fromconfig]; [readline] returns the empty text at the end
    of the file. *)
Definition readcreds_fromconfig (config : string) : string * string :=
  let config :=
    if String.eqb config "" then join "/" [script_dir; "pdb-intersect.conf"%string]
    else config in
  match open_read config with
  | Some lines =>
      let u := rstrip (nth 0 lines EmptyString) in
      let p := rstrip (nth 1 lines EmptyString) in
      (u, p)
  | None => (EmptyString, EmptyString)
  end.

(** [getArgs] on [sys.argv]: the globals and [PDB_baseurl] it leaves, or
    [exit(1)]. The first [pop] is outside every [try]. *)
Definition getArgs (argv : list string) : outcome (completion (Globals * string)) :=
  match argv with
  | [] => Raise IndexError
  | myname :: argv =>
      let '(g, config) := getArgs_loop (MkGlobals None None None None) "" argv in
      match asn1 g, asn2 g with
      | Some _, Some _ =>
          let pat1 := match pat1 g with None => Some EmptyString | p => p end in
          let pat2 := match pat2 g with None => Some EmptyString | p => p end in
          let '(pdbuser, pdbpass) := readcreds_fromconfig config in
          let baseurl :=
            if negb (String.eqb pdbuser "") then pdb_set_credentials pdbuser pdbpass
            else PDB_baseurl in
          Ret (Returned (MkGlobals (asn1 g) (asn2 g) pat1 pat2, baseurl))
      | _, _ => Ret (SystemExit 1)
      end
  end.

(** Lines 239 to 260 of the script: the two trees, or [exit(1)]. *)
Definition main_lookup (g : Globals)
  : outcome (completion (option (list Net) * option (list Net))) :=
  orgid1 ← get_orgid_for_asn (str_opt (asn1 g));
  orgid2 ← get_orgid_for_asn (str_opt (asn2 g));
  asn1_nets ← get_all_net_for_orgid orgid1 (pat1 g);
  asn2_nets ← get_all_net_for_orgid orgid2 (pat2 g);
  match asn1_nets, asn2_nets with
  | None, _ => Ret (SystemExit 1)
  | _, None => Ret (SystemExit 1)
  | Some asn1_nets, Some asn2_nets =>
      let asns1 := fold_left (fun asns net => asns ++ [str_int (net_asn net)]) asn1_nets [] in
      tree1 ← all_data_objects (pdb_net_tree_by_asnlist (join "," asns1));
      let asns2 := fold_left (fun asns net => asns ++ [str_int (net_asn net)]) asn2_nets [] in
      tree2 ← all_data_objects (pdb_net_tree_by_asnlist (join "," asns2));
      Ret (Returned (tree1, tree2))
  end.

End Script.

(** [for net in tree: netixlan += net["netixlan_set"]]; iterating over
    [None] raises TypeError. *)
Definition collect_netixlans (tree : option (list Net)) : outcome (list Netixlan) :=
  match tree with
  | None => Raise TypeError
  | Some tree =>
      Ret (fold_left (fun netixlan net => netixlan ++ net_netixlan_set net) tree [])
  end.

(** Lines 267 to 280 of the script: the rows added to the empty table. *)
Definition main_intersect (tree1 tree2 : option (list Net)) : outcome (list row) :=
  netixlan1 ← collect_netixlans tree1;
  netixlan2 ← collect_netixlans tree2;
  ixlan_intersect netixlan1 netixlan2 [].

(** The list [get_all_net_for_orgid] is meant to leave, and the one its
    loop leaves on distinct nets: after a net that is removed the next net
    is kept without a test. *)
Fixpoint skipping_filter (keep : Net → bool) (nets : list Net) : list Net :=
  match nets with
  | [] => []
  | net :: rest =>
      if keep net then net :: skipping_filter keep rest
      else match rest with
           | [] => []
           | next :: rest' => next :: skipping_filter keep rest'
           end
  end.

(** No two unmatched nets stand next to each other. *)
Fixpoint no_adjacent_unmatched (keep : Net → bool) (nets : list Net) : bool :=
  match nets with
  | x :: rest =>
      match rest with
      | y :: _ => (keep x || keep y) && no_adjacent_unmatched keep rest
      | [] => true
      end
  | [] => true
  end.

(** The option names of [getArgs]. *)
Definition is_option_name (arg : string) : bool :=
  String.eqb arg "--asn1" || String.eqb arg "--asn2" || String.eqb arg "--pat1"
  || String.eqb arg "--pat2" || String.eqb arg "--config".

(** The command line of a list of options with their values. *)
Definition option_args (pairs : list (string * string)) : list string :=
  flat_map (fun '(o, v) => [o; v]) pairs.

(** The example values of the script. *)
Definition net_a : Net := MkNet 1 7 64500 "transit" [].
Definition net_b : Net := MkNet 2 7 64501 "lab" [].
Definition net_c : Net := MkNet 3 7 64502 "lab too" [].
Definition notes_are_transit (pat notes : string) : outcome bool :=
  Ret (String.eqb notes "transit").
Definition notes_never_match (pat notes : string) : outcome bool := Ret false.
Definition is_transit (net : Net) : bool := String.eqb (net_notes net) "transit".
Definition pdb_isolated : PdbNet := {|
  pdb_net_by_asn _ := Some (Reply (Some [net_a]));
  pdb_net_by_orgid _ := Some (Reply (Some [net_b; net_a; net_c]));
  pdb_net_tree_by_asnlist _ := Some (Reply (Some [net_a]))
|}.
Definition pdb_three_nets : PdbNet := {|
  pdb_net_by_asn _ := Some (Reply (Some [net_a]));
  pdb_net_by_orgid _ := Some (Reply (Some [net_a; net_b; net_c]));
  pdb_net_tree_by_asnlist _ := Some (Reply (Some [net_a; net_b; net_c]))
|}.

(** The organisation of the first net the query for an ASN returns, and
    whether the query for the nets of an organisation returns any. *)
Definition org_of_asn `{PdbNet} (asn : option string) : option Z :=
  net_org_id <$> ((pdb_net_by_asn (str_opt asn) ≫= data) ≫= head).

Definition org_has_nets `{PdbNet} (orgid : option Z) : bool :=
  match pdb_net_by_orgid orgid ≫= data with
  | Some (_ :: _) => true
  | _ => false
  end.

(** The attachments of the nets of a tree, in order. *)
Definition tree_netixlans (tree : list Net) : list Netixlan :=
  concat (map net_netixlan_set tree).

(** Two nets at the exchange-lan 10, the second one also at 20, and a net
    at 10 and 30. *)
Definition ni_a10 : Netixlan := MkNetixlan 10 64500 (Some "198.51.100.7"%string) None "IX-A".
Definition ni_b10 : Netixlan := MkNetixlan 10 64501 (Some "198.51.100.8"%string) None "IX-A".
Definition ni_b20 : Netixlan := MkNetixlan 20 64501 None None "IX-B".
Definition ni_c10 : Netixlan := MkNetixlan 10 64700 (Some "198.51.100.9"%string) None "IX-A".
Definition ni_c30 : Netixlan := MkNetixlan 30 64700 None None "IX-C".

(* ===================================================================== *)
(** * Text lemmas *)

Lemma split_not_nil sep s : split sep s ≠ [].
Proof.
  destruct s as [|c r]; simpl; [done|].
  destruct (Ascii.eqb c sep); [done|].
  by destruct (split sep r).
Qed.

Lemma split_cons sep c r :
  split sep (String c r) =
    if Ascii.eqb c sep then EmptyString :: split sep r
    else match split sep r with
         | h :: t => String c h :: t
         | [] => [String c EmptyString]
         end.
Proof. reflexivity. Qed.

Lemma split_no_sep sep k : contains sep k = false → split sep k = [k].
Proof.
  induction k as [|c k IH]; simpl; [done|].
  intros Hc. apply orb_false_iff in Hc as [Hc Hk].
  rewrite Hc, (IH Hk). done.
Qed.

Lemma split_app_sep sep k r :
  contains sep k = false →
  split sep (k +:+ String sep r) = k :: split sep r.
Proof.
  induction k as [|c k IH]; simpl.
  - intros _. by rewrite Ascii.eqb_refl.
  - intros Hc. apply orb_false_iff in Hc as [Hc Hk].
    rewrite Hc, (IH Hk). done.
Qed.

Lemma split_parts_no_sep sep s :
  Forall (fun p => contains sep p = false) (split sep s).
Proof.
  induction s as [|c r IH]; simpl.
  - by constructor.
  - destruct (Ascii.eqb c sep) eqn:Hc.
    + by constructor.
    + destruct (split sep r) as [|h t]; [by repeat constructor; simpl; rewrite Hc|].
      inversion IH; subst. constructor; [|done]. simpl. by rewrite Hc.
Qed.

Lemma split_join sep parts :
  parts ≠ [] →
  Forall (fun p => contains sep p = false) parts →
  split sep (join (String sep EmptyString) parts) = parts.
Proof.
  induction parts as [|x r IH]; [done|].
  intros _ Hall. inversion Hall as [|? ? Hx Hr]; subst.
  destruct r as [|y r].
  - simpl. by apply split_no_sep.
  - change (join (String sep EmptyString) (x :: y :: r))
      with (x +:+ String sep (join (String sep EmptyString) (y :: r))).
    rewrite split_app_sep by done. f_equal. by apply IH.
Qed.

Lemma join_split sep s : join (String sep EmptyString) (split sep s) = s.
Proof.
  induction s as [|c r IH]; simpl; [done|].
  destruct (Ascii.eqb c sep) eqn:Hc.
  - apply Ascii.eqb_eq in Hc as ->.
    pose proof (split_not_nil sep r).
    destruct (split sep r) as [|h t] eqn:E; [done|].
    simpl in *. by rewrite IH.
  - pose proof (split_not_nil sep r).
    destruct (split sep r) as [|h t] eqn:E; [done|].
    destruct t; simpl in *; by rewrite <- IH.
Qed.

Lemma length_split sep s : length (split sep s) = S (count_char sep s).
Proof.
  induction s as [|c r IH]; simpl; [done|].
  destruct (Ascii.eqb c sep); simpl; [by rewrite IH|].
  pose proof (split_not_nil sep r).
  destruct (split sep r) as [|h t]; [done|]. simpl in *. lia.
Qed.

Lemma count_char_app c a b :
  count_char c (a +:+ b) = (count_char c a + count_char c b)%nat.
Proof. induction a as [|d a IH]; simpl; [done|]. rewrite IH. lia. Qed.

Lemma count_char_join c sep parts :
  count_char c sep = O →
  count_char c (join sep parts) = foldr (fun p n => (count_char c p + n)%nat) O parts.
Proof.
  intros Hsep. induction parts as [|x r IH]; [done|].
  destruct r as [|y r].
  - simpl. lia.
  - change (join sep (x :: y :: r)) with (x +:+ sep +:+ join sep (y :: r)).
    rewrite !count_char_app, Hsep, IH. simpl. lia.
Qed.

Lemma re_sub_leading_zeros_idem s :
  re_sub_leading_zeros (re_sub_leading_zeros s) = re_sub_leading_zeros s.
Proof.
  induction s as [|c r IH]; simpl; [done|].
  destruct (Ascii.eqb c "0") eqn:Hc; [done|]. simpl. by rewrite Hc.
Qed.

Lemma re_sub_leading_zeros_contains c s :
  contains c s = false → contains c (re_sub_leading_zeros s) = false.
Proof.
  induction s as [|d r IH]; simpl; [done|].
  intros Hc. apply orb_false_iff in Hc as [Hd Hr].
  destruct (Ascii.eqb d "0"); [by apply IH|]. simpl. by rewrite Hd, Hr.
Qed.

Lemma re_sub_leading_zeros_count c s :
  c ≠ "0"%char → count_char c (re_sub_leading_zeros s) = count_char c s.
Proof.
  intros Hc. induction s as [|d r IH]; simpl; [done|].
  destruct (Ascii.eqb d "0") eqn:Hd; [|done].
  apply Ascii.eqb_eq in Hd as ->. rewrite IH.
  destruct (Ascii.eqb "0" c) eqn:E; [|done].
  apply Ascii.eqb_eq in E. congruence.
Qed.

Lemma re_sub_leading_zeros_zeros n s :
  re_sub_leading_zeros (zeros n +:+ s) = re_sub_leading_zeros s.
Proof. induction n as [|n IH]; simpl; done. Qed.

Lemma strip_component_idem c : strip_component (strip_component c) = strip_component c.
Proof.
  unfold strip_component.
  destruct (re_sub_leading_zeros c) as [|d r] eqn:E; [done|].
  rewrite <- E, re_sub_leading_zeros_idem, E. done.
Qed.

Lemma strip_component_contains sep c :
  sep ≠ "0"%char → contains sep c = false → contains sep (strip_component c) = false.
Proof.
  intros Hsep Hc. unfold strip_component.
  pose proof (re_sub_leading_zeros_contains sep c Hc) as Hr.
  destruct (re_sub_leading_zeros c); [|done].
  change (contains sep "0") with (Ascii.eqb "0" sep || false).
  destruct (Ascii.eqb "0" sep) eqn:E; [|done].
  apply Ascii.eqb_eq in E. congruence.
Qed.

Lemma strip_component_count c s :
  c ≠ "0"%char → count_char c (strip_component s) = count_char c s.
Proof.
  intros Hc. unfold strip_component.
  pose proof (re_sub_leading_zeros_count c s Hc) as Hr.
  destruct (re_sub_leading_zeros s); [|done].
  rewrite <- Hr.
  change (count_char c "0") with ((if Ascii.eqb "0" c then 1 else 0) + 0)%nat.
  destruct (Ascii.eqb "0" c) eqn:E; [|done].
  apply Ascii.eqb_eq in E. congruence.
Qed.

Lemma strip_component_zeros n c : strip_component (zeros n +:+ c) = strip_component c.
Proof. unfold strip_component. by rewrite re_sub_leading_zeros_zeros. Qed.

(** The loop body of [unexplode_ip] is [strip_component]. *)
Lemma unexplode_body c :
  (let i := re_sub_leading_zeros c in
   if (String.length i =? 0)%nat then "0"%string else i) = strip_component c.
Proof. unfold strip_component. by destruct (re_sub_leading_zeros c). Qed.

Lemma unexplode_results_acc ips acc :
  fold_left
    (fun results i =>
       let i := re_sub_leading_zeros i in
       let i := if (String.length i =? 0)%nat then "0"%string else i in
       results ++ [i]) ips acc = acc ++ map strip_component ips.
Proof.
  revert acc. induction ips as [|x l IH]; intros acc; simpl.
  - by rewrite app_nil_r.
  - rewrite IH, <- app_assoc. simpl. do 3 f_equal. apply unexplode_body.
Qed.

Lemma unexplode_results ips :
  fold_left
    (fun results i =>
       let i := re_sub_leading_zeros i in
       let i := if (String.length i =? 0)%nat then "0"%string else i in
       results ++ [i]) ips [] = map strip_component ips.
Proof. apply unexplode_results_acc. Qed.

Lemma unexplode_ip_unfold ip : unexplode_ip ip = unexplode_ip_spec ip.
Proof.
  unfold unexplode_ip, unexplode_ip_spec.
  destruct (Nat.eqb_spec (length (split "." ip)) 4) as [E|E].
  - rewrite decide_True by done. by rewrite unexplode_results.
  - rewrite decide_False by done.
    destruct (Nat.ltb_spec 1 (length (split ":" ip))) as [L|L].
    + rewrite decide_True by lia. by rewrite unexplode_results.
    + rewrite decide_False by lia. done.
Qed.

Lemma Forall_strip_no_sep sep parts :
  sep ≠ "0"%char →
  Forall (fun p => contains sep p = false) parts →
  Forall (fun p => contains sep p = false) (map strip_component parts).
Proof.
  intros Hsep Hall. apply Forall_map. eapply Forall_impl; [exact Hall|].
  intros p Hp. by apply strip_component_contains.
Qed.

Lemma map_strip_idem parts :
  map strip_component (map strip_component parts) = map strip_component parts.
Proof.
  rewrite map_map. apply map_ext. intros. apply strip_component_idem.
Qed.

Lemma count_join_strip c sep parts :
  c ≠ "0"%char → count_char c sep = O →
  count_char c (join sep (map strip_component parts)) = count_char c (join sep parts).
Proof.
  intros Hc Hsep. rewrite !count_char_join by done.
  induction parts as [|x r IH]; simpl; [done|].
  by rewrite IH, strip_component_count.
Qed.

Lemma unexplode_ip_spec_idem ip :
  unexplode_ip_spec (unexplode_ip_spec ip) = unexplode_ip_spec ip.
Proof.
  destruct (decide (length (split "." ip) = 4%nat)) as [E4|E4].
  - (* four dot-separated components *)
    assert (Hs : split "." (join "." (map strip_component (split "." ip)))
                 = map strip_component (split "." ip)).
    { apply split_join.
      - pose proof (split_not_nil "." ip). by destruct (split "." ip).
      - apply Forall_strip_no_sep; [done|]. apply split_parts_no_sep. }
    assert (Hu : unexplode_ip_spec ip = join "." (map strip_component (split "." ip))).
    { unfold unexplode_ip_spec. by rewrite decide_True. }
    rewrite Hu. unfold unexplode_ip_spec. rewrite Hs.
    rewrite decide_True by (by rewrite length_map).
    by rewrite map_strip_idem.
  - destruct (decide (2 ≤ length (split ":" ip))%nat) as [E2|E2].
    + (* colon-separated components *)
      assert (Hs : split ":" (join ":" (map strip_component (split ":" ip)))
                   = map strip_component (split ":" ip)).
      { apply split_join.
        - pose proof (split_not_nil ":" ip). by destruct (split ":" ip).
        - apply Forall_strip_no_sep; [done|]. apply split_parts_no_sep. }
      assert (Hd : length (split "." (join ":" (map strip_component (split ":" ip))))
                   = length (split "." ip)).
      { rewrite !length_split. f_equal.
        rewrite count_join_strip by done.
        by rewrite (join_split ":" ip). }
      assert (Hu : unexplode_ip_spec ip = join ":" (map strip_component (split ":" ip))).
      { unfold unexplode_ip_spec. rewrite decide_False by done. by rewrite decide_True. }
      rewrite Hu. unfold unexplode_ip_spec. rewrite Hs.
      rewrite decide_False by (by rewrite Hd).
      rewrite decide_True by (by rewrite length_map).
      by rewrite map_strip_idem.
    + assert (Hu : unexplode_ip_spec ip = ip).
      { unfold unexplode_ip_spec. rewrite decide_False by done. by rewrite decide_False. }
      by rewrite !Hu.
Qed.

(** C10. The normaliser returns a text for every input text, with no
    exception on the way: four dot-separated components are stripped and
    rejoined with dots, otherwise two or more colon-separated components
    are stripped and rejoined with colons, and any other text is returned
    as it is. *)
Theorem unexplode_ip_total (ip : string) :
  unexplode_ip ip =
    if decide (length (split "." ip) = 4%nat) then
      join "." (map strip_component (split "." ip))
    else if decide (2 ≤ length (split ":" ip))%nat then
      join ":" (map strip_component (split ":" ip))
    else ip.
Proof. apply unexplode_ip_unfold. Qed.

(** C6. The normaliser is idempotent, on every text and so on every valid
    IPv4 or IPv6 address text. *)
Theorem unexplode_ip_idempotent (x : string) :
  unexplode_ip (unexplode_ip x) = unexplode_ip x.
Proof. rewrite !unexplode_ip_unfold. apply unexplode_ip_spec_idem. Qed.

(* ===================================================================== *)
(** * The IPv6 coarse key *)

Lemma drop_trailing_zero_groups_length groups :
  (length (drop_trailing_zero_groups groups) ≤ length groups)%nat.
Proof.
  induction groups as [|g r IH]; simpl; [done|].
  destruct (drop_trailing_zero_groups r) as [|x r'].
  - destruct (String.eqb g "0000"); simpl; lia.
  - simpl in *. lia.
Qed.

(** The state of the loop of [getixp_by_ipv6] after the groups of [groups]
    have been visited back to front: the surviving groups, stripped, and
    the flag [atend], still set when nothing survived. *)
Lemma v6partial_loop groups :
  fold_left
    (fun '(resultarr, atend) part =>
       if String.eqb part "0000" && atend then (resultarr, atend)
       else
         let part := re_sub_leading_zeros part in
         let part := if String.eqb part "" then "0"%string else part in
         (part :: resultarr, false))
    (rev groups) ([], true)
  = (map strip_component (drop_trailing_zero_groups groups),
     bool_decide (drop_trailing_zero_groups groups = [])).
Proof.
  induction groups as [|g r IH]; [done|].
  assert (Hs : ∀ p, (if String.eqb (re_sub_leading_zeros p) "" then "0"%string
                     else re_sub_leading_zeros p) = strip_component p).
  { intros p. unfold strip_component. by destruct (re_sub_leading_zeros p). }
  simpl rev. rewrite fold_left_app, IH. simpl.
  destruct (drop_trailing_zero_groups r) as [|x r'] eqn:E.
  - rewrite bool_decide_true by done. rewrite andb_true_r.
    destruct (String.eqb g "0000"); [done|].
    simpl. by rewrite Hs.
  - rewrite bool_decide_false by done. rewrite andb_false_r.
    simpl. by rewrite Hs.
Qed.

Lemma v6partial_unfold v6full : v6partial v6full = v6partial_spec v6full.
Proof.
  unfold v6partial, v6partial_spec.
  rewrite v6partial_loop.
  rewrite take_ge; [done|].
  rewrite length_map.
  etrans; [apply drop_trailing_zero_groups_length|].
  rewrite length_take. lia.
Qed.

(** C7. The IPv6 coarse key is made of the first six groups of the
    exploded text, without the trailing ["0000"] groups, each surviving
    group stripped of its leading zeros; the six groups
    [2001:0de8:0006:0000:0000:0000] give ["2001:de8:6"], and so does the
    address [2001:de8:6::714:1] of the comment in the sources. *)
Theorem v6partial_is_coarse_key :
  (∀ v6full : string,
     v6partial v6full =
       join ":" (map strip_component
                   (drop_trailing_zero_groups (take 6 (split ":" v6full)))))
  ∧ v6partial "2001:0de8:0006:0000:0000:0000" = "2001:de8:6"%string
  ∧ v6key "2001:de8:6::714:1" = Ret "2001:de8:6"%string.
Proof.
  split; [apply v6partial_unfold|]. split; vm_compute; reflexivity.
Qed.

(* ===================================================================== *)
(** * The presence intersector *)

Lemma foldM_app {A S : Type} (f : S → A → outcome S) (l1 l2 : list A) (s : S) :
  foldM f (l1 ++ l2) s = (s' ← foldM f l1 s; foldM f l2 s').
Proof.
  revert s. induction l1 as [|x l1 IH]; intros s; simpl; [done|].
  destruct (f s x) as [s'|e]; simpl; [apply IH|done].
Qed.

Lemma attachments_at_app id l1 l2 :
  attachments_at id (l1 ++ l2) = attachments_at id l1 ++ attachments_at id l2.
Proof. apply List.filter_app. Qed.

Lemma attachments_at_nil id l :
  attachments_at id l = [] ↔ id ∉ map ni_ixlan_id l.
Proof.
  rewrite list_elem_of_In, in_map_iff. unfold attachments_at. split.
  - intros E [x [Hx Hin]].
    assert (Hf : In x (List.filter (fun ni => ni_ixlan_id ni =? id) l)).
    { apply List.filter_In. split; [done|]. by apply Z.eqb_eq. }
    rewrite E in Hf. destruct Hf.
  - intros Hn.
    destruct (List.filter (fun ni => ni_ixlan_id ni =? id) l) as [|x r] eqn:E; [done|].
    exfalso. apply Hn. exists x.
    assert (Hf : In x (List.filter (fun ni => ni_ixlan_id ni =? id) l)).
    { rewrite E. by left. }
    apply List.filter_In in Hf as [Hin Heq]. apply Z.eqb_eq in Heq. done.
Qed.

(** The grouping loop never raises, and its dict maps every identifier of
    the sequence to the attachments at that exchange-lan, in order. *)
Lemma group_by_ixlanid_spec (l : list Netixlan) :
  ∃ d : gmap Z (list Netixlan),
    group_by_ixlanid l = Ret d ∧
    ∀ k, d !! k = match attachments_at k l with
                  | [] => None
                  | b => Some b
                  end.
Proof.
  unfold group_by_ixlanid.
  induction l as [|x l IH] using rev_ind.
  - exists ∅. split; [done|]. intros k. by rewrite lookup_empty.
  - destruct IH as (d & Hd & Hlook).
    rewrite foldM_app, Hd. simpl.
    unfold group_step. set (key := ni_ixlan_id x).
    assert (Hx : ∀ k, attachments_at k [x] = if decide (key = k) then [x] else []).
    { intros k. unfold attachments_at. simpl. fold key.
      destruct (Z.eqb_spec key k); [by rewrite decide_True|by rewrite decide_False]. }
    destruct (d !! key) as [b|] eqn:Ek.
    + unfold dict_getitem. rewrite Ek. simpl.
      eexists. split; [done|]. intros k.
      rewrite attachments_at_app, Hx.
      destruct (decide (key = k)) as [<-|Hne].
      * rewrite lookup_insert_eq.
        specialize (Hlook key). rewrite Ek in Hlook.
        destruct (attachments_at key l) as [|y r]; [done|].
        by inversion Hlook.
      * rewrite lookup_insert_ne by done. rewrite app_nil_r. apply Hlook.
    + unfold dict_getitem. rewrite lookup_insert_eq. simpl.
      eexists. split; [done|]. intros k.
      rewrite attachments_at_app, Hx.
      destruct (decide (key = k)) as [<-|Hne].
      * rewrite lookup_insert_eq.
        specialize (Hlook key). rewrite Ek in Hlook.
        destruct (attachments_at key l) as [|y r]; [done|]. done.
      * rewrite !lookup_insert_ne by done. rewrite app_nil_r. apply Hlook.
Qed.

Lemma group_dom (l : list Netixlan) (d : gmap Z (list Netixlan)) :
  (∀ k, d !! k = match attachments_at k l with
                 | [] => None
                 | b => Some b
                 end) →
  dom d = ixlan_ids l.
Proof.
  intros Hlook. apply set_eq. intros k.
  rewrite elem_of_dom, Hlook. unfold ixlan_ids. rewrite elem_of_list_to_set.
  pose proof (attachments_at_nil k l) as Hnil.
  destruct (attachments_at k l) as [|y r].
  - split; [by intros [? ?]|]. intros Hin. by apply Hnil in Hin.
  - split; [|by eauto]. intros _.
    destruct (decide (k ∈ map ni_ixlan_id l)) as [|Hn]; [done|].
    by apply Hnil in Hn.
Qed.

Lemma intersect_step_spec (A B : list Netixlan) (d1 d2 : gmap Z (list Netixlan))
    (k : Z) (tab : list row) :
  (∀ k, d1 !! k = match attachments_at k A with [] => None | b => Some b end) →
  (∀ k, d2 !! k = match attachments_at k B with [] => None | b => Some b end) →
  k ∈ ixlan_ids A ∩ ixlan_ids B →
  intersect_step d1 d2 tab k = Ret (tab ++ [merged_row A B k]).
Proof.
  intros H1 H2 Hk.
  apply elem_of_intersection in Hk as [HkA HkB].
  unfold ixlan_ids in HkA, HkB. rewrite elem_of_list_to_set in HkA, HkB.
  unfold intersect_step, dict_getitem, merged_row.
  rewrite H1, H2.
  pose proof (attachments_at_nil k A) as HnA.
  pose proof (attachments_at_nil k B) as HnB.
  destruct (attachments_at k A) as [|a ra]; [by apply HnA in HkA|].
  destruct (attachments_at k B) as [|b rb]; [by apply HnB in HkB|].
  done.
Qed.

(** The final loop adds one row per identifier it visits. *)
Lemma intersect_loop (A B : list Netixlan) (d1 d2 : gmap Z (list Netixlan))
    (ids : list Z) (tab : list row) :
  (∀ k, d1 !! k = match attachments_at k A with [] => None | b => Some b end) →
  (∀ k, d2 !! k = match attachments_at k B with [] => None | b => Some b end) →
  Forall (fun k => k ∈ ixlan_ids A ∩ ixlan_ids B) ids →
  foldM (intersect_step d1 d2) ids tab = Ret (tab ++ map (merged_row A B) ids).
Proof.
  intros H1 H2. revert tab.
  induction ids as [|k ids IH]; intros tab Hall.
  - simpl. by rewrite app_nil_r.
  - inversion Hall as [|? ? Hk Hrest]; subst.
    cbn [foldM]. rewrite (intersect_step_spec A B) by done.
    cbn. rewrite IH by done. by rewrite <- app_assoc.
Qed.

(** C5. [ixlan_intersect] returns, and adds to the table exactly one row
    for each exchange-lan identifier that occurs in both sequences: the
    number of rows is the number of shared identifiers, however many
    attachments each side has at an identifier, and an identifier of one
    side only gives no row. *)
Theorem ixlan_intersect_rows (A B : list Netixlan) (tab : list row) :
  ∃ rows : list row,
    ixlan_intersect A B tab = Ret (tab ++ rows) ∧
    rows = map (merged_row A B) (elements (ixlan_ids A ∩ ixlan_ids B)) ∧
    length rows = size (ixlan_ids A ∩ ixlan_ids B).
Proof.
  destruct (group_by_ixlanid_spec A) as (d1 & Hd1 & H1).
  destruct (group_by_ixlanid_spec B) as (d2 & Hd2 & H2).
  exists (map (merged_row A B) (elements (ixlan_ids A ∩ ixlan_ids B))).
  split; [|split; [done|by rewrite length_map]].
  unfold ixlan_intersect. rewrite Hd1, Hd2. simpl.
  rewrite (group_dom A d1 H1), (group_dom B d2 H2).
  apply intersect_loop; [done..|].
  apply Forall_forall. intros k Hk. by apply elem_of_elements in Hk.
Qed.

(* ===================================================================== *)
(** * Facts about the [ipaddress] module *)

(** Case analysis on the call an outcome hypothesis is stuck on. *)
Ltac case_outcome H :=
  match type of H with
  | context [bind _ ?m] =>
      let E := fresh "E" in
      destruct m eqn:E; cbn [bind mbind outcome_bind] in H; try discriminate H
  | context [mbind _ ?m] =>
      let E := fresh "E" in
      destruct m eqn:E; cbn [bind mbind outcome_bind] in H; try discriminate H
  end.

Lemma digit_value_decimal c :
  is_decimal_digit c = true → 0 ≤ digit_value c ≤ 9.
Proof.
  unfold is_decimal_digit, digit_value.
  intros Hc. rewrite Hc. apply andb_true_iff in Hc as [H1 H2]. lia.
Qed.

Lemma digit_value_hex c :
  is_hex_digit c = true → 0 ≤ digit_value c ≤ 15.
Proof.
  unfold is_hex_digit, digit_value.
  set (n := Z.of_N (N_of_ascii c)). intros Hc.
  destruct ((48 <=? n) && (n <=? 57)) eqn:E1; [lia|].
  destruct ((65 <=? n) && (n <=? 70)) eqn:E2; [lia|].
  simpl in Hc. lia.
Qed.

Lemma int_of_digits_bound base (digits : list ascii) (acc : Z) (k : nat) :
  0 < base →
  Forall (fun c => 0 ≤ digit_value c ≤ base - 1) digits →
  0 ≤ acc < base ^ Z.of_nat k →
  0 ≤ fold_left (fun acc c => base * acc + digit_value c) digits acc
    < base ^ Z.of_nat (k + length digits).
Proof.
  intros Hb. revert acc k.
  induction digits as [|c r IH]; intros acc k Hall Hacc; simpl.
  - by rewrite Nat.add_0_r.
  - inversion Hall as [|? ? Hc Hr]; subst.
    replace (k + S (length r))%nat with (S k + length r)%nat by lia.
    apply IH; [done|].
    rewrite Nat2Z.inj_succ, Z.pow_succ_r by lia. nia.
Qed.

Lemma parse_octet_range o n : parse_octet o = Ret n → 0 ≤ n ≤ 255.
Proof.
  unfold parse_octet. intros Hp.
  destruct (String.eqb o ""); [done|].
  destruct (isascii_isdigit o) eqn:Hd; [|done]. cbn [negb] in Hp.
  destruct (3 <? String.length o)%nat; [done|].
  destruct (negb (String.eqb o "0") && startswith "0" o); [done|].
  destruct (255 <? int_of_digits 10 o) eqn:Hle; [done|].
  inversion Hp; subst. split; [|lia].
  unfold isascii_isdigit in Hd. apply andb_true_iff in Hd as [_ Hd].
  rewrite forallb_forall in Hd.
  unfold int_of_digits.
  pose proof (int_of_digits_bound 10 (chars o) 0 0) as Hb.
  apply Hb; [lia| |simpl; lia].
  apply List.Forall_forall. intros c Hc.
  pose proof (digit_value_decimal c (Hd c Hc)). lia.
Qed.

Lemma parse_octet_digits o n : parse_octet o = Ret n → isascii_isdigit o = true.
Proof.
  unfold parse_octet. intros Hp.
  destruct (String.eqb o ""); [done|].
  by destruct (isascii_isdigit o).
Qed.

(** What a text that [IPv4Address] accepts looks like. *)
Lemma IPv4Address_inv v4 a :
  IPv4Address v4 = Ret a →
  contains "/" v4 = false ∧
  ∃ o0 o1 o2 o3 n0 n1 n2 n3,
    split "." v4 = [o0; o1; o2; o3] ∧
    parse_octet o0 = Ret n0 ∧ parse_octet o1 = Ret n1 ∧
    parse_octet o2 = Ret n2 ∧ parse_octet o3 = Ret n3 ∧
    a = IpAddr IPv4 (from_bytes_big [n0; n1; n2; n3]) None.
Proof.
  unfold IPv4Address. intros Ha.
  destruct (contains "/" v4) eqn:Hs; [done|]. split; [done|].
  case_outcome Ha. inversion Ha; subst a; clear Ha.
  unfold v4_ip_int_from_string in E.
  destruct (String.eqb v4 ""); [done|].
  destruct (Nat.eqb_spec (length (split "." v4)) 4) as [Hlen|]; [|done].
  simpl in E.
  destruct (split "." v4) as [|o0 [|o1 [|o2 [|o3 [|? ?]]]]]; try done.
  simpl in E.
  destruct (parse_octet o0) as [n0|] eqn:E0; [|done].
  destruct (parse_octet o1) as [n1|] eqn:E1; [|done].
  destruct (parse_octet o2) as [n2|] eqn:E2; [|done].
  destruct (parse_octet o3) as [n3|] eqn:E3; [|done].
  simpl in E. inversion E; subst.
  by exists o0, o1, o2, o3, n0, n1, n2, n3.
Qed.

Lemma IPv4Address_version v4 a : IPv4Address v4 = Ret a → version a = IPv4.
Proof.
  intros Ha. apply IPv4Address_inv in Ha as (_ & ? & ? & ? & ? & ? & ? & ? & ? & Ha).
  by destruct Ha as (_ & _ & _ & _ & _ & ->).
Qed.

Lemma IPv4Address_range v4 a : IPv4Address v4 = Ret a → 0 ≤ ip_int a < 2 ^ 32.
Proof.
  intros Ha.
  apply IPv4Address_inv in Ha
    as (_ & o0 & o1 & o2 & o3 & n0 & n1 & n2 & n3 & _ & H0 & H1 & H2 & H3 & ->).
  apply parse_octet_range in H0, H1, H2, H3.
  unfold from_bytes_big. simpl. lia.
Qed.

Lemma IPv4Address_raises v4 e : IPv4Address v4 = Raise e → e = AddressValueError.
Proof.
  unfold IPv4Address, v4_ip_int_from_string. intros Ha.
  destruct (contains "/" v4); [by inversion Ha|].
  destruct (String.eqb v4 ""); [by inversion Ha|].
  destruct (negb (length (split "." v4) =? 4)%nat); [by inversion Ha|].
  destruct (mapM parse_octet (split "." v4)); [done|by inversion Ha].
Qed.

Lemma land_all_ones n k : 0 ≤ k → 0 ≤ n < 2 ^ k → Z.land n (2 ^ k - 1) = n.
Proof.
  intros Hk Hn.
  replace (2 ^ k - 1) with (Z.ones k) by (rewrite Z.ones_equiv; lia).
  rewrite Z.land_ones by done. by apply Z.mod_small.
Qed.

(** The text of an IPv4 address followed by ["/32"] is its single-address
    network. *)
Lemma ip_network_host_v4 v4 a :
  IPv4Address v4 = Ret a → ip_network (v4 +:+ "/32") = Ret (host_network a).
Proof.
  intros Ha.
  pose proof (IPv4Address_range v4 a Ha) as Hr.
  pose proof (IPv4Address_version v4 a Ha) as Hv.
  pose proof (IPv4Address_inv v4 a Ha) as [Hs _].
  unfold ip_network, ip_network_class, split_addr_prefix.
  change (v4 +:+ "/32") with (v4 +:+ String "/" "32").
  rewrite split_app_sep by done.
  change (split "/" "32") with ["32"%string]. cbn [length Nat.ltb Nat.leb].
  cbn [mbind outcome_bind bind address_class]. rewrite Ha.
  cbn [mbind outcome_bind bind].
  change (make_netmask IPv4 (Some "32"%string)) with (Ret (2 ^ 32 - 1, 32)).
  cbn [mbind outcome_bind bind].
  rewrite land_all_ones by lia. rewrite Z.eqb_refl. cbn [negb].
  unfold host_network. rewrite Hv. done.
Qed.

(** The coarse key of an IPv4 address text: its first two octets. *)
Lemma v4partial_of_address v4 a :
  IPv4Address v4 = Ret a →
  ∃ o0 o1 rest,
    split "." v4 = o0 :: o1 :: rest ∧
    isascii_isdigit o0 = true ∧
    v4partial v4 = Ret (o0 +:+ "." +:+ o1).
Proof.
  intros Ha.
  apply IPv4Address_inv in Ha
    as (_ & o0 & o1 & o2 & o3 & n0 & n1 & n2 & n3 & Hs & H0 & _).
  exists o0, o1, [o2; o3]. split; [done|]. split.
  - by apply parse_octet_digits in H0.
  - unfold v4partial. by rewrite Hs.
Qed.

Lemma startswith_app k s : startswith k s = true → ∃ r, s = k +:+ r.
Proof.
  revert s. induction k as [|c k IH]; intros s Hs.
  - by exists s.
  - destruct s as [|d s]; [done|]. simpl in Hs.
    apply andb_true_iff in Hs as [Hc Hk]. apply Ascii.eqb_eq in Hc as ->.
    destruct (IH s Hk) as [r ->]. by exists r.
Qed.

Lemma dotted_head_not_empty s : dotted_head s → s ≠ EmptyString.
Proof. intros (o & r & _ & ->). by destruct o. Qed.

Lemma dotted_head_not_hex s : dotted_head s → forallb is_hex_digit (chars s) = false.
Proof.
  intros (o & r & _ & ->).
  induction o as [|c o IH]; [done|].
  change (chars (String c o +:+ String "." r)) with (c :: chars (o +:+ String "." r)).
  cbn [forallb]. rewrite IH. apply andb_false_r.
Qed.

Lemma dotted_head_split sep s :
  sep ≠ "."%char → is_decimal_digit sep = false →
  dotted_head s →
  ∃ h t, split sep s = h :: t ∧ dotted_head h.
Proof.
  intros Hdot Hdig (o & r & Ho & ->).
  unfold isascii_isdigit in Ho. apply andb_true_iff in Ho as [Hne Ho].
  assert (Hgen : ∀ o, forallb is_decimal_digit (chars o) = true →
            ∃ h, (∃ t, split sep (o +:+ String "." r) = (o +:+ String "." h) :: t)).
  { clear o Hne Ho. intros o.
    induction o as [|c o IH]; intros Ho.
    - change (EmptyString +:+ String "." r) with (String "." r).
      rewrite split_cons.
      destruct (Ascii.eqb "." sep) eqn:E; [apply Ascii.eqb_eq in E; congruence|].
      pose proof (split_not_nil sep r).
      destruct (split sep r) as [|h t]; [done|]. by exists h, t.
    - change (chars (String c o)) with (c :: chars o) in Ho.
      cbn [forallb] in Ho. apply andb_true_iff in Ho as [Hc Ho].
      destruct (IH Ho) as (h & t & E).
      exists h, t.
      change (String c o +:+ String "." r) with (String c (o +:+ String "." r)).
      rewrite split_cons, E.
      destruct (Ascii.eqb c sep) eqn:Ec; [|done].
      apply Ascii.eqb_eq in Ec as ->. congruence. }
  destruct (Hgen o Ho) as (h & t & E).
  exists (o +:+ String "." h), t. split; [done|].
  exists o, h. split; [|done].
  unfold isascii_isdigit. by rewrite Hne, Ho.
Qed.

Lemma find_skip_index_ge interior i sk j :
  find_skip_index interior i sk = Ret (Some j) → sk = Some j ∨ i ≤ j.
Proof.
  revert i sk. induction interior as [|p r IH]; intros i sk Hf; simpl in Hf.
  - left. by inversion Hf.
  - destruct (String.eqb p "").
    + destruct sk; [done|]. apply IH in Hf as [Hf|Hf]; [|lia].
      inversion Hf; subst. right. lia.
    + apply IH in Hf as [Hf|Hf]; [by left|right; lia].
Qed.

(** [_ip_int_from_string] of the IPv6 classes refuses a text whose first
    colon-separated part is not made of hex digits. *)
Lemma v6_ip_int_from_string_head s h t :
  split ":" s = h :: t → h ≠ EmptyString →
  forallb is_hex_digit (chars h) = false →
  raised (v6_ip_int_from_string s).
Proof.
  intros Hs Hne Hhex.
  unfold v6_ip_int_from_string. rewrite Hs.
  destruct (String.eqb s ""); [done|].
  destruct (Nat.ltb_spec (length (h :: t)) 3) as [|Hlen]; [done|].
  assert (Hparts : ∀ (m : outcome (list string)) (k : list string → outcome Z),
            (∀ parts, m = Ret parts → ∃ t', parts = h :: t') →
            (∀ t', raised (k (h :: t'))) →
            raised (parts ← m; k parts)).
  { intros m k Hm Hk. destruct m as [parts|e]; [|done].
    destruct (Hm parts eq_refl) as [t' ->]. apply Hk. }
  apply Hparts.
  - intros parts Hp.
    destruct (contains "." (List.last (h :: t) "")).
    + destruct (IPv4Address (List.last (h :: t) "")); [|done].
      inversion Hp; subst.
      destruct t as [|t1 t]; [simpl in Hlen; lia|].
      eexists. change (removelast (h :: t1 :: t)) with (h :: removelast (t1 :: t)).
      rewrite <- app_comm_cons. done.
    + inversion Hp; subst. by eexists.
  - intros t'. cbv zeta.
    destruct (9 <? Z.of_nat (length (h :: t'))); [done|].
    destruct (find_skip_index (removelast (tail (h :: t'))) 1 None) as [sk|] eqn:Esk; [|done].
    cbn [mbind outcome_bind bind hd].
    apply String.eqb_neq in Hne. rewrite Hne.
    assert (Hraise : ∀ hi lo skipped, 1 ≤ hi →
              raised (match
                  (hi0 ← parse_hextets (take (Z.to_nat hi) (h :: t')) 0;
                   parse_hextets (drop (Z.to_nat lo) (h :: t'))
                     (Z.shiftl hi0 (16 * skipped)))
                with
                | Ret v => Ret v
                | Raise _ => Raise AddressValueError
                end)).
    { intros hi lo skipped Hhi.
      destruct (Z.to_nat hi) as [|k] eqn:Ek; [lia|].
      cbn [take parse_hextets]. unfold parse_hextet at 1. rewrite Hhex. done. }
    destruct sk as [j|].
    + apply find_skip_index_ge in Esk as [|Hj]; [done|].
      cbn [mbind outcome_bind bind].
      destruct (String.eqb (List.last (h :: t') "") "").
      * destruct (negb (Z.of_nat (length (h :: t')) - j - 1 - 1 =? 0)); [done|].
        cbn [mbind outcome_bind bind].
        destruct (8 - (j + (Z.of_nat (length (h :: t')) - j - 1 - 1)) <? 1); [done|].
        cbn [mbind outcome_bind bind]. by apply Hraise.
      * cbn [mbind outcome_bind bind].
        destruct (8 - (j + (Z.of_nat (length (h :: t')) - j - 1)) <? 1); [done|].
        cbn [mbind outcome_bind bind]. by apply Hraise.
    + destruct (negb (Z.of_nat (length (h :: t')) =? 8)) eqn:E8; [done|].
      destruct (String.eqb (List.last (h :: t') "") ""); [done|].
      cbn [mbind outcome_bind bind]. apply Hraise.
      apply negb_false_iff, Z.eqb_eq in E8. lia.
Qed.

Lemma append_assoc (a b c : string) : (a +:+ b) +:+ c = a +:+ (b +:+ c).
Proof.
  induction a as [|x a IH]; [done|].
  change (String x ((a +:+ b) +:+ c) = String x (a +:+ (b +:+ c))).
  by rewrite IH.
Qed.

Lemma raised_bind {A B : Type} (m : outcome A) (k : A → outcome B) :
  raised m → raised (x ← m; k x).
Proof. by destruct m. Qed.

Lemma IPv6Address_dotted s : dotted_head s → raised (IPv6Address s).
Proof.
  intros Hd. unfold IPv6Address.
  destruct (contains "/" s); [done|].
  destruct (dotted_head_split "%" s) as (h & t & Hs & Hh); [done..|].
  destruct (dotted_head_split ":" h) as (h' & t' & Hs' & Hh'); [done..|].
  assert (Hr : raised (v6_ip_int_from_string h)).
  { eapply v6_ip_int_from_string_head; [exact Hs'| |].
    - by apply dotted_head_not_empty.
    - by apply dotted_head_not_hex. }
  unfold split_scope_id. rewrite Hs.
  destruct t as [|scope [|? ?]]; [| |done].
  - cbn [mbind outcome_bind bind]. by apply raised_bind.
  - destruct (String.eqb scope ""); [done|].
    cbn [mbind outcome_bind bind]. by apply raised_bind.
Qed.

Lemma ip_network_class_v6_dotted s :
  dotted_head s → raised (ip_network_class IPv6 s).
Proof.
  intros Hd. unfold ip_network_class, split_addr_prefix.
  destruct (dotted_head_split "/" s) as (h & t & Hs & Hh); [done..|].
  rewrite Hs.
  destruct (2 <? length (h :: t))%nat; [done|].
  pose proof (IPv6Address_dotted h Hh) as Hr.
  destruct t as [|m [|? ?]]; cbn [mbind outcome_bind bind address_class];
    by apply raised_bind.
Qed.

Lemma ip_network_class_version v s net :
  ip_network_class v s = Ret net → net_version net = v.
Proof.
  unfold ip_network_class. intros Hn.
  destruct (split_addr_prefix s) as [[addr mask]|]; [|done].
  cbn [mbind outcome_bind bind] in Hn.
  destruct (address_class v addr) as [na|] eqn:Ea; [|done].
  cbn [mbind outcome_bind bind] in Hn.
  destruct (make_netmask v mask) as [[nm pl]|]; [|done].
  cbn [mbind outcome_bind bind] in Hn.
  destruct (negb (Z.land (ip_int na) nm =? ip_int na)); [done|].
  inversion Hn; subst. unfold net_version. cbn [network_address].
  destruct v; cbn [address_class] in Ea.
  - by apply IPv4Address_version in Ea.
  - unfold IPv6Address in Ea.
    destruct (contains "/" addr); [done|].
    destruct (split_scope_id addr) as [[a sc]|]; [|done].
    cbn [mbind outcome_bind bind] in Ea.
    destruct (v6_ip_int_from_string a); [|done].
    by inversion Ea.
Qed.

(** A prefix text that starts with digits and a dot is an IPv4 network or
    no network at all. *)
Lemma ip_network_dotted s net :
  dotted_head s → ip_network s = Ret net → net_version net = IPv4.
Proof.
  intros Hd. unfold ip_network.
  destruct (ip_network_class IPv4 s) as [n|e] eqn:E4.
  - intros Hn. inversion Hn; subst. by apply ip_network_class_version in E4.
  - destruct (is_address_or_netmask_error e); [|done].
    pose proof (ip_network_class_v6_dotted s Hd) as Hr.
    destruct (ip_network_class IPv6 s) as [n|e']; [done|].
    by destruct (is_address_or_netmask_error e').
Qed.

(** Every text that starts with the coarse key of an IPv4 address starts
    with digits and a dot. *)
Lemma v4partial_dotted v4 a key text :
  IPv4Address v4 = Ret a → v4partial v4 = Ret key →
  startswith key text = true → dotted_head text.
Proof.
  intros Ha Hk Hs.
  destruct (v4partial_of_address v4 a Ha) as (o0 & o1 & rest & _ & Hd & Hk').
  rewrite Hk' in Hk. inversion Hk; subst key.
  apply startswith_app in Hs as [r ->].
  exists o0, (o1 +:+ r). split; [done|].
  by rewrite !append_assoc.
Qed.

(* ===================================================================== *)
(** * The candidate loop *)

(** The loop stops at the first candidate that contains [vnet]. *)
Lemma find_supernet_first vnet pre p post x net :
  Forall (passed_over vnet) pre →
  ip_network (ixpfx_prefix p) = Ret net →
  subnet_of vnet net = Ret true →
  find_supernet vnet (pre ++ p :: post) x = Ret (Some p).
Proof.
  intros Hpre Hp Hsub. revert x.
  induction pre as [|q pre IH]; intros x; cbn [app find_supernet].
  - rewrite Hp. cbn [mbind outcome_bind bind]. by rewrite Hsub.
  - inversion Hpre as [|? ? Hq Hrest]; subst.
    destruct Hq as [Hq|(n & Hq & Hn)].
    + destruct (ip_network (ixpfx_prefix q)); [done|]. by apply IH.
    + rewrite Hq. cbn [mbind outcome_bind bind]. rewrite Hn.
      cbn [mbind outcome_bind bind]. by apply IH.
Qed.

(** When the loop passes over every candidate, the variable [ixpfx] is left
    bound to the last candidate. *)
Lemma find_supernet_exhausted vnet cands x :
  Forall (passed_over vnet) cands →
  find_supernet vnet cands x = Ret (match last cands with
                                    | Some q => Some q
                                    | None => x
                                    end).
Proof.
  intros Hall. revert x.
  induction cands as [|q cands IH]; intros x; [done|].
  inversion Hall as [|? ? Hq Hrest]; subst.
  assert (Hlast : match last (q :: cands) with Some q' => Some q' | None => x end
                  = match last cands with Some q' => Some q' | None => Some q end).
  { destruct cands as [|q2 cands]; [done|].
    rewrite last_cons_cons.
    destruct (last (q2 :: cands)) eqn:El; [done|]. by apply last_None in El. }
  rewrite Hlast. cbn [find_supernet].
  destruct Hq as [Hq|(n & Hq & Hn)].
  - destruct (ip_network (ixpfx_prefix q)); [done|]. by apply IH.
  - rewrite Hq. cbn [mbind outcome_bind bind]. rewrite Hn.
    cbn [mbind outcome_bind bind]. by apply IH.
Qed.

(** With an IPv4 address, a candidate whose text starts with digits and a
    dot and that is no supernet of the address is passed over: the
    containment test cannot raise. *)
Lemma passed_over_v4 a q :
  version a = IPv4 →
  dotted_head (ixpfx_prefix q) →
  ¬ is_supernet q a →
  passed_over (host_network a) q.
Proof.
  intros Hv Hd Hn. unfold passed_over.
  destruct (ip_network (ixpfx_prefix q)) as [n|e] eqn:En; [right|by left].
  exists n. split; [done|].
  pose proof (ip_network_dotted _ _ Hd En) as Hvn.
  unfold subnet_of.
  replace (net_version (host_network a)) with IPv4 by (by rewrite <- Hv).
  rewrite Hvn. cbn [ip_version_eqb negb].
  destruct (addr_le (network_address n) (network_address (host_network a))
            && addr_ge (broadcast_address n) (broadcast_address (host_network a)))
    eqn:Eb; [|done].
  exfalso. apply Hn. exists n. split; [done|].
  unfold subnet_of.
  replace (net_version (host_network a)) with IPv4 by (by rewrite <- Hv).
  rewrite Hvn. cbn [ip_version_eqb negb]. by rewrite Eb.
Qed.

(** [getixp_by_ipv4] up to the end of its loop. *)
Lemma getixp_by_ipv4_unfold `{Pdb} v4 a key cands r :
  IPv4Address v4 = Ret a →
  v4partial v4 = Ret key →
  data (getixpfxlist_by_partial key) = Some cands →
  find_supernet (host_network a) cands None = Ret r →
  getixp_by_ipv4 v4 = match r with
                      | None => Ret None
                      | Some ixpfx => getixp_by_ixpfx ixpfx
                      end.
Proof.
  intros Ha Hk Hd Hf. unfold getixp_by_ipv4.
  rewrite (ip_network_host_v4 v4 a Ha). cbn [mbind outcome_bind bind].
  rewrite Hk. cbn [mbind outcome_bind bind].
  unfold getitem_data. rewrite Hd. cbn [mbind outcome_bind bind].
  rewrite Hf. done.
Qed.

(** What [getixp_by_ipv4] does when no candidate contains the address: it
    resolves the last candidate. *)
Lemma getixp_by_ipv4_exhausted `{Pdb} v4 a key cands q :
  IPv4Address v4 = Ret a →
  v4partial v4 = Ret key →
  data (getixpfxlist_by_partial key) = Some cands →
  Forall (fun c => startswith key (ixpfx_prefix c) = true) cands →
  Forall (fun c => ¬ is_supernet c a) cands →
  last cands = Some q →
  getixp_by_ipv4 v4 = getixp_by_ixpfx q.
Proof.
  intros Ha Hk Hd Hstart Hnone Hlast.
  rewrite (getixp_by_ipv4_unfold v4 a key cands (Some q)); [done..|].
  rewrite find_supernet_exhausted, Hlast; [done|].
  apply Forall_forall. intros c Hc.
  rewrite Forall_forall in Hstart, Hnone.
  apply passed_over_v4; [by eapply IPv4Address_version| |by apply Hnone].
  eapply v4partial_dotted; [done..|by apply Hstart].
Qed.

(* ===================================================================== *)
(** * The resolver *)

(** C2. When the candidates the coarse query returns hold a supernet of
    the address, [getixp_by_ipv4] returns the exchange point reached from
    the first supernet in the order of the reply, whatever follows it, a
    longer match included. The candidates ahead of it start with the
    coarse key, as the query asks. *)
Theorem getixp_by_ipv4_first_match `{Pdb} (v4 key : string) (a : ip_addr)
    (pre post : list Ixpfx) (p : Ixpfx) :
  IPv4Address v4 = Ret a →
  v4partial v4 = Ret key →
  data (getixpfxlist_by_partial key) = Some (pre ++ p :: post) →
  Forall (fun q => startswith key (ixpfx_prefix q) = true) pre →
  Forall (fun q => ¬ is_supernet q a) pre →
  is_supernet p a →
  getixp_by_ipv4 v4 = getixp_by_ixpfx p.
Proof.
  intros Ha Hk Hd Hstart Hnone (net & Hp & Hsub).
  rewrite (getixp_by_ipv4_unfold v4 a key (pre ++ p :: post) (Some p)); [done..|].
  eapply find_supernet_first; [|done..].
  apply Forall_forall. intros c Hc.
  rewrite Forall_forall in Hstart, Hnone.
  apply passed_over_v4; [by eapply IPv4Address_version| |by apply Hnone].
  eapply v4partial_dotted; [done..|by apply Hstart].
Qed.

Lemma getixp_by_ipv4_first_match_witness :
  @getixp_by_ipv4 (memory_pdb dir_overlap) "198.51.100.7" = Ret (Some ix_b).
Proof.
  eapply eq_trans.
  - apply (getixp_by_ipv4_first_match (H := memory_pdb dir_overlap)
             "198.51.100.7" "198.51" addr_198_51_100_7 [pfx_other] [pfx_24] pfx_16).
    + vm_compute; reflexivity.
    + vm_compute; reflexivity.
    + vm_compute; reflexivity.
    + constructor; [reflexivity|constructor].
    + constructor; [|constructor]. intros (net & Hn & Hs).
      vm_compute in Hn. inversion Hn; subst net.
      vm_compute in Hs. discriminate Hs.
    + exists (IpNet (IpAddr IPv4 3325231104 None) 4294901760 16).
      split; vm_compute; reflexivity.
  - vm_compute; reflexivity.
Defined.

(* ===================================================================== *)
(** * The range of a parsed IPv6 address *)

Lemma log2_lt_of_lt_pow2 x n : 0 < n → 0 ≤ x < 2 ^ n → Z.log2 x < n.
Proof.
  intros Hn Hx. destruct (Z.eq_dec x 0) as [->|]; [simpl; lia|].
  apply Z.log2_lt_pow2; lia.
Qed.

Lemma lor_bound a b n :
  0 ≤ n → 0 ≤ a < 2 ^ n → 0 ≤ b < 2 ^ n → 0 ≤ Z.lor a b < 2 ^ n.
Proof.
  intros Hn Ha Hb.
  assert (H0 : 0 ≤ Z.lor a b) by (apply Z.lor_nonneg; lia).
  split; [done|].
  destruct (Z.eq_dec n 0) as [->|Hn0].
  - change (2 ^ 0) with 1 in *.
    assert (a = 0) as -> by lia. assert (b = 0) as -> by lia. reflexivity.
  - destruct (Z.eq_dec (Z.lor a b) 0) as [->|Hne]; [lia|].
    apply Z.log2_lt_pow2; [lia|].
    rewrite Z.log2_lor by lia.
    apply Z.max_lub_lt; apply log2_lt_of_lt_pow2; lia.
Qed.

Lemma chars_length s : length (chars s) = String.length s.
Proof. induction s as [|c s IH]; [done|]. simpl. by rewrite <- IH. Qed.

Lemma parse_hextet_range p h : parse_hextet p = Ret h → 0 ≤ h < 2 ^ 16.
Proof.
  unfold parse_hextet. intros Hp.
  destruct (forallb is_hex_digit (chars p)) eqn:Hd; [|done]. cbn [negb] in Hp.
  destruct (Nat.ltb_spec 4 (String.length p)) as [|Hlen]; [done|].
  destruct (String.eqb p ""); [done|].
  inversion Hp; subst h. unfold int_of_digits.
  rewrite forallb_forall in Hd.
  pose proof (int_of_digits_bound 16 (chars p) 0 0) as Hb.
  destruct Hb as [Hb1 Hb2]; [lia| |simpl; lia|].
  { apply List.Forall_forall. intros c Hc.
    pose proof (digit_value_hex c (Hd c Hc)). lia. }
  split; [done|].
  eapply Z.lt_le_trans; [exact Hb2|].
  rewrite chars_length. simpl Nat.add.
  change (2 ^ 16) with (16 ^ 4).
  apply Z.pow_le_mono_r; lia.
Qed.

Lemma parse_hextets_range parts ip v k :
  0 ≤ k →
  parse_hextets parts ip = Ret v →
  0 ≤ ip < 2 ^ (16 * k) →
  0 ≤ v < 2 ^ (16 * (k + Z.of_nat (length parts))).
Proof.
  revert ip k. induction parts as [|p r IH]; intros ip k Hk Hp Hip.
  - simpl in Hp. inversion Hp; subst. simpl. by rewrite Z.add_0_r.
  - cbn [parse_hextets] in Hp.
    destruct (parse_hextet p) as [h|] eqn:Eh; [|done].
    cbn [mbind outcome_bind bind] in Hp.
    apply parse_hextet_range in Eh.
    replace (k + Z.of_nat (length (p :: r))) with ((k + 1) + Z.of_nat (length r))
      by (simpl length; lia).
    apply (IH (Z.lor (Z.shiftl ip 16) h) (k + 1)); [lia|done|].
    assert (Hpow : 2 ^ (16 * (k + 1)) = 2 ^ (16 * k) * 2 ^ 16).
    { rewrite <- Z.pow_add_r by lia. f_equal. lia. }
    apply lor_bound; [lia| |].
    + rewrite Z.shiftl_mul_pow2 by lia. rewrite Hpow. nia.
    + rewrite Hpow. nia.
Qed.

Lemma find_skip_index_range interior i j :
  find_skip_index interior i None = Ret (Some j) →
  i ≤ j < i + Z.of_nat (length interior).
Proof.
  assert (Hgen : ∀ interior i sk j,
            find_skip_index interior i sk = Ret (Some j) →
            sk = Some j ∨ i ≤ j < i + Z.of_nat (length interior)).
  { clear. intros interior.
    induction interior as [|p r IH]; intros i sk j Hf; simpl in Hf.
    - left. by inversion Hf.
    - destruct (String.eqb p "").
      + destruct sk; [done|]. apply IH in Hf as [Hf|Hf].
        * inversion Hf; subst. right. simpl length. lia.
        * right. simpl length. lia.
      + apply IH in Hf as [Hf|Hf]; [by left|right; simpl length; lia]. }
  intros Hf. by destruct (Hgen _ _ _ _ Hf).
Qed.

Lemma removelast_tail_length {A : Type} (l : list A) :
  (3 ≤ length l)%nat → length (removelast (tail l)) = (length l - 2)%nat.
Proof.
  intros Hl. destruct l as [|x l]; [simpl in Hl; lia|]. simpl tail.
  destruct l as [|y l] using rev_ind; [simpl in Hl; lia|].
  rewrite removelast_last. simpl. rewrite length_app. simpl. lia.
Qed.

(** The two hextet loops of [_ip_int_from_string] give a 128-bit value. *)
Lemma hextet_loops_range parts hi lo skipped v :
  0 ≤ hi → 0 ≤ lo ≤ Z.of_nat (length parts) → 0 ≤ skipped →
  hi + skipped + lo ≤ 8 →
  (h ← parse_hextets (take (Z.to_nat hi) parts) 0;
   parse_hextets (drop (Z.to_nat (Z.of_nat (length parts) - lo)) parts)
     (Z.shiftl h (16 * skipped))) = Ret v →
  0 ≤ v < 2 ^ 128.
Proof.
  intros Hhi Hlo Hsk Hsum Hp.
  destruct (parse_hextets (take (Z.to_nat hi) parts) 0) as [h|] eqn:E1; [|done].
  cbn [mbind outcome_bind bind] in Hp.
  apply (parse_hextets_range _ _ _ 0) in E1; [|lia|simpl; lia].
  set (len1 := Z.of_nat (length (take (Z.to_nat hi) parts))) in *.
  assert (Hlen1 : 0 ≤ len1 ≤ hi).
  { unfold len1. rewrite length_take. lia. }
  apply (parse_hextets_range _ _ _ (len1 + skipped)) in Hp; [|lia|].
  - destruct Hp as [Hv1 Hv2]. split; [done|].
    eapply Z.lt_le_trans; [exact Hv2|].
    change 128 with (16 * 8).
    apply Z.pow_le_mono_r; [lia|].
    rewrite length_drop. lia.
  - rewrite Z.shiftl_mul_pow2 by lia.
    replace (16 * (len1 + skipped)) with (16 * (0 + len1) + 16 * skipped) by lia.
    rewrite Z.pow_add_r by lia.
    assert (0 < 2 ^ (16 * skipped)) by (apply Z.pow_pos_nonneg; lia).
    nia.
Qed.

Lemma v6_ip_int_from_string_range s n :
  v6_ip_int_from_string s = Ret n → 0 ≤ n < 2 ^ 128.
Proof.
  unfold v6_ip_int_from_string. intros Hp.
  destruct (String.eqb s ""); [done|].
  destruct (Nat.ltb_spec (length (split ":" s)) 3) as [|Hlen]; [done|].
  set (parts0 := split ":" s) in *.
  destruct (if contains "." (List.last parts0 "")
            then match IPv4Address (List.last parts0 "") with
                 | Ret a =>
                     Ret (removelast parts0 ++
                            [pct_x (Z.land (Z.shiftr (ip_int a) 16) 65535);
                             pct_x (Z.land (ip_int a) 65535)])
                 | Raise _ => Raise AddressValueError
                 end
            else Ret parts0) as [parts|] eqn:Eparts; [|done].
  assert (Hlen' : (3 ≤ length parts)%nat).
  { destruct (contains "." (List.last parts0 "")).
    - destruct (IPv4Address (List.last parts0 "")); [|done].
      inversion Eparts; subst parts. rewrite length_app. simpl length.
      destruct parts0 as [|x l] using rev_ind; [simpl in Hlen; lia|].
      rewrite removelast_last. rewrite length_app in Hlen. simpl in Hlen. lia.
    - by inversion Eparts; subst. }
  clearbody parts0. clear Eparts Hlen parts0.
  cbn [mbind outcome_bind bind] in Hp. cbv zeta in Hp.
  set (len := Z.of_nat (length parts)) in *.
  destruct (9 <? len); [done|].
  destruct (find_skip_index (removelast (tail parts)) 1 None) as [sk|] eqn:Esk; [|done].
  cbn [mbind outcome_bind bind] in Hp.
  assert (Hfinal : ∀ hi lo skipped,
            0 ≤ hi → 0 ≤ lo ≤ len → 0 ≤ skipped → hi + skipped + lo ≤ 8 →
            match
              (h ← parse_hextets (take (Z.to_nat hi) parts) 0;
               parse_hextets (drop (Z.to_nat (len - lo)) parts)
                 (Z.shiftl h (16 * skipped)))
            with
            | Ret v => Ret v
            | Raise _ => Raise AddressValueError
            end = Ret n → 0 ≤ n < 2 ^ 128).
  { intros hi lo skipped H1 H2 H3 H4 Hm.
    apply (hextet_loops_range parts hi lo skipped); [done..|]. fold len.
    destruct (h ← parse_hextets (take (Z.to_nat hi) parts) 0;
              parse_hextets (drop (Z.to_nat (len - lo)) parts)
                (Z.shiftl h (16 * skipped))); [exact Hm|discriminate Hm]. }
  destruct sk as [j|].
  - apply find_skip_index_range in Esk.
    rewrite removelast_tail_length in Esk by done.
    assert (Hj : 1 ≤ j < len - 1) by (unfold len; lia).
    destruct (String.eqb (List.hd "" parts) "").
    + destruct (Z.eqb_spec (j - 1) 0) as [Hj0|]; [|done].
      cbn [negb mbind outcome_bind bind] in Hp.
      destruct (String.eqb (List.last parts "") "").
      * destruct (Z.eqb_spec (len - j - 1 - 1) 0) as [Hl0|]; [|done].
        cbn [negb mbind outcome_bind bind] in Hp.
        destruct (Z.ltb_spec (8 - (j - 1 + (len - j - 1 - 1))) 1); [done|].
        cbn [mbind outcome_bind bind] in Hp.
        apply Hfinal in Hp; [done|lia..].
      * cbn [mbind outcome_bind bind] in Hp.
        destruct (Z.ltb_spec (8 - (j - 1 + (len - j - 1))) 1); [done|].
        cbn [mbind outcome_bind bind] in Hp.
        apply Hfinal in Hp; [done|lia..].
    + cbn [mbind outcome_bind bind] in Hp.
      destruct (String.eqb (List.last parts "") "").
      * destruct (Z.eqb_spec (len - j - 1 - 1) 0) as [Hl0|]; [|done].
        cbn [negb mbind outcome_bind bind] in Hp.
        destruct (Z.ltb_spec (8 - (j + (len - j - 1 - 1))) 1); [done|].
        cbn [mbind outcome_bind bind] in Hp.
        apply Hfinal in Hp; [done|lia..].
      * cbn [mbind outcome_bind bind] in Hp.
        destruct (Z.ltb_spec (8 - (j + (len - j - 1))) 1); [done|].
        cbn [mbind outcome_bind bind] in Hp.
        apply Hfinal in Hp; [done|lia..].
  - destruct (Z.eqb_spec len 8) as [H8|]; [|done]. cbn [negb] in Hp.
    destruct (String.eqb (List.hd "" parts) ""); [done|].
    destruct (String.eqb (List.last parts "") ""); [done|].
    cbn [mbind outcome_bind bind] in Hp.
    apply Hfinal in Hp; [done|lia..].
Qed.

Lemma IPv6Address_inv v6 a :
  IPv6Address v6 = Ret a →
  contains "/" v6 = false ∧ version a = IPv6 ∧ 0 ≤ ip_int a < 2 ^ 128.
Proof.
  unfold IPv6Address. intros Ha.
  destruct (contains "/" v6); [done|]. split; [done|].
  destruct (split_scope_id v6) as [[addr sc]|]; [|done].
  cbn [mbind outcome_bind bind] in Ha.
  destruct (v6_ip_int_from_string addr) as [n|] eqn:En; [|done].
  cbn [mbind outcome_bind bind] in Ha. inversion Ha; subst a.
  split; [done|]. by apply v6_ip_int_from_string_range in En.
Qed.

(** What [ip_address] returned tells which class accepted the text. *)
Lemma ip_address_inv s a :
  ip_address s = Ret a →
  (version a = IPv4 ∧ IPv4Address s = Ret a) ∨
  (version a = IPv6 ∧ IPv4Address s = Raise AddressValueError ∧ IPv6Address s = Ret a).
Proof.
  unfold ip_address. intros Ha.
  destruct (IPv4Address s) as [a4|e] eqn:E4.
  - inversion Ha; subst. left. split; [|done]. by eapply IPv4Address_version.
  - pose proof (IPv4Address_raises _ _ E4) as ->. cbn in Ha.
    destruct (IPv6Address s) as [a6|e'] eqn:E6.
    + inversion Ha; subst. right.
      by destruct (IPv6Address_inv _ _ E6) as (_ & Hv & _).
    + by destruct (is_address_or_netmask_error e').
Qed.

(** The text of an IPv6 address followed by ["/128"] is its single-address
    network. *)
Lemma ip_network_host_v6 v6 a :
  IPv4Address v6 = Raise AddressValueError →
  IPv6Address v6 = Ret a →
  ip_network (v6 +:+ "/128") = Ret (host_network a).
Proof.
  intros H4 H6.
  destruct (IPv6Address_inv v6 a H6) as (Hs & Hv & Hr).
  unfold ip_network, ip_network_class, split_addr_prefix.
  change (v6 +:+ "/128") with (v6 +:+ String "/" "128").
  rewrite split_app_sep by done.
  change (split "/" "128") with ["128"%string]. cbn [length Nat.ltb Nat.leb].
  cbn [mbind outcome_bind bind address_class]. rewrite H4, H6.
  cbn [mbind outcome_bind bind is_address_or_netmask_error].
  change (make_netmask IPv6 (Some "128"%string)) with (Ret (2 ^ 128 - 1, 128)).
  cbn [mbind outcome_bind bind].
  rewrite land_all_ones by lia. rewrite Z.eqb_refl. cbn [negb].
  unfold host_network. rewrite Hv. done.
Qed.

(** [getixp_by_ipv6] up to the end of its loop. *)
Lemma getixp_by_ipv6_unfold `{Pdb} v6 a v6full cands r :
  IPv4Address v6 = Raise AddressValueError →
  IPv6Address v6 = Ret a →
  exploded a = Ret v6full →
  data (getixpfxlist_by_partial (v6partial v6full)) = Some cands →
  find_supernet (host_network a) cands None = Ret r →
  getixp_by_ipv6 v6 = match r with
                      | None => Ret None
                      | Some ixpfx => getixp_by_ixpfx ixpfx
                      end.
Proof.
  intros H4 H6 He Hd Hf. unfold getixp_by_ipv6.
  rewrite (ip_network_host_v6 v6 a H4 H6). cbn [mbind outcome_bind bind].
  unfold ip_address. rewrite H4, H6.
  cbn [mbind outcome_bind bind is_address_or_netmask_error].
  rewrite He. cbn [mbind outcome_bind bind].
  unfold getitem_data. rewrite Hd. cbn [mbind outcome_bind bind].
  rewrite Hf. done.
Qed.

(* ===================================================================== *)
(** * The resolver on a directory *)

(** A valid candidate of the family of the address that does not contain
    it is passed over. *)
Lemma passed_over_valid a q :
  valid_for q a → ¬ is_supernet q a → passed_over (host_network a) q.
Proof.
  intros (n & Hq & Hv) Hn. right. exists n. split; [done|].
  assert (Hsub : ∃ b, subnet_of (host_network a) n = Ret b).
  { unfold subnet_of.
    replace (net_version (host_network a)) with (version a) by done.
    rewrite Hv. destruct (version a); cbn [ip_version_eqb negb]; by eexists. }
  destruct Hsub as [[|] Hb]; [|done].
  exfalso. apply Hn. by exists n.
Qed.

(** The loop on a reply in which exactly one candidate contains the
    address and the others are valid. *)
Lemma find_supernet_unique a cands p :
  p ∈ cands →
  (∀ q, q ∈ cands → valid_for q a) →
  is_supernet p a →
  (∀ q, q ∈ cands → is_supernet q a → q = p) →
  find_supernet (host_network a) cands None = Ret (Some p).
Proof.
  intros Hin Hvalid (net & Hp & Hsub) Huniq.
  apply list_elem_of_split_l in Hin as (pre & post & -> & Hnotin).
  eapply find_supernet_first; [|done..].
  apply Forall_forall. intros q Hq.
  apply passed_over_valid.
  - apply Hvalid. apply elem_of_app. by left.
  - intros Hs. apply Hnotin.
    rewrite <- (Huniq q); [done| |done]. apply elem_of_app. by left.
Qed.

Lemma memory_candidates d key :
  data (@getixpfxlist_by_partial (memory_pdb d) key)
  = Some (List.filter (fun p => startswith key (ixpfx_prefix p)) (dir_ixpfx d)).
Proof. reflexivity. Qed.

Lemma elem_of_filter_startswith key (l : list Ixpfx) q :
  q ∈ List.filter (fun p => startswith key (ixpfx_prefix p)) l
  ↔ q ∈ l ∧ startswith key (ixpfx_prefix q) = true.
Proof. rewrite !list_elem_of_In. apply List.filter_In. Qed.

(** C1 (failing inputs). With the one candidate [198.51.100.0/24], which
    does not contain [198.51.101.7], the loop leaves [ixpfx] bound to that
    candidate and [getixp_by_ipv4], so [getixp_by_ip] too, returns its
    exchange point where not-found is expected. [getixp_by_ipv6] does the
    same with the candidate [2001:7f8:10::/48] and the address
    [2001:7f8:1::1:5], whose coarse key is ["2001:7f8:1"]. *)
Theorem getixp_no_match_returns_candidate :
  (IPv4Address "198.51.101.7" = Ret addr_198_51_101_7 ∧
   data (@getixpfxlist_by_partial (memory_pdb dir_one_prefix) "198.51") = Some [pfx_24] ∧
   ¬ is_supernet pfx_24 addr_198_51_101_7 ∧
   @getixp_by_ipv4 (memory_pdb dir_one_prefix) "198.51.101.7" = Ret (Some ix_a) ∧
   @getixp_by_ip (memory_pdb dir_one_prefix) "198.51.101.7" = Ret (Some ix_a))
  ∧
  (ip_address "2001:7f8:1:0:0:0:1:5" = Ret addr_2001_7f8_1__1_5 ∧
   v6key "2001:7f8:1:0:0:0:1:5" = Ret "2001:7f8:1"%string ∧
   data (@getixpfxlist_by_partial (memory_pdb dir_v6) "2001:7f8:1") = Some [pfx_v6] ∧
   ¬ is_supernet pfx_v6 addr_2001_7f8_1__1_5 ∧
   @getixp_by_ipv6 (memory_pdb dir_v6) "2001:7f8:1:0:0:0:1:5" = Ret (Some ix_c) ∧
   @getixp_by_ip (memory_pdb dir_v6) "2001:7f8:1:0:0:0:1:5" = Ret (Some ix_c)).
Proof.
  split.
  - split; [vm_compute; reflexivity|].
    split; [vm_compute; reflexivity|].
    split; [|split; vm_compute; reflexivity].
    intros (net & Hn & Hs).
    vm_compute in Hn. inversion Hn; subst net.
    vm_compute in Hs. discriminate Hs.
  - split; [vm_compute; reflexivity|].
    split; [vm_compute; reflexivity|].
    split; [vm_compute; reflexivity|].
    split; [|split; vm_compute; reflexivity].
    intros (net & Hn & Hs).
    vm_compute in Hn. inversion Hn; subst net.
    vm_compute in Hs. discriminate Hs.
Qed.

(** C4 (failing inputs). The one candidate [198.51.100.0/x] is no
    network; the loop passes over it, leaves [ixpfx] bound to it, and
    [getixp_by_ipv4] returns its exchange point as the match. The candidate
    [10.0.0.0/8] is no IPv6 network; for the address [10::1], whose coarse
    key is ["10"], the containment test on it raises TypeError outside the
    [try], and the call fails. *)
Theorem getixp_malformed_candidate :
  (raised (ip_network (ixpfx_prefix pfx_malformed)) ∧
   data (@getixpfxlist_by_partial (memory_pdb dir_malformed) "198.51") = Some [pfx_malformed] ∧
   @getixp_by_ipv4 (memory_pdb dir_malformed) "198.51.7.7" = Ret (Some ix_a) ∧
   @getixp_by_ip (memory_pdb dir_malformed) "198.51.7.7" = Ret (Some ix_a))
  ∧
  (raised (ip_network_class IPv6 (ixpfx_prefix pfx_8)) ∧
   v6key "10:0:0:0:0:0:0:1" = Ret "10"%string ∧
   data (@getixpfxlist_by_partial (memory_pdb dir_short_prefix) "10") = Some [pfx_8] ∧
   @getixp_by_ipv6 (memory_pdb dir_short_prefix) "10:0:0:0:0:0:0:1" = Raise TypeError ∧
   @getixp_by_ip (memory_pdb dir_short_prefix) "10:0:0:0:0:0:0:1" = Raise TypeError).
Proof.
  split.
  - split; [by vm_compute|].
    split; [vm_compute; reflexivity|].
    split; vm_compute; reflexivity.
  - split; [by vm_compute|].
    split; [vm_compute; reflexivity|].
    split; [vm_compute; reflexivity|].
    split; vm_compute; reflexivity.
Qed.

(** C9. When the exchange-lan query of a prefix returns no record, or the
    exchange-point query of its first exchange-lan returns no record,
    [one_ixp_by_ixpfx] returns [None] and raises nothing; so do
    [getixp_by_ipv4] and [getixp_by_ipv6] when their loop has found that
    prefix. *)
Theorem broken_chain_not_found `{Pdb} (ixpfx : Ixpfx) :
  broken_chain ixpfx →
  one_ixp_by_ixpfx ixpfx = Ret None ∧
  (∀ v4 a key cands,
     IPv4Address v4 = Ret a →
     v4partial v4 = Ret key →
     data (getixpfxlist_by_partial key) = Some cands →
     find_supernet (host_network a) cands None = Ret (Some ixpfx) →
     getixp_by_ipv4 v4 = Ret None) ∧
  (∀ v6 a v6full cands,
     IPv4Address v6 = Raise AddressValueError →
     IPv6Address v6 = Ret a →
     exploded a = Ret v6full →
     data (getixpfxlist_by_partial (v6partial v6full)) = Some cands →
     find_supernet (host_network a) cands None = Ret (Some ixpfx) →
     getixp_by_ipv6 v6 = Ret None).
Proof.
  intros Hb.
  assert (Hone : one_ixp_by_ixpfx ixpfx = Ret None).
  { unfold one_ixp_by_ixpfx, getitem_data.
    destruct Hb as [Hl|(ixlan & rest & Hl & Hx)]; rewrite Hl.
    - done.
    - cbn [mbind outcome_bind bind length Nat.eqb getitem lookup list_lookup].
      rewrite Hx. done. }
  split; [done|]. split.
  - intros v4 a key cands Ha Hk Hd Hf.
    rewrite (getixp_by_ipv4_unfold v4 a key cands (Some ixpfx)); done.
  - intros v6 a v6full cands H4 H6 He Hd Hf.
    rewrite (getixp_by_ipv6_unfold v6 a v6full cands (Some ixpfx)); done.
Qed.

Lemma broken_chain_not_found_witness :
  @one_ixp_by_ixpfx (memory_pdb dir_no_lan) pfx_24 = Ret None ∧
  @one_ixp_by_ixpfx (memory_pdb dir_no_ix) pfx_24 = Ret None ∧
  @getixp_by_ipv4 (memory_pdb dir_no_ix) "198.51.100.7" = Ret None.
Proof.
  split; [|split].
  - apply (broken_chain_not_found (H := memory_pdb dir_no_lan) pfx_24).
    left. reflexivity.
  - apply (broken_chain_not_found (H := memory_pdb dir_no_ix) pfx_24).
    right. exists (MkIxlan 10 77), []. split; reflexivity.
  - apply (proj1 (proj2 (broken_chain_not_found (H := memory_pdb dir_no_ix) pfx_24
             (or_intror (ex_intro _ (MkIxlan 10 77)
                (ex_intro _ [] (conj eq_refl eq_refl))))))
             "198.51.100.7" addr_198_51_100_7 "198.51" [pfx_24]);
      vm_compute; reflexivity.
Defined.

(** The normaliser splits a [::]-compressed IPv6 text at every colon and
    gives the empty components a ["0"] each: the result has too few groups
    and [ip_address] refuses it. *)
Lemma getixp_by_ip_compressed_v6 :
  unexplode_ip "2001:de8:6::714:1" = "2001:de8:6:0:714:1"%string ∧
  @getixp_by_ip (memory_pdb dir_one_prefix) "2001:de8:6::714:1" = Raise ValueError.
Proof. split; vm_compute; reflexivity. Qed.

(** C3 (counterexample). The directory holds the one valid prefix
    [10.0.0.0/8], which contains [10.1.2.3] and whose chain leads to an
    exchange point; the coarse key ["10.1"] is no prefix of its text, the
    query returns nothing, and [getixp_by_ip] returns not-found. *)
Lemma getixp_by_ip_short_prefix_not_found :
  ip_address (unexplode_ip "10.1.2.3") = Ret addr_10_1_2_3 ∧
  dir_ixpfx dir_short_prefix = [pfx_8] ∧
  is_supernet pfx_8 addr_10_1_2_3 ∧
  @one_ixp_by_ixpfx (memory_pdb dir_short_prefix) pfx_8 = Ret (Some ix_a) ∧
  @getixp_by_ip (memory_pdb dir_short_prefix) "10.1.2.3" = Ret None ∧
  @getixp_by_ip (memory_pdb dir_short_prefix) "10.1.2.3"
    ≠ @one_ixp_by_ixpfx (memory_pdb dir_short_prefix) pfx_8.
Proof.
  split; [vm_compute; reflexivity|].
  split; [reflexivity|].
  split.
  { exists (IpNet (IpAddr IPv4 167772160 None) 4278190080 8).
    split; vm_compute; reflexivity. }
  split; [vm_compute; reflexivity|].
  split; [vm_compute; reflexivity|].
  vm_compute. discriminate.
Qed.

(** C3 (amended). Let the normalised text of the address parse, and let
    the directory hold a prefix [p] that contains the address and whose
    text starts with the coarse key of the address. If every prefix the
    coarse query returns is a valid prefix of the family of the address,
    and none but [p] contains the address, then [getixp_by_ip] returns the
    exchange point reached from [p] through its exchange-lan. *)
Theorem getixp_by_ip_unique_prefix (d : directory) (raw key : string)
    (a : ip_addr) (p : Ixpfx) :
  ip_address (unexplode_ip raw) = Ret a →
  coarse_key a (unexplode_ip raw) = Ret key →
  p ∈ dir_ixpfx d →
  startswith key (ixpfx_prefix p) = true →
  (∀ q, q ∈ dir_ixpfx d → startswith key (ixpfx_prefix q) = true → valid_for q a) →
  is_supernet p a →
  (∀ q, q ∈ dir_ixpfx d → is_supernet q a → q = p) →
  @getixp_by_ip (memory_pdb d) raw = @one_ixp_by_ixpfx (memory_pdb d) p.
Proof.
  intros Ha Hkey Hin Hstart Hvalid Hsup Huniq.
  set (cands := List.filter (fun q => startswith key (ixpfx_prefix q)) (dir_ixpfx d)).
  assert (Hfind : find_supernet (host_network a) cands None = Ret (Some p)).
  { apply find_supernet_unique; [|  |done|].
    - by apply elem_of_filter_startswith.
    - intros q Hq. apply elem_of_filter_startswith in Hq as [Hq1 Hq2]. by apply Hvalid.
    - intros q Hq. apply elem_of_filter_startswith in Hq as [Hq1 Hq2]. by apply Huniq. }
  unfold getixp_by_ip. rewrite Ha. cbn [mbind outcome_bind bind].
  unfold coarse_key in Hkey.
  destruct (ip_address_inv _ _ Ha) as [[Hv H4]|(Hv & H4 & H6)]; rewrite Hv in *.
  - rewrite (getixp_by_ipv4_unfold (H := memory_pdb d) _ a key cands (Some p));
      [done|done|done|apply memory_candidates|done].
  - destruct (exploded a) as [v6full|] eqn:He; [|done].
    cbn [mbind outcome_bind bind] in Hkey. inversion Hkey; subst key.
    rewrite (getixp_by_ipv6_unfold (H := memory_pdb d) _ a v6full cands (Some p));
      [done|done|done|done|apply memory_candidates|done].
Qed.

Lemma getixp_by_ip_unique_prefix_witness :
  @getixp_by_ip (memory_pdb dir_disjoint) "198.051.100.007" = Ret (Some ix_a).
Proof.
  eapply eq_trans.
  - apply (getixp_by_ip_unique_prefix dir_disjoint "198.051.100.007" "198.51"
             addr_198_51_100_7 pfx_24).
    + vm_compute; reflexivity.
    + vm_compute; reflexivity.
    + apply list_elem_of_In. right. left. reflexivity.
    + vm_compute; reflexivity.
    + intros q Hq _. apply list_elem_of_In in Hq.
      destruct Hq as [<-|[<-|[]]].
      * exists (IpNet (IpAddr IPv4 3325256448 None) 4294967040 24).
        split; vm_compute; reflexivity.
      * exists (IpNet (IpAddr IPv4 3325256704 None) 4294967040 24).
        split; vm_compute; reflexivity.
    + exists (IpNet (IpAddr IPv4 3325256704 None) 4294967040 24).
      split; vm_compute; reflexivity.
    + intros q Hq (net & Hn & Hs). apply list_elem_of_In in Hq.
      destruct Hq as [<-|[<-|[]]]; [|reflexivity].
      vm_compute in Hn. inversion Hn; subst net.
      vm_compute in Hs. discriminate Hs.
  - vm_compute; reflexivity.
Defined.

(* ===================================================================== *)
(** * The exploded text of an IPv6 address parses back *)

Lemma land_15 y : Z.land y 15 = y mod 16.
Proof. change 15 with (Z.ones 4). by rewrite Z.land_ones. Qed.

Lemma land_65535 y : Z.land y 65535 = y mod 2 ^ 16.
Proof. change 65535 with (Z.ones 16). by rewrite Z.land_ones. Qed.

Lemma hex_char_spec d :
  0 ≤ d < 16 → is_hex_digit (hex_char d) = true ∧ digit_value (hex_char d) = d.
Proof.
  intros Hd.
  assert (H : d = 0 ∨ d = 1 ∨ d = 2 ∨ d = 3 ∨ d = 4 ∨ d = 5 ∨ d = 6 ∨ d = 7 ∨
              d = 8 ∨ d = 9 ∨ d = 10 ∨ d = 11 ∨ d = 12 ∨ d = 13 ∨ d = 14 ∨ d = 15)
    by lia.
  repeat (destruct H as [->|H]; [split; reflexivity|]).
  subst. split; reflexivity.
Qed.

Lemma hex_char_nibble y :
  is_hex_digit (hex_char (Z.land y 15)) = true ∧
  digit_value (hex_char (Z.land y 15)) = y mod 16.
Proof.
  rewrite land_15. apply hex_char_spec. apply Z.mod_pos_bound. lia.
Qed.

Lemma hex_char_not c y :
  is_hex_digit c = false → Ascii.eqb (hex_char (Z.land y 15)) c = false.
Proof.
  intros Hc. destruct (Ascii.eqb_spec (hex_char (Z.land y 15)) c) as [E|]; [|done].
  destruct (hex_char_nibble y) as [Hh _]. congruence.
Qed.

Lemma hex4_contains c x : is_hex_digit c = false → contains c (hex4 x) = false.
Proof.
  intros Hc. unfold hex4. cbn [contains].
  by rewrite !hex_char_not.
Qed.

Lemma parse_hextet_hex4 x : 0 ≤ x < 65536 → parse_hextet (hex4 x) = Ret x.
Proof.
  intros Hx. unfold parse_hextet, hex4.
  cbn [chars String.list_ascii_of_string forallb].
  destruct (hex_char_nibble (Z.shiftr x 12)) as [H3 V3].
  destruct (hex_char_nibble (Z.shiftr x 8)) as [H2 V2].
  destruct (hex_char_nibble (Z.shiftr x 4)) as [H1 V1].
  destruct (hex_char_nibble x) as [H0 V0].
  rewrite H3, H2, H1, H0. cbn [andb negb String.length Nat.ltb Nat.leb String.eqb].
  f_equal. unfold int_of_digits.
  cbn [chars String.list_ascii_of_string fold_left].
  rewrite V3, V2, V1, V0.
  rewrite !Z.shiftr_div_pow2 by lia.
  change (2 ^ 12) with 4096. change (2 ^ 8) with 256. change (2 ^ 4) with 16.
  Z.div_mod_to_equations. lia.
Qed.

(** The groups of the exploded text, least significant last. *)
Lemma parse_hextets_descending n (k : nat) acc :
  0 ≤ n → 0 ≤ acc →
  parse_hextets
    (map (fun j => hex4 (Z.land (Z.shiftr n (16 * j)) 65535))
         (rev (map Z.of_nat (seq 0 k)))) acc
  = Ret (acc * 2 ^ (16 * Z.of_nat k) + n mod 2 ^ (16 * Z.of_nat k)).
Proof.
  intros Hn. revert acc.
  induction k as [|k IH]; intros acc Hacc.
  - simpl. f_equal. rewrite Z.mod_1_r. lia.
  - rewrite seq_S, map_app, rev_app_distr. cbn [map rev app Nat.add parse_hextets].
    rewrite land_65535.
    rewrite parse_hextet_hex4 by (apply Z.mod_pos_bound; lia).
    cbn [mbind outcome_bind bind].
    set (h := Z.shiftr n (16 * Z.of_nat k) mod 2 ^ 16).
    assert (Hh : 0 ≤ h < 2 ^ 16) by (apply Z.mod_pos_bound; lia).
    assert (Hlor : Z.lor (Z.shiftl acc 16) h = acc * 2 ^ 16 + h).
    { rewrite <- Z.shiftl_mul_pow2 by lia.
      symmetry. apply Z.add_nocarry_lor.
      apply Z.bits_inj'. intros i Hi.
      rewrite Z.land_spec, Z.bits_0.
      destruct (Z.lt_ge_cases i 16).
      - rewrite Z.shiftl_spec_low by done. done.
      - rewrite (Z.bits_above_log2 h i); [apply andb_false_r|lia|].
        destruct (Z.eq_dec h 0) as [->|]; [simpl; lia|].
        apply Z.lt_le_trans with 16; [|done].
        apply Z.log2_lt_pow2; lia. }
    rewrite Hlor, IH by lia. f_equal.
    rewrite Nat2Z.inj_succ.
    replace (16 * Z.succ (Z.of_nat k)) with (16 * Z.of_nat k + 16) by lia.
    rewrite (Z.pow_add_r 2 (16 * Z.of_nat k) 16) by lia.
    rewrite (Z.rem_mul_r n) by lia.
    unfold h. rewrite Z.shiftr_div_pow2 by lia. lia.
Qed.

Lemma parse_hextets_hextets n :
  0 ≤ n < 2 ^ 128 → parse_hextets (map hex4 (hextets n)) 0 = Ret n.
Proof.
  intros Hn.
  pose proof (parse_hextets_descending n 8 0) as Hd.
  rewrite Z.mod_small in Hd by (change (16 * Z.of_nat 8) with 128; lia).
  rewrite Z.mul_0_l, Z.add_0_l in Hd.
  unfold hextets. rewrite map_map. apply Hd; lia.
Qed.

Lemma contains_app c a b : contains c (a +:+ b) = contains c a || contains c b.
Proof.
  induction a as [|d a IH]; [done|].
  change (contains c (String d a +:+ b)) with (Ascii.eqb d c || contains c (a +:+ b)).
  rewrite IH. cbn [contains]. by rewrite orb_assoc.
Qed.

Lemma contains_join c sep parts :
  contains c sep = false →
  Forall (fun p => contains c p = false) parts →
  contains c (join sep parts) = false.
Proof.
  intros Hsep Hall. induction Hall as [|x r Hx Hr IH]; [done|].
  destruct r as [|y r]; [done|].
  change (join sep (x :: y :: r)) with (x +:+ sep +:+ join sep (y :: r)).
  by rewrite !contains_app, Hx, Hsep, IH.
Qed.

Lemma hex4_not_empty x : String.eqb (hex4 x) "" = false.
Proof. reflexivity. Qed.

(** The exploded text of a 128-bit address is accepted by [ip_address],
    which gives the address back. *)
Lemma ip_address_exploded n :
  0 ≤ n < 2 ^ 128 →
  ip_address (join ":" (map hex4 (hextets n))) = Ret (IpAddr IPv6 n None).
Proof.
  intros Hn.
  pose proof (parse_hextets_hextets n Hn) as Hparse.
  assert (Hlen : length (hextets n) = 8%nat) by reflexivity.
  destruct (hextets n) as [|h0 [|h1 [|h2 [|h3 [|h4 [|h5 [|h6 [|h7 [|? ?]]]]]]]]];
    try discriminate Hlen. clear Hlen.
  set (groups := map hex4 [h0; h1; h2; h3; h4; h5; h6; h7]) in *.
  set (text := join ":" groups).
  assert (Hno : ∀ c, is_hex_digit c = false →
                     Forall (fun g => contains c g = false) groups).
  { intros c Hc. apply Forall_map, Forall_forall. intros x _. by apply hex4_contains. }
  assert (Hnot : ∀ c, is_hex_digit c = false → c ≠ ":"%char → contains c text = false).
  { intros c Hc Hne. apply contains_join; [|by apply Hno].
    cbn [contains]. destruct (Ascii.eqb_spec ":" c); [congruence|done]. }
  assert (Hsplit : split ":" text = groups).
  { apply split_join; [done|]. by apply Hno. }
  assert (Hne : String.eqb text "" = false).
  { destruct (String.eqb_spec text "") as [E|]; [|done].
    rewrite E in Hsplit. discriminate Hsplit. }
  assert (H4 : IPv4Address text = Raise AddressValueError).
  { unfold IPv4Address. rewrite (Hnot "/"%char) by done.
    unfold v4_ip_int_from_string. rewrite Hne.
    by rewrite (split_no_sep "." text) by (by apply Hnot). }
  assert (H6 : IPv6Address text = Ret (IpAddr IPv6 n None)).
  { unfold IPv6Address. rewrite (Hnot "/"%char) by done.
    unfold split_scope_id. rewrite (split_no_sep "%" text) by (by apply Hnot).
    cbn [mbind outcome_bind bind].
    unfold v6_ip_int_from_string. rewrite Hne, Hsplit.
    clear Hno Hnot Hsplit Hne H4. subst text. unfold groups in *. clear groups.
    cbn [map] in *.
    cbn [length Nat.ltb Nat.leb List.last].
    rewrite hex4_contains by done.
    cbn [mbind outcome_bind bind]. cbv zeta.
    cbn [length tail removelast find_skip_index List.hd List.last].
    rewrite !hex4_not_empty.
    cbn [mbind outcome_bind bind negb].
    change (Z.of_nat 8) with 8.
    change (9 <? 8) with false. change (8 =? 8) with true.
    cbn [negb mbind outcome_bind bind].
    change (Z.to_nat 8) with 8%nat. change (Z.to_nat (8 - 0)) with 8%nat.
    rewrite take_ge by (simpl; lia).
    rewrite drop_ge by (simpl; lia).
    rewrite Hparse. cbn [mbind outcome_bind bind parse_hextets].
    change (16 * 0) with 0. by rewrite Z.shiftl_0_r. }
  unfold ip_address. by rewrite H4, H6.
Qed.

(* ===================================================================== *)
(** * The coarse key and the variants of an address text *)

(** [getixp_by_ipv6] up to the end of its loop stops at the first
    candidate that contains the address when the candidates ahead of it are
    passed over. *)
Lemma getixp_by_ipv6_first_match `{Pdb} v6 a v6full pre p post :
  IPv4Address v6 = Raise AddressValueError →
  IPv6Address v6 = Ret a →
  exploded a = Ret v6full →
  data (getixpfxlist_by_partial (v6partial v6full)) = Some (pre ++ p :: post) →
  Forall (passed_over (host_network a)) pre →
  is_supernet p a →
  getixp_by_ipv6 v6 = getixp_by_ixpfx p.
Proof.
  intros H4 H6 He Hd Hpre (net & Hp & Hsub).
  rewrite (getixp_by_ipv6_unfold v6 a v6full (pre ++ p :: post) (Some p)); [done..|].
  by eapply find_supernet_first.
Qed.

(** C8 (counterexample). ["198.051.100.007"] is a zero-padded variant of
    ["198.51.100.7"], and the first two components of the two texts give
    the keys ["198.051"] and ["198.51"]; in [getixp_by_ipv4] the padded
    text does not even pass [ip_network]. *)
Lemma v4partial_zero_padded_differs :
  zero_padded_variant "198.51.100.7" "198.051.100.007" ∧
  v4partial "198.51.100.7" = Ret "198.51"%string ∧
  v4partial "198.051.100.007" = Ret "198.051"%string ∧
  v4partial "198.051.100.007" ≠ v4partial "198.51.100.7" ∧
  raised (ip_network ("198.051.100.007" +:+ "/32")).
Proof.
  split.
  { split; [reflexivity|].
    change (split "." "198.51.100.7") with ["198"; "51"; "100"; "7"]%string.
    change (split "." "198.051.100.007") with ["198"; "051"; "100"; "007"]%string.
    constructor; [by exists 0%nat|].
    constructor; [by exists 1%nat|].
    constructor; [by exists 0%nat|].
    constructor; [by exists 2%nat|].
    constructor. }
  split; [reflexivity|]. split; [reflexivity|].
  split; [vm_compute; discriminate|by vm_compute].
Qed.

Lemma unexplode_ip_zero_padded s s' :
  zero_padded_variant s s' → unexplode_ip s' = unexplode_ip s.
Proof.
  intros [Hlen Hall].
  assert (Hlen' : length (split "." s') = 4%nat).
  { by rewrite <- (Forall2_length _ _ _ Hall). }
  rewrite !unexplode_ip_unfold. unfold unexplode_ip_spec.
  rewrite !decide_True by done. f_equal.
  clear Hlen Hlen'.
  induction Hall as [|c c' l l' [n ->] _ IH]; [done|].
  simpl. by rewrite strip_component_zeros, IH.
Qed.

(** The exploded text of an IPv6 address is a text of that address. *)
Lemma ip_address_of_exploded t a v6full :
  ip_address t = Ret a → version a = IPv6 → exploded a = Ret v6full →
  ip_address v6full = Ret a.
Proof.
  intros Ht Hv He.
  destruct (ip_address_inv t a Ht) as [[Hv4 _]|(_ & _ & H6)]; [congruence|].
  destruct (IPv6Address_inv t a H6) as (_ & _ & Hr).
  destruct a as [v n sc]. cbn [version ip_int] in *. subst v.
  unfold exploded in He. cbn [version scope_id ip_int] in He.
  destruct sc; [done|]. inversion He; subst v6full.
  by apply ip_address_exploded.
Qed.

(** C8 (amended). For IPv4 the coarse key of the normalised text, which is
    the text [getixp_by_ip] hands to [getixp_by_ipv4], is the same for
    every zero-padded variant of a dotted quad. For IPv6 [getixp_by_ipv6]
    computes the key from the parsed address: two texts that [ip_address]
    parses to the same address give the same key, and the exploded text of
    an address gives the key of every text of that address. *)
Theorem coarse_key_of_variants :
  (∀ s s' : string,
     zero_padded_variant s s' →
     v4partial (unexplode_ip s') = v4partial (unexplode_ip s)) ∧
  (∀ (t t' : string) (a : ip_addr),
     ip_address t = Ret a → ip_address t' = Ret a → v6key t' = v6key t) ∧
  (∀ (t v6full : string) (a : ip_addr),
     ip_address t = Ret a → version a = IPv6 → exploded a = Ret v6full →
     v6key v6full = v6key t).
Proof.
  split; [|split].
  - intros s s' Hv. by rewrite (unexplode_ip_zero_padded s s' Hv).
  - intros t t' a Ht Ht'. unfold v6key. by rewrite Ht, Ht'.
  - intros t v6full a Ht Hv He.
    pose proof (ip_address_of_exploded t a v6full Ht Hv He) as Hfull.
    unfold v6key. by rewrite Ht, Hfull.
Qed.

Lemma coarse_key_of_variants_witness :
  v4partial (unexplode_ip "198.051.100.007") = v4partial (unexplode_ip "198.51.100.7") ∧
  v6key "2001:de8:6:0:0:0:714:1" = v6key "2001:de8:6::714:1" ∧
  v6key "2001:0de8:0006:0000:0000:0000:0714:0001" = v6key "2001:de8:6::714:1".
Proof.
  split; [|split].
  - apply (proj1 coarse_key_of_variants "198.51.100.7" "198.051.100.007").
    split; [reflexivity|].
    change (split "." "198.51.100.7") with ["198"; "51"; "100"; "7"]%string.
    change (split "." "198.051.100.007") with ["198"; "051"; "100"; "007"]%string.
    constructor; [by exists 0%nat|].
    constructor; [by exists 1%nat|].
    constructor; [by exists 0%nat|].
    constructor; [by exists 2%nat|].
    constructor.
  - apply (proj1 (proj2 coarse_key_of_variants) "2001:de8:6::714:1"
             "2001:de8:6:0:0:0:714:1"
             (IpAddr IPv6 42540770214241647096509877216930430977 None));
      vm_compute; reflexivity.
  - apply (proj2 (proj2 coarse_key_of_variants) "2001:de8:6::714:1"
             "2001:0de8:0006:0000:0000:0000:0714:0001"
             (IpAddr IPv6 42540770214241647096509877216930430977 None));
      vm_compute; reflexivity.
Defined.

(* ===================================================================== *)
(** * The data of a reply *)

Lemma fold_left_snoc {A : Type} (d acc : list A) :
  fold_left (fun reslist o => reslist ++ [o]) d acc = acc ++ d.
Proof.
  revert acc. induction d as [|x d IH]; intros acc; simpl.
  - by rewrite app_nil_r.
  - by rewrite IH, <- app_assoc.
Qed.

Lemma all_data_objects_returns {A : Type} (obj : option (reply A)) :
  all_data_objects obj = Ret (match obj ≫= data with
                              | Some (x :: l) => Some (x :: l)
                              | _ => None
                              end).
Proof.
  destruct obj as [[[[|x l]|]]|]; try reflexivity.
  cbn. by rewrite (fold_left_snoc l [x]).
Qed.

Lemma first_data_object_returns {A : Type} (obj : option (reply A)) :
  first_data_object obj = Ret (match obj ≫= data with
                               | Some (x :: l) => Some x
                               | _ => None
                               end).
Proof. by destruct obj as [[[[|x l]|]]|]. Qed.

(** X1. [all_data_objects] and [first_data_object] raise nothing.
    [all_data_objects] returns the data list of the reply, element for
    element, when there is one and it is not empty, and [None] otherwise,
    never an empty list; [first_data_object] returns the head of what
    [all_data_objects] returns. *)
Theorem data_objects_agree {A : Type} (obj : option (reply A)) :
  ∃ r : option (list A),
    all_data_objects obj = Ret r ∧
    r = match obj ≫= data with
        | Some (x :: l) => Some (x :: l)
        | _ => None
        end ∧
    r ≠ Some [] ∧
    first_data_object obj = Ret (r ≫= head).
Proof.
  eexists. split; [apply all_data_objects_returns|]. split; [done|].
  rewrite first_data_object_returns.
  split; [by destruct obj as [[[[|x l]|]]|]|].
  by destruct obj as [[[[|x l]|]]|].
Qed.

(* ===================================================================== *)
(** * Removing from the list that is iterated over *)

Lemma list_remove_first_elem {A : Type} `{EqDecision A} (x : A) (l : list A) :
  x ∈ l →
  ∃ l', list_remove_first x l = Ret l' ∧
        length l = S (length l') ∧
        sublist l' l ∧
        ∀ keep : A → bool, keep x = false → List.filter keep l' = List.filter keep l.
Proof.
  induction l as [|y l IH]; intros Hin; [by apply elem_of_nil in Hin|].
  cbn [list_remove_first]. destruct (decide (y = x)) as [->|Hne].
  - exists l. split; [done|]. split; [done|]. split; [by apply sublist_cons|].
    intros keep Hk. simpl. by rewrite Hk.
  - apply elem_of_cons in Hin as [->|Hin]; [done|].
    destruct (IH Hin) as (l' & Hl' & Hlen & Hsub & Hf).
    rewrite Hl'. exists (y :: l'). split; [done|]. split; [simpl; lia|].
    split; [by apply sublist_skip|].
    intros keep Hk. simpl. by rewrite (Hf keep Hk).
Qed.

Lemma list_remove_first_length {A : Type} `{EqDecision A} (x : A) (l l' : list A) :
  list_remove_first x l = Ret l' → length l = S (length l').
Proof.
  revert l'. induction l as [|y l IH]; intros l' Hr; [done|].
  cbn [list_remove_first] in Hr. destruct (decide (y = x)).
  - by inversion Hr.
  - destruct (list_remove_first x l) as [l0|]; [|done].
    inversion Hr; subst. simpl. by rewrite (IH l0).
Qed.

Lemma list_remove_first_fresh {A : Type} `{EqDecision A} (x : A) (pre rest : list A) :
  x ∉ pre → list_remove_first x (pre ++ x :: rest) = Ret (pre ++ rest).
Proof.
  induction pre as [|y pre IH]; intros Hn; cbn [app list_remove_first].
  - by rewrite decide_True.
  - apply not_elem_of_cons in Hn as [Hne Hn].
    rewrite decide_False by done. by rewrite IH.
Qed.

Lemma filter_cons_eq {A : Type} (keep : A → bool) (x : A) (l : list A) :
  List.filter keep (x :: l) = if keep x then x :: List.filter keep l else List.filter keep l.
Proof. reflexivity. Qed.

Lemma skipping_filter_filter keep nets :
  skipping_filter keep nets = List.filter keep nets
  ↔ no_adjacent_unmatched keep nets = true.
Proof.
  remember (length nets) as n eqn:Hn. revert nets Hn.
  induction n as [n IH] using lt_wf_ind. intros nets Hn.
  destruct nets as [|x [|y r]].
  - done.
  - simpl. by destruct (keep x).
  - assert (IHy := IH (length (y :: r)) ltac:(subst; simpl; lia) (y :: r) eq_refl).
    assert (IHr := IH (length r) ltac:(subst; simpl; lia) r eq_refl).
    clear IH.
    change (no_adjacent_unmatched keep (x :: y :: r))
      with ((keep x || keep y) && no_adjacent_unmatched keep (y :: r)).
    rewrite (filter_cons_eq keep x).
    change (skipping_filter keep (x :: y :: r))
      with (if keep x then x :: skipping_filter keep (y :: r)
            else y :: skipping_filter keep r).
    destruct (keep x) eqn:Hx; cbn [orb andb].
    + rewrite <- IHy. split; [by inversion 1|by intros ->].
    + assert (Hr : keep y = true →
                   no_adjacent_unmatched keep (y :: r) = no_adjacent_unmatched keep r).
      { intros Hy. destruct r as [|z r]; [done|].
        change (no_adjacent_unmatched keep (y :: z :: r))
          with ((keep y || keep z) && no_adjacent_unmatched keep (z :: r)).
        by rewrite Hy. }
      rewrite (filter_cons_eq keep y).
      destruct (keep y) eqn:Hy.
      * cbn [orb andb]. rewrite Hr by done. rewrite <- IHr.
        split; [by inversion 1|by intros ->].
      * cbn [orb andb]. split; [|done]. intros Heq.
        assert (Hin : In y (List.filter keep r)) by (rewrite <- Heq; by left).
        apply List.filter_In in Hin as [_ Hk]. congruence.
Qed.

Lemma skipping_filter_none keep nets :
  (∀ net, net ∈ nets → keep net = false) →
  length (skipping_filter keep nets) = Nat.div2 (length nets) ∧
  ∀ j, skipping_filter keep nets !! j = nets !! (2 * j + 1)%nat.
Proof.
  remember (length nets) as n eqn:Hn. revert nets Hn.
  induction n as [n IH] using lt_wf_ind. intros nets Hn Hall.
  destruct nets as [|x [|y r]].
  - subst. split; [done|]. by intros [|j].
  - subst. cbn [skipping_filter]. rewrite (Hall x) by (by left).
    split; [done|]. by intros [|j].
  - cbn [skipping_filter]. rewrite (Hall x) by (by left).
    destruct (IH (length r) ltac:(subst; simpl; lia) r eq_refl) as [Hlen Hlook].
    { intros net Hin. apply Hall. by do 2 right. }
    subst n. split; [simpl; by rewrite Hlen|].
    intros [|j]; [done|].
    replace (2 * S j + 1)%nat with (S (S (2 * j + 1))) by lia.
    cbn [lookup list_lookup]. apply Hlook.
Qed.

Section NetFilter.
Context `{PdbNet}.
Variable re_match : string → string → outcome bool.

(** More fuel than the list has elements beyond the index changes nothing:
    the loop has ended by itself. *)
Lemma remove_unmatched_fuel fuel k pat nets i :
  (length nets ≤ i + fuel)%nat →
  remove_unmatched re_match (fuel + k) pat nets i
  = remove_unmatched re_match fuel pat nets i.
Proof.
  revert nets i. induction fuel as [|fuel IH]; intros nets i Hlen.
  - cbn [Nat.add remove_unmatched].
    destruct k as [|k]; [done|]. cbn [remove_unmatched].
    by rewrite lookup_ge_None_2 by lia.
  - cbn [Nat.add remove_unmatched].
    destruct (nets !! i) as [net|] eqn:Hi; [|done].
    destruct (re_match pat (net_notes net)) as [[|]|]; cbn [mbind outcome_bind bind].
    + apply IH. lia.
    + destruct (list_remove_first net nets) as [nets'|] eqn:Hr; [|done].
      cbn [mbind outcome_bind bind]. apply IH.
      apply list_remove_first_length in Hr. lia.
    + done.
Qed.

(** The loop returns when [re.match] does, and what it leaves is a
    sublist with the matching nets of the list it started from. *)
Lemma remove_unmatched_keeps keep fuel pat nets i :
  (∀ net, net ∈ nets → re_match pat (net_notes net) = Ret (keep net)) →
  ∃ r, remove_unmatched re_match fuel pat nets i = Ret r ∧
       sublist r nets ∧
       List.filter keep r = List.filter keep nets.
Proof.
  revert nets i. induction fuel as [|fuel IH]; intros nets i Hm.
  - by exists nets.
  - cbn [remove_unmatched].
    destruct (nets !! i) as [net|] eqn:Hi; [|by exists nets].
    assert (Hin : net ∈ nets) by (by eapply list_elem_of_lookup_2).
    rewrite (Hm net Hin). cbn [mbind outcome_bind bind].
    destruct (keep net) eqn:Hk; [by apply IH|].
    destruct (list_remove_first_elem net nets Hin) as (nets' & Hr & _ & Hsub & Hf).
    rewrite Hr. cbn [mbind outcome_bind bind].
    destruct (IH nets' (S i)) as (r & Hr' & Hsub' & Hf').
    { intros n Hn. apply Hm. by eapply elem_of_sublist. }
    exists r. split; [done|]. split; [by etrans|].
    by rewrite Hf', (Hf keep Hk).
Qed.

(** On distinct nets the loop leaves the processed part as it is and the
    skipping filter of the rest. *)
Lemma remove_unmatched_skips keep fuel pat pre rest :
  NoDup (pre ++ rest) →
  (length rest ≤ fuel)%nat →
  (∀ net, net ∈ rest → re_match pat (net_notes net) = Ret (keep net)) →
  remove_unmatched re_match fuel pat (pre ++ rest) (length pre)
  = Ret (pre ++ skipping_filter keep rest).
Proof.
  revert pre rest. induction fuel as [|fuel IH]; intros pre rest Hnd Hlen Hm.
  - destruct rest; [done|simpl in Hlen; lia].
  - cbn [remove_unmatched].
    destruct rest as [|x r].
    + by rewrite lookup_ge_None_2 by (rewrite app_nil_r; lia).
    + rewrite list_lookup_middle by done.
      rewrite (Hm x) by (by left). cbn [mbind outcome_bind bind skipping_filter].
      destruct (keep x) eqn:Hk.
      * replace (pre ++ x :: r) with ((pre ++ [x]) ++ r) in * by (by rewrite <- app_assoc).
        replace (S (length pre)) with (length (pre ++ [x]))
          by (rewrite length_app; simpl; lia).
        rewrite IH; [by rewrite <- app_assoc|done|simpl in Hlen; lia|].
        intros n Hn. apply Hm. by right.
      * assert (Hx : x ∉ pre).
        { apply NoDup_app in Hnd as (_ & Hdis & _). intros Hin.
          apply (Hdis x Hin). by left. }
        rewrite list_remove_first_fresh by done. cbn [mbind outcome_bind bind].
        destruct r as [|y r'].
        -- destruct fuel; [done|]. cbn [remove_unmatched].
           by rewrite lookup_ge_None_2 by (rewrite app_nil_r; lia).
        -- replace (pre ++ y :: r') with ((pre ++ [y]) ++ r') by (by rewrite <- app_assoc).
           replace (S (length pre)) with (length (pre ++ [y]))
             by (rewrite length_app; simpl; lia).
           rewrite IH; [by rewrite <- app_assoc| |simpl in Hlen; lia|].
           ++ rewrite <- app_assoc. cbn [app].
              apply NoDup_app in Hnd as (Hp & Hdis & Hr).
              apply NoDup_cons in Hr as [_ Hr].
              apply NoDup_app. split; [done|]. split; [|done].
              intros z Hz Hz'. apply (Hdis z Hz). by right.
           ++ intros n Hn. apply Hm. by do 2 right.
Qed.

(** X2. When [re.match] returns for the notes of every net of the reply,
    [get_all_net_for_orgid] with a pattern returns: [list.remove] never
    raises and the loop ends within one iteration per net. What it returns
    is a sublist of the reply that holds every matching net, in the order
    and number of the reply. *)
Theorem get_all_net_for_orgid_keeps_matching (keep : Net → bool)
    (orgid : option Z) (pat : string) (nets : list Net) :
  all_data_objects (pdb_net_by_orgid orgid) = Ret (Some nets) →
  (∀ net, net ∈ nets →
     re_match (".*" +:+ pat +:+ ".*") (net_notes net) = Ret (keep net)) →
  ∃ r, get_all_net_for_orgid re_match orgid (Some pat) = Ret (Some r) ∧
       (∀ k, remove_unmatched re_match (length nets + k) (".*" +:+ pat +:+ ".*") nets 0
             = Ret r) ∧
       sublist r nets ∧
       List.filter keep r = List.filter keep nets.
Proof.
  intros Hnets Hm.
  destruct (remove_unmatched_keeps keep (length nets) _ nets 0 Hm)
    as (r & Hr & Hsub & Hf).
  exists r. unfold get_all_net_for_orgid. rewrite Hnets.
  cbn [mbind outcome_bind bind]. rewrite Hr. split; [done|].
  split; [|done]. intros k. by rewrite remove_unmatched_fuel by lia.
Qed.

(** X3. On a reply of distinct nets [get_all_net_for_orgid] returns the
    skipping filter of the reply: a matching net is kept, a net that does
    not match is removed and the net after it is kept without being
    tested. *)
Theorem get_all_net_for_orgid_skips (keep : Net → bool)
    (orgid : option Z) (pat : string) (nets : list Net) :
  all_data_objects (pdb_net_by_orgid orgid) = Ret (Some nets) →
  NoDup nets →
  (∀ net, net ∈ nets →
     re_match (".*" +:+ pat +:+ ".*") (net_notes net) = Ret (keep net)) →
  get_all_net_for_orgid re_match orgid (Some pat)
  = Ret (Some (skipping_filter keep nets)).
Proof.
  intros Hnets Hnd Hm. unfold get_all_net_for_orgid. rewrite Hnets.
  cbn [mbind outcome_bind bind].
  by rewrite (remove_unmatched_skips keep (length nets) _ [] nets).
Qed.

(** X4. When the pattern matches the notes of no net of a reply of
    distinct nets, [get_all_net_for_orgid] does not return the empty list
    but every second net of the reply: half of them, rounded down. *)
Theorem get_all_net_for_orgid_none_match
    (orgid : option Z) (pat : string) (nets : list Net) :
  all_data_objects (pdb_net_by_orgid orgid) = Ret (Some nets) →
  NoDup nets →
  (∀ net, net ∈ nets →
     re_match (".*" +:+ pat +:+ ".*") (net_notes net) = Ret false) →
  ∃ r, get_all_net_for_orgid re_match orgid (Some pat) = Ret (Some r) ∧
       length r = Nat.div2 (length nets) ∧
       ∀ j, r !! j = nets !! (2 * j + 1)%nat.
Proof.
  intros Hnets Hnd Hm. exists (skipping_filter (fun _ => false) nets).
  split; [|by apply skipping_filter_none].
  unfold get_all_net_for_orgid. rewrite Hnets. cbn [mbind outcome_bind bind].
  by rewrite (remove_unmatched_skips (fun _ => false) (length nets) _ [] nets).
Qed.

(** X5. On a reply of distinct nets [get_all_net_for_orgid] returns
    exactly the nets whose notes match the pattern if and only if no two
    nets that do not match stand next to each other in the reply. *)
Theorem get_all_net_for_orgid_filters_iff (keep : Net → bool)
    (orgid : option Z) (pat : string) (nets : list Net) :
  all_data_objects (pdb_net_by_orgid orgid) = Ret (Some nets) →
  NoDup nets →
  (∀ net, net ∈ nets →
     re_match (".*" +:+ pat +:+ ".*") (net_notes net) = Ret (keep net)) →
  get_all_net_for_orgid re_match orgid (Some pat) = Ret (Some (List.filter keep nets))
  ↔ no_adjacent_unmatched keep nets = true.
Proof.
  intros Hnets Hnd Hm.
  unfold get_all_net_for_orgid. rewrite Hnets. cbn [mbind outcome_bind bind].
  rewrite (remove_unmatched_skips keep (length nets) _ [] nets) by done.
  cbn [mbind outcome_bind bind].
  rewrite <- skipping_filter_filter. split; [by inversion 1|by intros ->].
Qed.

End NetFilter.

Lemma three_nets_distinct : NoDup [net_a; net_b; net_c].
Proof.
  apply (bool_decide_unpack _). vm_compute. exact I.
Defined.

Lemma get_all_net_for_orgid_keeps_matching_witness :
  ∃ r, @get_all_net_for_orgid pdb_three_nets notes_are_transit None (Some "x"%string)
       = Ret (Some r) ∧
       (∀ k, remove_unmatched notes_are_transit (length [net_a; net_b; net_c] + k)
               (".*" +:+ "x" +:+ ".*") [net_a; net_b; net_c] 0 = Ret r) ∧
       sublist r [net_a; net_b; net_c] ∧
       List.filter is_transit r = List.filter is_transit [net_a; net_b; net_c].
Proof.
  apply (get_all_net_for_orgid_keeps_matching (H := pdb_three_nets)
           notes_are_transit is_transit None "x" [net_a; net_b; net_c]).
  - reflexivity.
  - intros net _. reflexivity.
Defined.

Lemma get_all_net_for_orgid_skips_witness :
  @get_all_net_for_orgid pdb_three_nets notes_are_transit None (Some "x"%string)
  = Ret (Some [net_a; net_c]).
Proof.
  apply (get_all_net_for_orgid_skips (H := pdb_three_nets)
           notes_are_transit is_transit None "x" [net_a; net_b; net_c]).
  - reflexivity.
  - exact three_nets_distinct.
  - intros net _. reflexivity.
Defined.

Lemma get_all_net_for_orgid_none_match_witness :
  ∃ r, @get_all_net_for_orgid pdb_three_nets notes_never_match None (Some "x"%string)
       = Ret (Some r) ∧
       length r = 1%nat ∧
       ∀ j, r !! j = [net_a; net_b; net_c] !! (2 * j + 1)%nat.
Proof.
  apply (get_all_net_for_orgid_none_match (H := pdb_three_nets)
           notes_never_match None "x" [net_a; net_b; net_c]).
  - reflexivity.
  - exact three_nets_distinct.
  - intros net _. reflexivity.
Defined.

Lemma get_all_net_for_orgid_filters_iff_witness :
  @get_all_net_for_orgid pdb_isolated notes_are_transit None (Some "x"%string)
  = Ret (Some [net_a]).
Proof.
  apply (get_all_net_for_orgid_filters_iff (H := pdb_isolated)
           notes_are_transit is_transit None "x" [net_b; net_a; net_c]).
  - reflexivity.
  - apply (bool_decide_unpack _). vm_compute. exact I.
  - intros net _. reflexivity.
  - reflexivity.
Defined.

(* ===================================================================== *)
(** * The command line *)

Lemma is_option_name_cases o :
  is_option_name o = true →
  o = "--asn1"%string ∨ o = "--asn2"%string ∨ o = "--pat1"%string
  ∨ o = "--pat2"%string ∨ o = "--config"%string.
Proof.
  unfold is_option_name. rewrite !orb_true_iff, !String.eqb_eq. tauto.
Qed.

Lemma getArgs_loop_positional g config arg rest :
  is_option_name arg = false →
  getArgs_loop g config (arg :: rest) = getArgs_loop (positional g arg) config rest.
Proof.
  unfold is_option_name. rewrite !orb_false_iff.
  intros ((((H1 & H2) & H3) & H4) & H5).
  cbn [getArgs_loop]. by rewrite H1, H2, H3, H4, H5.
Qed.

Lemma positional_full a b p q rest config :
  Forall (fun x => is_option_name x = false) rest →
  getArgs_loop (MkGlobals (Some a) (Some b) (Some p) (Some q)) config rest
  = (MkGlobals (Some a) (Some b) (Some p) (Some q), config).
Proof.
  induction 1 as [|x rest Hx _ IH]; [done|].
  by rewrite getArgs_loop_positional.
Qed.

(** Positional arguments fill [asn1], [asn2], [pat1], [pat2] in that
    order; the fifth and later ones change nothing. *)
Lemma getArgs_loop_positionals args config :
  Forall (fun x => is_option_name x = false) args →
  getArgs_loop (MkGlobals None None None None) config args
  = (MkGlobals (args !! 0%nat) (args !! 1%nat) (args !! 2%nat) (args !! 3%nat), config).
Proof.
  intros Hall.
  destruct args as [|a args]; [done|].
  apply Forall_cons in Hall as [Ha Hall]. rewrite getArgs_loop_positional by done.
  destruct args as [|b args]; [done|].
  apply Forall_cons in Hall as [Hb Hall]. rewrite getArgs_loop_positional by done.
  destruct args as [|p args]; [done|].
  apply Forall_cons in Hall as [Hp Hall]. rewrite getArgs_loop_positional by done.
  destruct args as [|q args]; [done|].
  apply Forall_cons in Hall as [Hq Hall]. rewrite getArgs_loop_positional by done.
  by apply positional_full.
Qed.

(** X6. On a command line without option names [getArgs] takes the first
    argument as [asn1], the second as [asn2], the third and fourth as
    [pat1] and [pat2], the empty text where they are missing, and ignores
    every further argument; with fewer than two arguments it exits with
    status 1. *)
Theorem getArgs_positional (script_dir : string)
    (open_read : string → option (list string)) (prog : string) (args : list string) :
  Forall (fun x => is_option_name x = false) args →
  ∃ url,
    getArgs script_dir open_read (prog :: args)
    = Ret (match args with
           | a :: b :: rest =>
               Returned (MkGlobals (Some a) (Some b)
                           (Some (nth 0 rest EmptyString))
                           (Some (nth 1 rest EmptyString)), url)
           | _ => SystemExit 1
           end).
Proof.
  intros Hall. unfold getArgs.
  rewrite getArgs_loop_positionals by done.
  destruct args as [|a [|b rest]]; [by exists EmptyString..|].
  cbn [lookup list_lookup asn1 asn2 pat1 pat2].
  destruct (readcreds_fromconfig script_dir open_read "") as [u pw].
  eexists. do 3 f_equal.
  destruct rest as [|p [|q rest]]; reflexivity.
Qed.

Lemma getArgs_positional_witness :
  ∃ url,
    getArgs "dir" (fun _ => None) ["prog"; "64500"; "64501"; "lab"]%string
    = Ret (Returned (MkGlobals (Some "64500") (Some "64501") (Some "lab") (Some ""), url)%string).
Proof.
  apply (getArgs_positional "dir" (fun _ => None) "prog" ["64500"; "64501"; "lab"]%string).
  repeat constructor.
Defined.

Lemma getArgs_loop_option_pairs g config pairs rest1 rest2 :
  Forall (fun ov => is_option_name ov.1 = true) pairs →
  (∀ g' config', getArgs_loop g' config' rest1 = getArgs_loop g' config' rest2) →
  getArgs_loop g config (option_args pairs ++ rest1)
  = getArgs_loop g config (option_args pairs ++ rest2).
Proof.
  intros Hall Hrest. revert g config.
  induction Hall as [|[o v] pairs Ho _ IH]; intros g config; [apply Hrest|].
  cbn [option_args flat_map app] in *. cbn [fst] in Ho.
  destruct (is_option_name_cases o Ho) as [->|[->|[->|[->| ->]]]];
    cbn [getArgs_loop String.eqb Ascii.eqb Bool.eqb]; apply IH.
Qed.

(** X7. Among the options of the command line the order does not matter
    and the last value wins: after any sequence of options with their
    values, two options of different names can be exchanged with their
    values, an option given twice in a row counts with its second value,
    and an option that ends the command line, without a value, is ignored.
    [getArgs] returns the same in each case. *)
Theorem getArgs_options (script_dir : string)
    (open_read : string → option (list string)) (prog : string)
    (pairs : list (string * string)) (o1 v1 o2 v2 : string) (rest : list string) :
  Forall (fun ov => is_option_name ov.1 = true) pairs →
  is_option_name o1 = true →
  is_option_name o2 = true →
  (o1 ≠ o2 →
   getArgs script_dir open_read (prog :: option_args pairs ++ o1 :: v1 :: o2 :: v2 :: rest)
   = getArgs script_dir open_read (prog :: option_args pairs ++ o2 :: v2 :: o1 :: v1 :: rest))
  ∧ getArgs script_dir open_read (prog :: option_args pairs ++ o1 :: v1 :: o1 :: v2 :: rest)
    = getArgs script_dir open_read (prog :: option_args pairs ++ o1 :: v2 :: rest)
  ∧ getArgs script_dir open_read (prog :: option_args pairs ++ [o1])
    = getArgs script_dir open_read (prog :: option_args pairs).
Proof.
  intros Hall H1 H2.
  split; [|split].
  - intros Hne. unfold getArgs. f_equal.
    rewrite (getArgs_loop_option_pairs _ _ pairs _ (o2 :: v2 :: o1 :: v1 :: rest));
      [done|done|].
    intros g config.
    destruct (is_option_name_cases o1 H1) as [->|[->|[->|[->| ->]]]];
      destruct (is_option_name_cases o2 H2) as [->|[->|[->|[->| ->]]]];
      try done; reflexivity.
  - unfold getArgs.
    rewrite (getArgs_loop_option_pairs _ _ pairs _ (o1 :: v2 :: rest)); [done|done|].
    intros g config.
    destruct (is_option_name_cases o1 H1) as [->|[->|[->|[->| ->]]]]; reflexivity.
  - unfold getArgs.
    rewrite <- (app_nil_r (option_args pairs)) at 2.
    rewrite (getArgs_loop_option_pairs _ _ pairs [o1] []); [done|done|].
    intros g config.
    destruct (is_option_name_cases o1 H1) as [->|[->|[->|[->| ->]]]]; reflexivity.
Qed.

Lemma getArgs_options_witness :
  getArgs "dir" (fun _ => None)
    ["prog"; "--asn1"; "64500"; "--pat1"; "lab"; "--asn2"; "64501"]%string
  = getArgs "dir" (fun _ => None)
      ["prog"; "--asn1"; "64500"; "--asn2"; "64501"; "--pat1"; "lab"]%string.
Proof.
  apply (getArgs_options "dir" (fun _ => None) "prog"
           [("--asn1", "64500")]%string "--pat1" "lab" "--asn2" "64501" []);
    [by repeat constructor|reflexivity|reflexivity|discriminate].
Defined.

(** X8. The long form of the command line names the same run as the
    positional one: [--asn1 a --asn2 b], followed by anything, gives what
    [a b] followed by the same gives, when [a] and [b] are no option
    names. *)
Theorem getArgs_long_form (script_dir : string)
    (open_read : string → option (list string)) (prog a b : string)
    (rest : list string) :
  is_option_name a = false →
  is_option_name b = false →
  getArgs script_dir open_read (prog :: "--asn1"%string :: a :: "--asn2"%string :: b :: rest)
  = getArgs script_dir open_read (prog :: a :: b :: rest).
Proof.
  intros Ha Hb. unfold getArgs.
  rewrite (getArgs_loop_positional _ _ a (b :: rest)) by done.
  rewrite (getArgs_loop_positional _ _ b rest) by done.
  reflexivity.
Qed.

Lemma getArgs_long_form_witness :
  getArgs "dir" (fun _ => None)
    ["prog"; "--asn1"; "64500"; "--asn2"; "64501"; "--pat2"; "lab"]%string
  = getArgs "dir" (fun _ => None) ["prog"; "64500"; "64501"; "--pat2"; "lab"]%string.
Proof.
  apply (getArgs_long_form "dir" (fun _ => None) "prog" "64500" "64501"
           ["--pat2"; "lab"]%string); reflexivity.
Defined.

(* ===================================================================== *)
(** * The credentials file *)

Lemma rstrip_spaces w : forallb is_space (chars w) = true → rstrip w = EmptyString.
Proof.
  induction w as [|c w IH]; [done|].
  change (chars (String c w)) with (c :: chars w). cbn [forallb].
  intros Hw. apply andb_true_iff in Hw as [Hc Hw].
  cbn [rstrip]. by rewrite (IH Hw), Hc.
Qed.

Lemma rstrip_app_spaces s w :
  forallb is_space (chars w) = true → rstrip (s +:+ w) = rstrip s.
Proof.
  intros Hw. induction s as [|c s IH]; [by apply rstrip_spaces|].
  change (String c s +:+ w) with (String c (s +:+ w)).
  cbn [rstrip]. by rewrite IH.
Qed.

Lemma rstrip_idem s : rstrip (rstrip s) = rstrip s.
Proof.
  induction s as [|c s IH]; [done|].
  cbn [rstrip]. destruct (rstrip s) as [|d r] eqn:E.
  - destruct (is_space c) eqn:Hc; [done|]. cbn [rstrip]. by rewrite Hc.
  - cbn [rstrip] in *. by rewrite IH.
Qed.

(** X9. A credentials file whose first two lines are a user name and a
    password, each followed by a line end or any other white space, is
    read back as that user name and that password when neither ends in
    white space itself. The file is the one named, or [pdb-intersect.conf]
    beside the script when the name is empty. *)
Theorem readcreds_fromconfig_lines (script_dir : string)
    (open_read : string → option (list string))
    (config u p w1 w2 : string) (more : list string) :
  open_read (if String.eqb config "" then script_dir +:+ "/" +:+ "pdb-intersect.conf"
             else config)
  = Some ((u +:+ w1) :: (p +:+ w2) :: more) →
  forallb is_space (chars w1) = true →
  forallb is_space (chars w2) = true →
  rstrip u = u →
  rstrip p = p →
  readcreds_fromconfig script_dir open_read config = (u, p).
Proof.
  intros Hopen H1 H2 Hu Hp.
  unfold readcreds_fromconfig.
  replace (join "/" [script_dir; "pdb-intersect.conf"%string])
    with (script_dir +:+ "/" +:+ "pdb-intersect.conf") by reflexivity.
  rewrite Hopen. cbn [nth].
  by rewrite !rstrip_app_spaces, Hu, Hp by done.
Qed.

Lemma readcreds_fromconfig_lines_witness :
  readcreds_fromconfig "dir"
    (fun path => if String.eqb path "dir/pdb-intersect.conf"
                 then Some ["me" +:+ newline; "secret" +:+ newline] else None) ""
  = ("me", "secret")%string.
Proof.
  apply (readcreds_fromconfig_lines "dir"
           (fun path => if String.eqb path "dir/pdb-intersect.conf"
                        then Some ["me" +:+ newline; "secret" +:+ newline] else None)
           "" "me" "secret" newline newline []); reflexivity.
Defined.

(** X10. What [readcreds_fromconfig] returns never ends in white space,
    whatever the file holds: stripping either text again changes
    nothing. *)
Theorem readcreds_fromconfig_stripped (script_dir : string)
    (open_read : string → option (list string)) (config : string) :
  rstrip (readcreds_fromconfig script_dir open_read config).1
  = (readcreds_fromconfig script_dir open_read config).1 ∧
  rstrip (readcreds_fromconfig script_dir open_read config).2
  = (readcreds_fromconfig script_dir open_read config).2.
Proof.
  unfold readcreds_fromconfig.
  destruct (open_read _) as [lines|]; [|done].
  cbn [fst snd]. by rewrite !rstrip_idem.
Qed.

(* ===================================================================== *)
(** * The intersector on its two arguments *)

Lemma ixlan_intersect_returns (A B : list Netixlan) (tab : list row) :
  ixlan_intersect A B tab
  = Ret (tab ++ map (merged_row A B) (elements (ixlan_ids A ∩ ixlan_ids B))).
Proof.
  destruct (group_by_ixlanid_spec A) as (d1 & Hd1 & H1).
  destruct (group_by_ixlanid_spec B) as (d2 & Hd2 & H2).
  unfold ixlan_intersect. rewrite Hd1, Hd2. cbn [mbind outcome_bind bind].
  rewrite (group_dom A d1 H1), (group_dom B d2 H2).
  apply intersect_loop; [done..|].
  apply Forall_forall. intros k Hk. by apply elem_of_elements in Hk.
Qed.

Lemma elem_of_ixlan_ids id l :
  id ∈ ixlan_ids l ↔ attachments_at id l ≠ [].
Proof.
  unfold ixlan_ids. rewrite elem_of_list_to_set.
  pose proof (attachments_at_nil id l) as Hnil. split.
  - intros Hin E. by apply Hnil in E.
  - intros Hne. destruct (decide (id ∈ map ni_ixlan_id l)) as [|Hn]; [done|].
    by apply Hnil in Hn.
Qed.

Lemma attachments_at_elem id l x :
  x ∈ attachments_at id l ↔ x ∈ l ∧ ni_ixlan_id x = id.
Proof.
  unfold attachments_at. rewrite !list_elem_of_In, List.filter_In.
  by rewrite Z.eqb_eq.
Qed.

(** X11. Exchanging the two arguments of [ixlan_intersect] exchanges the
    second and third column of every row and changes nothing else, up to
    the order of the rows, when the attachments of both sides at one
    exchange-lan carry the same name. *)
Theorem ixlan_intersect_swap (A B : list Netixlan) (tab : list row) :
  (∀ a b, a ∈ A → b ∈ B → ni_ixlan_id a = ni_ixlan_id b → ni_name a = ni_name b) →
  ∃ rows rows' : list row,
    ixlan_intersect A B tab = Ret (tab ++ rows) ∧
    ixlan_intersect B A tab = Ret (tab ++ rows') ∧
    rows' ≡ₚ map (fun r : row => (r.1.1, r.2, r.1.2)) rows.
Proof.
  intros Hname.
  exists (map (merged_row A B) (elements (ixlan_ids A ∩ ixlan_ids B))),
         (map (merged_row B A) (elements (ixlan_ids B ∩ ixlan_ids A))).
  split; [apply ixlan_intersect_returns|]. split; [apply ixlan_intersect_returns|].
  rewrite (comm_L (∩) (ixlan_ids B) (ixlan_ids A)).
  rewrite map_map.
  erewrite (map_ext_in (merged_row B A)); [reflexivity|].
  intros id Hid. apply list_elem_of_In, elem_of_elements, elem_of_intersection in Hid.
  destruct Hid as [HA HB].
  apply elem_of_ixlan_ids in HA, HB.
  unfold merged_row. cbn [fst snd].
  destruct (attachments_at id A) as [|a ra] eqn:EA; [done|].
  destruct (attachments_at id B) as [|b rb] eqn:EB; [done|].
  f_equal. f_equal. symmetry. apply Hname.
  - apply (attachments_at_elem id A a). rewrite EA. apply list_elem_of_here.
  - apply (attachments_at_elem id B b). rewrite EB. apply list_elem_of_here.
  - transitivity id.
    + apply (attachments_at_elem id A a). rewrite EA. apply list_elem_of_here.
    + symmetry. apply (attachments_at_elem id B b). rewrite EB. apply list_elem_of_here.
Qed.

Lemma ixlan_intersect_swap_witness :
  ∃ rows rows' : list row,
    ixlan_intersect [ni_a10; ni_b10; ni_b20] [ni_c10; ni_c30] [] = Ret ([] ++ rows) ∧
    ixlan_intersect [ni_c10; ni_c30] [ni_a10; ni_b10; ni_b20] [] = Ret ([] ++ rows') ∧
    rows' ≡ₚ map (fun r : row => (r.1.1, r.2, r.1.2)) rows.
Proof.
  apply (ixlan_intersect_swap [ni_a10; ni_b10; ni_b20] [ni_c10; ni_c30] []).
  intros a b Ha Hb.
  apply elem_of_cons in Ha as [->|Ha];
    [|apply elem_of_cons in Ha as [->|Ha];
      [|apply list_elem_of_singleton in Ha as ->]];
    (apply elem_of_cons in Hb as [->|Hb];
      [|apply list_elem_of_singleton in Hb as ->]);
    cbn; intros E; first [reflexivity|discriminate E].
Defined.

(** X12. The rows depend on a side only through its attachments at the
    exchange-lans of the other side: attachments elsewhere, and the order
    of attachments at different exchange-lans, change no row. *)
Theorem ixlan_intersect_other_lans (A A' B : list Netixlan) (tab : list row) :
  (∀ id, id ∈ ixlan_ids B → attachments_at id A' = attachments_at id A) →
  ∃ rows rows' : list row,
    ixlan_intersect A B tab = Ret (tab ++ rows) ∧
    ixlan_intersect A' B tab = Ret (tab ++ rows') ∧
    rows' ≡ₚ rows.
Proof.
  intros Hsame.
  exists (map (merged_row A B) (elements (ixlan_ids A ∩ ixlan_ids B))),
         (map (merged_row A' B) (elements (ixlan_ids A' ∩ ixlan_ids B))).
  split; [apply ixlan_intersect_returns|]. split; [apply ixlan_intersect_returns|].
  assert (Hids : ixlan_ids A' ∩ ixlan_ids B = ixlan_ids A ∩ ixlan_ids B).
  { apply set_eq. intros id. rewrite !elem_of_intersection.
    split; intros [H1 H2]; (split; [|done]);
      apply elem_of_ixlan_ids; apply elem_of_ixlan_ids in H1.
    - by rewrite <- (Hsame id H2).
    - by rewrite (Hsame id H2). }
  rewrite Hids.
  erewrite (map_ext_in (merged_row A' B)); [reflexivity|].
  intros id Hid. apply list_elem_of_In, elem_of_elements, elem_of_intersection in Hid.
  destruct Hid as [_ HB]. unfold merged_row. by rewrite (Hsame id HB).
Qed.

Lemma ixlan_intersect_other_lans_witness :
  ∃ rows rows' : list row,
    ixlan_intersect [ni_a10; ni_b10] [ni_c10; ni_c30] [] = Ret ([] ++ rows) ∧
    ixlan_intersect [ni_b20; ni_a10; ni_b10] [ni_c10; ni_c30] [] = Ret ([] ++ rows') ∧
    rows' ≡ₚ rows.
Proof.
  apply (ixlan_intersect_other_lans [ni_a10; ni_b10] [ni_b20; ni_a10; ni_b10]
           [ni_c10; ni_c30] []).
  intros id Hid. unfold ixlan_ids in Hid. apply elem_of_list_to_set in Hid.
  cbn in Hid.
  apply elem_of_cons in Hid as [->|Hid];
    [|apply list_elem_of_singleton in Hid as ->]; reflexivity.
Defined.

(** X13. [ixlan_intersect] leaves the table as it is exactly when no
    attachment of the one side is at the exchange-lan of an attachment of
    the other; an empty side is one such case. *)
Theorem ixlan_intersect_no_rows (A B : list Netixlan) (tab : list row) :
  ixlan_intersect A B tab = Ret tab
  ↔ ∀ a b, a ∈ A → b ∈ B → ni_ixlan_id a ≠ ni_ixlan_id b.
Proof.
  rewrite ixlan_intersect_returns. split.
  - intros E a b Ha Hb Hid.
    assert (Hin : ni_ixlan_id a ∈ ixlan_ids A ∩ ixlan_ids B).
    { apply elem_of_intersection. unfold ixlan_ids.
      rewrite !elem_of_list_to_set, !list_elem_of_In, !in_map_iff. split.
      - exists a. by rewrite <- list_elem_of_In.
      - exists b. by rewrite <- list_elem_of_In. }
    apply elem_of_elements in Hin.
    injection E as E.
    rewrite <- (app_nil_r tab) in E at 2. apply app_inv_head in E.
    destruct (elements (ixlan_ids A ∩ ixlan_ids B)); [|done].
    by apply elem_of_nil in Hin.
  - intros Hno.
    destruct (elements (ixlan_ids A ∩ ixlan_ids B)) as [|id ids] eqn:E.
    { cbn. by rewrite app_nil_r. }
    exfalso.
    assert (Hin : id ∈ ixlan_ids A ∩ ixlan_ids B).
    { apply elem_of_elements. rewrite E. apply list_elem_of_here. }
    apply elem_of_intersection in Hin as [HA HB].
    unfold ixlan_ids in HA, HB.
    rewrite elem_of_list_to_set, list_elem_of_In, in_map_iff in HA, HB.
    destruct HA as (a & Ea & Ha). destruct HB as (b & Eb & Hb).
    apply list_elem_of_In in Ha, Hb.
    apply (Hno a b Ha Hb). congruence.
Qed.

Lemma ixlan_intersect_no_rows_witness :
  ixlan_intersect [ni_b20] [ni_c10; ni_c30] [] = Ret [].
Proof.
  apply (proj2 (ixlan_intersect_no_rows [ni_b20] [ni_c10; ni_c30] [])).
  intros a b Ha Hb.
  apply list_elem_of_singleton in Ha as ->.
  apply elem_of_cons in Hb as [->|Hb];
    [|apply list_elem_of_singleton in Hb as ->];
    intros E; vm_compute in E; discriminate E.
Defined.

(* ===================================================================== *)
(** * The second half of the script *)

Lemma collect_netixlans_acc (tree : list Net) (acc : list Netixlan) :
  fold_left (fun netixlan net => netixlan ++ net_netixlan_set net) tree acc
  = acc ++ tree_netixlans tree.
Proof.
  revert acc. induction tree as [|net tree IH]; intros acc.
  - cbn. by rewrite app_nil_r.
  - cbn [fold_left]. rewrite IH. unfold tree_netixlans. cbn [map concat].
    by rewrite app_assoc.
Qed.

(** X14. The second half of the script fails with TypeError when one of
    the two trees is [None], and with two trees it returns one row for
    each exchange-lan at which a net of the first tree and a net of the
    second are present; the row lists the attachments of all nets of a
    tree at that exchange-lan. *)
Theorem main_intersect_rows (tree1 tree2 : option (list Net)) :
  match tree1, tree2 with
  | Some t1, Some t2 =>
      ∃ rows : list row,
        main_intersect tree1 tree2 = Ret rows ∧
        rows ≡ₚ map (merged_row (tree_netixlans t1) (tree_netixlans t2))
                  (elements (ixlan_ids (tree_netixlans t1) ∩ ixlan_ids (tree_netixlans t2))) ∧
        length rows = size (ixlan_ids (tree_netixlans t1) ∩ ixlan_ids (tree_netixlans t2))
  | _, _ => main_intersect tree1 tree2 = Raise TypeError
  end.
Proof.
  destruct tree1 as [t1|]; [|done].
  destruct tree2 as [t2|]; [|done].
  unfold main_intersect, collect_netixlans. cbn [mbind outcome_bind bind].
  rewrite !collect_netixlans_acc. cbn [app].
  rewrite ixlan_intersect_returns. cbn [app].
  eexists. split; [done|]. split; [done|]. by rewrite length_map.
Qed.

(* ===================================================================== *)
(** * The first half of the script *)

Section Lookup.
Context `{PdbNet}.
Variable re_match : string → string → outcome bool.
Hypothesis re_match_returns : ∀ pat text, ∃ b, re_match pat text = Ret b.

Lemma remove_unmatched_returns fuel pat nets i :
  ∃ r, remove_unmatched re_match fuel pat nets i = Ret r.
Proof.
  revert nets i. induction fuel as [|fuel IH]; intros nets i; [by eexists|].
  cbn [remove_unmatched].
  destruct (nets !! i) as [net|] eqn:E; [|by eexists].
  destruct (re_match_returns pat (net_notes net)) as [b ->].
  cbn [mbind outcome_bind bind]. destruct b; [apply IH|].
  destruct (list_remove_first_elem net nets) as (nets' & -> & _).
  { by eapply list_elem_of_lookup_2. }
  cbn [mbind outcome_bind bind]. apply IH.
Qed.

Lemma get_orgid_for_asn_returns asn :
  get_orgid_for_asn (str_opt asn) = Ret (org_of_asn asn).
Proof.
  unfold get_orgid_for_asn, org_of_asn. rewrite first_data_object_returns.
  by destruct (pdb_net_by_asn (str_opt asn) ≫= data) as [[|x l]|].
Qed.

Lemma get_all_net_for_orgid_returns orgid pat :
  ∃ r, get_all_net_for_orgid re_match orgid pat = Ret r ∧
       (r = None ↔ org_has_nets orgid = false).
Proof.
  unfold get_all_net_for_orgid, org_has_nets. rewrite all_data_objects_returns.
  destruct (pdb_net_by_orgid orgid ≫= data) as [[|x l]|];
    cbn [mbind outcome_bind bind]; try by eexists.
  destruct pat as [pat|]; [|by eexists].
  destruct (remove_unmatched_returns (length (x :: l)) (".*" +:+ pat +:+ ".*") (x :: l) 0)
    as [r ->].
  cbn [mbind outcome_bind bind]. by eexists.
Qed.

(** X15. When [re.match] raises nothing, the first half of the script
    raises nothing: it ends the run with [exit(1)] exactly when the query
    for the nets of the organisation of one of the two ASNs returns no
    net, and returns the two trees otherwise. The patterns have no part in
    this: a pattern that leaves no net does not end the run. *)
Theorem main_lookup_exits (g : Globals) :
  ∃ c, main_lookup re_match g = Ret c ∧
       (c = SystemExit 1
        ↔ org_has_nets (org_of_asn (asn1 g)) && org_has_nets (org_of_asn (asn2 g)) = false) ∧
       (c ≠ SystemExit 1 → ∃ tree1 tree2, c = Returned (tree1, tree2)).
Proof.
  unfold main_lookup. rewrite !get_orgid_for_asn_returns.
  cbn [mbind outcome_bind bind].
  destruct (get_all_net_for_orgid_returns (org_of_asn (asn1 g)) (pat1 g)) as (r1 & -> & H1).
  destruct (get_all_net_for_orgid_returns (org_of_asn (asn2 g)) (pat2 g)) as (r2 & -> & H2).
  cbn [mbind outcome_bind bind].
  destruct r1 as [n1|].
  - destruct r2 as [n2|].
    + rewrite !all_data_objects_returns. cbn [mbind outcome_bind bind].
      eexists. split; [done|]. split; [|by eauto].
      split; [done|]. intros E. apply andb_false_iff in E as [E|E].
      * by apply H1 in E.
      * by apply H2 in E.
    + eexists. split; [done|]. split; [|done].
      split; [|done]. intros _. apply andb_false_iff. right. by apply H2.
  - eexists. split; [done|]. split; [|done].
    split; [|done]. intros _. apply andb_false_iff. left. by apply H1.
Qed.

End Lookup.

Lemma main_lookup_exits_witness :
  ∃ c, @main_lookup pdb_three_nets notes_are_transit
         (MkGlobals (Some "64500") (Some "64501") (Some "") (Some ""))%string = Ret c ∧
       (c = SystemExit 1
        ↔ @org_has_nets pdb_three_nets (@org_of_asn pdb_three_nets (Some "64500"%string))
          && @org_has_nets pdb_three_nets (@org_of_asn pdb_three_nets (Some "64501"%string))
          = false) ∧
       (c ≠ SystemExit 1 → ∃ tree1 tree2, c = Returned (tree1, tree2)).
Proof.
  apply (@main_lookup_exits pdb_three_nets notes_are_transit).
  intros pat text. exists (String.eqb text "transit"). reflexivity.
Defined.

(* ===================================================================== *)
(** * The normaliser in front of the resolvers *)

Lemma parse_octet_strip o n : parse_octet o = Ret n → strip_component o = o.
Proof.
  unfold parse_octet. intros Ho.
  destruct (String.eqb o "") eqn:E0; [done|].
  destruct (negb (isascii_isdigit o)); [done|].
  destruct (3 <? String.length o)%nat; [done|].
  destruct (negb (String.eqb o "0") && startswith "0" o) eqn:Ez; [done|].
  clear Ho. destruct o as [|c r]; [done|].
  unfold strip_component.
  change (re_sub_leading_zeros (String c r))
    with (if Ascii.eqb c "0" then re_sub_leading_zeros r else String c r).
  change (startswith "0" (String c r)) with (Ascii.eqb "0" c && true) in Ez.
  destruct (Ascii.eqb_spec c "0") as [->|Hc]; [|done].
  change (Ascii.eqb "0" "0" && true) with true in Ez.
  rewrite andb_true_r in Ez. apply negb_false_iff, String.eqb_eq in Ez.
  by inversion Ez.
Qed.

(** The normaliser leaves a text of an IPv4 address as it is. *)
Lemma unexplode_ip_IPv4 s a : IPv4Address s = Ret a → unexplode_ip s = s.
Proof.
  intros Hs.
  destruct (IPv4Address_inv s a Hs)
    as (_ & o0 & o1 & o2 & o3 & n0 & n1 & n2 & n3 & Hsplit & H0 & H1 & H2 & H3 & _).
  rewrite unexplode_ip_unfold. unfold unexplode_ip_spec. rewrite Hsplit.
  rewrite decide_True by done. cbn [map].
  rewrite (parse_octet_strip _ _ H0), (parse_octet_strip _ _ H1),
    (parse_octet_strip _ _ H2), (parse_octet_strip _ _ H3).
  rewrite <- Hsplit. apply (join_split "." s).
Qed.

Lemma ip_address_IPv4 s a : IPv4Address s = Ret a → ip_address s = Ret a.
Proof. intros Hs. unfold ip_address. by rewrite Hs. Qed.

(** X16. [getixp_by_ip] takes a dotted quad with zeros added in front of
    its components, the exploded form among them, for the address written
    without them: the normaliser returns the text [IPv4Address] accepts,
    and the lookup is the IPv4 lookup of that text. *)
Theorem getixp_by_ip_zero_padded `{Pdb} (s s' : string) (a : ip_addr) :
  IPv4Address s = Ret a →
  zero_padded_variant s s' →
  unexplode_ip s' = s ∧ getixp_by_ip s' = getixp_by_ipv4 s.
Proof.
  intros Hs Hv.
  assert (Hu : unexplode_ip s' = s).
  { rewrite (unexplode_ip_zero_padded s s' Hv). by apply (unexplode_ip_IPv4 s a). }
  split; [done|].
  unfold getixp_by_ip. rewrite Hu, (ip_address_IPv4 s a Hs).
  cbn [mbind outcome_bind bind].
  by rewrite (IPv4Address_version s a Hs).
Qed.

Lemma getixp_by_ip_zero_padded_witness :
  unexplode_ip "198.051.100.007" = "198.51.100.7"%string ∧
  @getixp_by_ip (memory_pdb dir_one_prefix) "198.051.100.007"
  = @getixp_by_ipv4 (memory_pdb dir_one_prefix) "198.51.100.7".
Proof.
  apply (@getixp_by_ip_zero_padded (memory_pdb dir_one_prefix)
           "198.51.100.7" "198.051.100.007" addr_198_51_100_7).
  - reflexivity.
  - split; [reflexivity|].
    change (split "." "198.51.100.7") with ["198"; "51"; "100"; "7"]%string.
    change (split "." "198.051.100.007") with ["198"; "051"; "100"; "007"]%string.
    constructor; [by exists 0%nat|].
    constructor; [by exists 1%nat|].
    constructor; [by exists 0%nat|].
    constructor; [by exists 2%nat|].
    constructor.
Defined.

Lemma strip_component_not_empty c : strip_component c ≠ EmptyString.
Proof. unfold strip_component. by destruct (re_sub_leading_zeros c). Qed.

Lemma parse_hextet_strip s v :
  parse_hextet s = Ret v → parse_hextet (strip_component s) = Ret v.
Proof.
  revert v. induction s as [|c r IH]; intros v Hs; [done|].
  unfold strip_component.
  change (re_sub_leading_zeros (String c r))
    with (if Ascii.eqb c "0" then re_sub_leading_zeros r else String c r).
  destruct (Ascii.eqb_spec c "0") as [->|Hc]; [|done].
  destruct r as [|d r']; [done|].
  change (match re_sub_leading_zeros (String d r') with
          | EmptyString => "0"%string
          | String a s0 => String a s0
          end) with (strip_component (String d r')).
  apply IH. revert Hs. unfold parse_hextet.
  change (chars (String "0" (String d r'))) with ("0"%char :: chars (String d r')).
  cbn [forallb]. change (is_hex_digit "0") with true. cbn [andb].
  destruct (forallb is_hex_digit (chars (String d r'))); [|done]. cbn [negb].
  cbn [String.length].
  destruct (Nat.ltb_spec 4 (S (S (String.length r')))) as [|L1]; [done|].
  destruct (Nat.ltb_spec 4 (S (String.length r'))) as [L2|_]; [lia|].
  intros Hs. cbn [String.eqb] in *.
  destruct (String.eqb (String d r') ""); done.
Qed.

Lemma parse_hextets_strip parts acc n :
  parse_hextets parts acc = Ret n →
  parse_hextets (map strip_component parts) acc = Ret n.
Proof.
  revert acc. induction parts as [|p parts IH]; intros acc Hp; [done|].
  cbn [map parse_hextets] in *.
  destruct (parse_hextet p) as [h|] eqn:Eh; [|done].
  rewrite (parse_hextet_strip p h Eh). cbn [mbind outcome_bind bind] in *.
  by apply IH.
Qed.

(** Eight non-empty colon-separated groups of hexadecimal digits are the
    text of the IPv6 address of their value. *)
Lemma ip_address_eight_groups (groups : list string) (n : Z) :
  length groups = 8%nat →
  Forall (fun g => g ≠ EmptyString) groups →
  (∀ c, is_hex_digit c = false → Forall (fun g => contains c g = false) groups) →
  parse_hextets groups 0 = Ret n →
  ip_address (join ":" groups) = Ret (IpAddr IPv6 n None).
Proof.
  intros Hlen Hne Hno Hparse.
  set (text := join ":" groups).
  assert (Hnot : ∀ c, is_hex_digit c = false → c ≠ ":"%char → contains c text = false).
  { intros c Hc Hcol. apply contains_join; [|by apply Hno].
    cbn [contains]. destruct (Ascii.eqb_spec ":" c); [congruence|done]. }
  assert (Hsplit : split ":" text = groups).
  { apply split_join; [by destruct groups|]. by apply Hno. }
  assert (Htext : String.eqb text "" = false).
  { destruct (String.eqb_spec text "") as [E|]; [|done].
    rewrite E in Hsplit. rewrite <- Hsplit in Hlen. discriminate Hlen. }
  assert (H4 : IPv4Address text = Raise AddressValueError).
  { unfold IPv4Address. rewrite (Hnot "/"%char) by done.
    unfold v4_ip_int_from_string. rewrite Htext.
    by rewrite (split_no_sep "." text) by (by apply Hnot). }
  assert (H6 : IPv6Address text = Ret (IpAddr IPv6 n None)).
  { unfold IPv6Address. rewrite (Hnot "/"%char) by done.
    unfold split_scope_id. rewrite (split_no_sep "%" text) by (by apply Hnot).
    cbn [mbind outcome_bind bind].
    unfold v6_ip_int_from_string. rewrite Htext, Hsplit.
    specialize (Hno "."%char eq_refl).
    clear Hnot Hsplit Htext H4. subst text.
    destruct groups as [|g0 [|g1 [|g2 [|g3 [|g4 [|g5 [|g6 [|g7 [|? ?]]]]]]]]];
      try discriminate Hlen. clear Hlen.
    repeat match goal with
           | H : Forall _ (_ :: _) |- _ => apply Forall_cons in H as [? H]
           end.
    cbn [length Nat.ltb Nat.leb List.last].
    match goal with Hc : contains "." g7 = false |- _ => rewrite Hc end.
    cbn [mbind outcome_bind bind]. cbv zeta.
    cbn [length tail removelast find_skip_index List.hd List.last].
    rewrite !(proj2 (String.eqb_neq _ "")) by done.
    cbn [mbind outcome_bind bind negb find_skip_index].
    change (Z.of_nat 8) with 8.
    change (9 <? 8) with false. change (8 =? 8) with true.
    cbn [negb mbind outcome_bind bind].
    change (Z.to_nat 8) with 8%nat. change (Z.to_nat (8 - 0)) with 8%nat.
    rewrite take_ge by (simpl; lia).
    rewrite drop_ge by (simpl; lia).
    rewrite Hparse. cbn [mbind outcome_bind bind parse_hextets].
    change (16 * 0) with 0. by rewrite Z.shiftl_0_r. }
  unfold ip_address. by rewrite H4, H6.
Qed.

(** The normalised form of the exploded text of an IPv6 address. *)
Lemma unexplode_ip_exploded_v6 n :
  unexplode_ip (join ":" (map hex4 (hextets n)))
  = join ":" (map strip_component (map hex4 (hextets n))).
Proof.
  assert (Hsplit : ∀ c, is_hex_digit c = false →
            Forall (fun g => contains c g = false) (map hex4 (hextets n))).
  { intros c Hc. apply Forall_map, Forall_forall. intros x _. by apply hex4_contains. }
  rewrite unexplode_ip_unfold. unfold unexplode_ip_spec.
  rewrite (split_no_sep "." (join ":" (map hex4 (hextets n)))).
  2:{ apply contains_join; [done|]. by apply Hsplit. }
  rewrite decide_False by (cbn; lia).
  rewrite (split_join ":" (map hex4 (hextets n))) by (by apply Hsplit || done).
  by rewrite decide_True by (cbn; lia).
Qed.

Lemma ip_address_unexploded n :
  0 ≤ n < 2 ^ 128 →
  ip_address (unexplode_ip (join ":" (map hex4 (hextets n)))) = Ret (IpAddr IPv6 n None).
Proof.
  intros Hn. rewrite unexplode_ip_exploded_v6.
  apply ip_address_eight_groups.
  - reflexivity.
  - apply Forall_map, Forall_forall. intros g _. apply strip_component_not_empty.
  - intros c Hc. apply Forall_map, Forall_map, Forall_forall. intros x _.
    apply strip_component_contains; [by intros ->|]. by apply hex4_contains.
  - apply parse_hextets_strip. by apply parse_hextets_hextets.
Qed.

(** [getixp_by_ipv6] is a function of the address its text stands for. *)
Lemma getixp_by_ipv6_of_address `{Pdb} t u a :
  ip_address t = Ret a → ip_address u = Ret a → version a = IPv6 →
  getixp_by_ipv6 u = getixp_by_ipv6 t.
Proof.
  intros Ht Hu Hv.
  destruct (ip_address_inv t a Ht) as [[Hv4 _]|(_ & Ht4 & Ht6)]; [congruence|].
  destruct (ip_address_inv u a Hu) as [[Hv4 _]|(_ & Hu4 & Hu6)]; [congruence|].
  unfold getixp_by_ipv6.
  rewrite (ip_network_host_v6 t a Ht4 Ht6), (ip_network_host_v6 u a Hu4 Hu6).
  by rewrite Ht, Hu.
Qed.

(** X17. [getixp_by_ip] takes the exploded text of an IPv6 address for
    that address: the normalised exploded text parses back to the address,
    and the lookup is the IPv6 lookup of any text of the address. *)
Theorem getixp_by_ip_exploded `{Pdb} (t v6full : string) (a : ip_addr) :
  ip_address t = Ret a →
  version a = IPv6 →
  exploded a = Ret v6full →
  ip_address (unexplode_ip v6full) = Ret a ∧
  getixp_by_ip v6full = getixp_by_ipv6 t.
Proof.
  intros Ht Hv He.
  assert (Hu : ip_address (unexplode_ip v6full) = Ret a).
  { destruct (ip_address_inv t a Ht) as [[Hv4 _]|(_ & _ & H6)]; [congruence|].
    destruct (IPv6Address_inv t a H6) as (_ & _ & Hr).
    destruct a as [v n sc]. cbn [version ip_int] in *. subst v.
    unfold exploded in He. cbn [version scope_id ip_int] in He.
    destruct sc; [done|]. inversion He; subst v6full.
    by apply ip_address_unexploded. }
  split; [done|].
  unfold getixp_by_ip. rewrite Hu. cbn [mbind outcome_bind bind]. rewrite Hv.
  by apply (getixp_by_ipv6_of_address t (unexplode_ip v6full) a).
Qed.

Lemma getixp_by_ip_exploded_witness :
  ip_address (unexplode_ip "2001:0de8:0006:0000:0000:0000:0714:0001")
  = Ret (IpAddr IPv6 42540770214241647096509877216930430977 None) ∧
  @getixp_by_ip (memory_pdb dir_v6) "2001:0de8:0006:0000:0000:0000:0714:0001"
  = @getixp_by_ipv6 (memory_pdb dir_v6) "2001:de8:6::714:1".
Proof.
  apply (@getixp_by_ip_exploded (memory_pdb dir_v6) "2001:de8:6::714:1"
           "2001:0de8:0006:0000:0000:0000:0714:0001"
           (IpAddr IPv6 42540770214241647096509877216930430977 None));
    vm_compute; reflexivity.
Defined.

(* ===================================================================== *)
(** * What the resolver raises *)

(** Case analysis of a computation that raised, down to the raising
    call. *)
Ltac raise_cases :=
  repeat match goal with
         | |- ?x = ?x => reflexivity
         | H : Ret _ = Raise _ |- _ => discriminate H
         | H : Raise _ = Raise _ |- _ => inversion H; subst; clear H
         | H : context [mbind _ ?m] |- _ =>
             destruct m eqn:?; cbn [mbind outcome_bind bind] in H
         | H : context [if ?b then _ else _] |- _ => destruct b eqn:?
         | H : context [match ?x with _ => _ end] |- _ => destruct x eqn:?
         end.

Lemma find_skip_index_raises interior i sk e :
  find_skip_index interior i sk = Raise e → e = AddressValueError.
Proof.
  revert i sk. induction interior as [|p r IH]; intros i sk Hf; [done|].
  cbn [find_skip_index] in Hf.
  destruct (String.eqb p ""); [|by eapply IH].
  destruct sk; [by inversion Hf|by eapply IH].
Qed.

Lemma v6_ip_int_from_string_raises s e :
  v6_ip_int_from_string s = Raise e → e = AddressValueError.
Proof.
  unfold v6_ip_int_from_string. intros Hs.
  raise_cases;
    match goal with
    | H : find_skip_index _ _ _ = Raise _ |- _ => by apply find_skip_index_raises in H
    end.
Qed.

Lemma IPv6Address_raises s e : IPv6Address s = Raise e → e = AddressValueError.
Proof.
  unfold IPv6Address, split_scope_id. intros Hs.
  raise_cases;
    match goal with
    | H : v6_ip_int_from_string _ = Raise _ |- _ =>
        by apply v6_ip_int_from_string_raises in H
    end.
Qed.

Lemma ip_address_raises s e : ip_address s = Raise e → e = ValueError.
Proof.
  unfold ip_address. intros Hs.
  destruct (IPv4Address s) as [a|e4] eqn:E4; [done|].
  apply IPv4Address_raises in E4 as ->. cbn [is_address_or_netmask_error] in Hs.
  destruct (IPv6Address s) as [a|e6] eqn:E6; [done|].
  apply IPv6Address_raises in E6 as ->. cbn [is_address_or_netmask_error] in Hs.
  by inversion Hs.
Qed.


Lemma getitem_0 {A : Type} (l : list A) :
  l ≠ [] → ∃ x, getitem l 0 = Ret x.
Proof. destruct l as [|x l]; [done|]. by exists x. Qed.








(* ===================================================================== *)
(** * Compressed IPv6 texts *)

Lemma contains_join_inv c sep parts :
  contains c (join sep parts) = false →
  Forall (fun p => contains c p = false) parts.
Proof.
  induction parts as [|x r IH]; [by constructor|].
  destruct r as [|y r].
  - intros Hx. by repeat constructor.
  - change (join sep (x :: y :: r)) with (x +:+ sep +:+ join sep (y :: r)).
    rewrite !contains_app, !orb_false_iff. intros (Hx & _ & Hr).
    constructor; [done|by apply IH].
Qed.

Lemma contains_split c sep s :
  contains c s = false → Forall (fun p => contains c p = false) (split sep s).
Proof.
  intros Hs. apply (contains_join_inv c (String sep EmptyString)).
  by rewrite join_split.
Qed.

Lemma find_skip_index_none interior i sk :
  Forall (fun p => p ≠ EmptyString) interior →
  find_skip_index interior i sk = Ret sk.
Proof.
  intros Hall. revert i sk.
  induction Hall as [|p r Hp Hr IH]; intros i sk; [done|].
  cbn [find_skip_index]. rewrite (proj2 (String.eqb_neq p "")) by done. apply IH.
Qed.

Lemma Forall_removelast {A : Type} (P : A → Prop) (l : list A) :
  Forall P l → Forall P (removelast l).
Proof.
  induction 1 as [|x l Hx Hl IH]; [by constructor|].
  cbn [removelast]. destruct l; [by constructor|]. by constructor.
Qed.

Lemma Forall_last {A : Type} (P : A → Prop) (l : list A) (d : A) :
  Forall P l → P d → P (List.last l d).
Proof.
  intros Hall Hd. induction Hall as [|x l Hx Hl IH]; [done|].
  cbn [List.last]. by destruct l.
Qed.

(** A text without dots whose colon-separated parts, the first and the last
    apart, are not empty is no IPv6 address unless it has eight parts. *)
Lemma v6_ip_int_from_string_parts u n :
  contains "." u = false →
  Forall (fun p => p ≠ EmptyString) (removelast (tail (split ":" u))) →
  v6_ip_int_from_string u = Ret n →
  length (split ":" u) = 8%nat.
Proof.
  intros Hdot Hint. unfold v6_ip_int_from_string.
  destruct (String.eqb u ""); [done|].
  destruct (length (split ":" u) <? 3)%nat; [done|].
  rewrite (Forall_last (fun p => contains "." p = false) (split ":" u) "")
    by (by apply contains_split || done).
  cbn [mbind outcome_bind bind]. cbv zeta.
  destruct (9 <? Z.of_nat (length (split ":" u))); [done|].
  rewrite (find_skip_index_none _ 1 None Hint). cbn [mbind outcome_bind bind].
  destruct (Z.eqb_spec (Z.of_nat (length (split ":" u))) 8) as [E|_]; [lia|done].
Qed.

(** The normaliser leaves no empty colon-separated part, and as many
    colons, and no dot or percent sign, as the text has. *)
Lemma unexplode_ip_colons ip :
  contains "." ip = false →
  contains "." (unexplode_ip ip) = false ∧
  (contains "%" ip = false → contains "%" (unexplode_ip ip) = false) ∧
  length (split ":" (unexplode_ip ip)) = S (count_char ":" ip) ∧
  Forall (fun p => p ≠ EmptyString) (removelast (tail (split ":" (unexplode_ip ip)))).
Proof.
  intros Hdot.
  rewrite unexplode_ip_unfold. unfold unexplode_ip_spec.
  rewrite (split_no_sep "." ip Hdot). rewrite decide_False by (cbn; lia).
  destruct (decide (2 ≤ length (split ":" ip))%nat) as [E2|E2].
  - assert (Hs : split ":" (join ":" (map strip_component (split ":" ip)))
                 = map strip_component (split ":" ip)).
    { apply split_join.
      - pose proof (split_not_nil ":" ip). by destruct (split ":" ip).
      - apply Forall_strip_no_sep; [done|]. apply split_parts_no_sep. }
    rewrite Hs. split; [|split; [|split]].
    + apply contains_join; [done|].
      apply Forall_strip_no_sep; [done|]. by apply contains_split.
    + intros Hpct. apply contains_join; [done|].
      apply Forall_strip_no_sep; [done|]. by apply contains_split.
    + by rewrite length_map, length_split.
    + apply Forall_removelast.
      assert (Hall : Forall (fun p => p ≠ EmptyString)
                       (map strip_component (split ":" ip))).
      { apply Forall_map, Forall_forall. intros p _. apply strip_component_not_empty. }
      destruct (map strip_component (split ":" ip)); [done|].
      by apply Forall_cons in Hall as [_ Hall].
  - split; [done|]. split; [done|]. split; [apply length_split|].
    destruct (split ":" ip) as [|p [|q r]]; cbn in E2; [constructor..|lia].
Qed.

(** X20. [getixp_by_ip] refuses every text without dot and percent sign
    that has not exactly seven colons with ValueError, whatever the
    service holds: the normaliser writes ["0"] into each empty part, so a
    compressed IPv6 text is an address afterwards only where its [::]
    stands for one group. *)
Theorem getixp_by_ip_colon_count `{Pdb} (ip : string) :
  contains "." ip = false →
  contains "%" ip = false →
  count_char ":" ip ≠ 7%nat →
  getixp_by_ip ip = Raise ValueError.
Proof.
  intros Hdot Hpct Hcount.
  destruct (unexplode_ip_colons ip Hdot) as (Hdot' & Hpct' & Hlen & Hint).
  specialize (Hpct' Hpct).
  assert (Ha : ip_address (unexplode_ip ip) = Raise ValueError).
  { destruct (ip_address (unexplode_ip ip)) as [a|e] eqn:Ea.
    2:{ f_equal. by eapply ip_address_raises. }
    exfalso.
    destruct (ip_address_inv _ _ Ea) as [[_ H4]|(_ & _ & H6)].
    - destruct (IPv4Address_inv _ _ H4) as (_ & o0 & o1 & o2 & o3 & ? & ? & ? & ? & Hs & _).
      by rewrite (split_no_sep "." _ Hdot') in Hs.
    - revert H6. unfold IPv6Address, split_scope_id.
      destruct (contains "/" (unexplode_ip ip)); [done|].
      rewrite (split_no_sep "%" _ Hpct'). cbn [mbind outcome_bind bind].
      destruct (v6_ip_int_from_string (unexplode_ip ip)) as [n|] eqn:E6; [|done].
      intros _. apply (v6_ip_int_from_string_parts _ n Hdot' Hint) in E6.
      rewrite Hlen in E6. lia. }
  unfold getixp_by_ip. by rewrite Ha.
Qed.

Lemma getixp_by_ip_colon_count_witness :
  @getixp_by_ip (memory_pdb dir_v6) "2001:7f8:10::1" = Raise ValueError.
Proof.
  apply (@getixp_by_ip_colon_count (memory_pdb dir_v6) "2001:7f8:10::1");
    [reflexivity|reflexivity|].
  vm_compute. lia.
Defined.

(* ===================================================================== *)
(** * The IPv6 coarse key and the normalised text *)

Lemma drop_trailing_zero_groups_prefix groups :
  ∃ dropped,
    groups = drop_trailing_zero_groups groups ++ dropped ∧
    Forall (fun g => g = "0000"%string) dropped.
Proof.
  induction groups as [|g r (dropped & Hr & Hall)]; [by exists []|].
  cbn [drop_trailing_zero_groups].
  destruct (drop_trailing_zero_groups r) as [|x r'].
  - cbn [app] in Hr. subst dropped.
    destruct (String.eqb_spec g "0000") as [->|_].
    + exists ("0000"%string :: r). split; [done|by constructor].
    + by exists r.
  - exists dropped. split; [|done]. cbn [app]. by rewrite Hr.
Qed.

Lemma drop_trailing_zero_groups_nil groups :
  drop_trailing_zero_groups groups = [] ↔ Forall (fun g => g = "0000"%string) groups.
Proof.
  split.
  - intros E. destruct (drop_trailing_zero_groups_prefix groups) as (dropped & Hg & Hall).
    rewrite E in Hg. cbn [app] in Hg. by subst.
  - induction 1 as [|g r -> _ IH]; [done|].
    cbn [drop_trailing_zero_groups]. by rewrite IH.
Qed.

Lemma join_app sep l1 l2 :
  l1 ≠ [] → l2 ≠ [] →
  join sep (l1 ++ l2) = join sep l1 +:+ sep +:+ join sep l2.
Proof.
  intros H1 H2. induction l1 as [|x l1 IH]; [done|].
  destruct l1 as [|y l1].
  - cbn [app]. by destruct l2.
  - change (join sep ((x :: y :: l1) ++ l2))
      with (x +:+ sep +:+ join sep ((y :: l1) ++ l2)).
    rewrite IH by done.
    change (join sep (x :: y :: l1)) with (x +:+ sep +:+ join sep (y :: l1)).
    by rewrite !append_assoc.
Qed.

Lemma join_empty sep l :
  Forall (fun p => p ≠ EmptyString) l → join sep l = EmptyString → l = [].
Proof.
  intros Hall. destruct Hall as [|x l Hx _]; [done|].
  destruct l as [|y l]; [done|].
  change (join sep (x :: y :: l)) with (x +:+ sep +:+ join sep (y :: l)).
  by destruct x.
Qed.

Lemma hex4_zero h : 0 ≤ h < 65536 → hex4 h = "0000"%string ↔ h = 0.
Proof.
  intros Hh. split; [|by intros ->].
  intros E. pose proof (parse_hextet_hex4 h Hh) as Hp.
  rewrite E in Hp. by inversion Hp.
Qed.

Lemma hextets_range n : Forall (fun h => 0 ≤ h < 65536) (hextets n).
Proof.
  unfold hextets. apply Forall_map, Forall_forall. intros i _.
  rewrite land_65535. change (2 ^ 16) with 65536.
  apply Z.mod_pos_bound. lia.
Qed.

Lemma high_hextets_zero n :
  0 ≤ n < 2 ^ 128 →
  Forall (fun h => h = 0) (take 6 (hextets n)) ↔ n < 2 ^ 32.
Proof.
  intros Hn. unfold hextets. cbn [map take].
  change (16 * (7 - 0)) with 112. change (16 * (7 - 1)) with 96.
  change (16 * (7 - 2)) with 80. change (16 * (7 - 3)) with 64.
  change (16 * (7 - 4)) with 48. change (16 * (7 - 5)) with 32.
  rewrite !land_65535, !Z.shiftr_div_pow2 by lia.
  rewrite !Forall_cons, Forall_nil.
  change (2 ^ 128) with 340282366920938463463374607431768211456 in Hn.
  change (2 ^ 112) with 5192296858534827628530496329220096.
  change (2 ^ 96) with 79228162514264337593543950336.
  change (2 ^ 80) with 1208925819614629174706176.
  change (2 ^ 64) with 18446744073709551616.
  change (2 ^ 48) with 281474976710656.
  change (2 ^ 32) with 4294967296.
  change (2 ^ 16) with 65536.
  split.
  - intros (H0 & H1 & H2 & H3 & H4 & H5 & _).
    Z.div_mod_to_equations. lia.
  - intros Hlt. repeat split; Z.div_mod_to_equations; lia.
Qed.

(** The coarse key of the exploded text of an address in terms of its
    groups. *)
Lemma v6partial_exploded n :
  v6partial (join ":" (map hex4 (hextets n)))
  = join ":" (map strip_component
                (drop_trailing_zero_groups (map hex4 (take 6 (hextets n))))).
Proof.
  rewrite v6partial_unfold. unfold v6partial_spec.
  rewrite (split_join ":" (map hex4 (hextets n))).
  - by rewrite firstn_map.
  - done.
  - apply Forall_map, Forall_forall. intros x _. by apply hex4_contains.
Qed.

(** X21. The coarse key [getixp_by_ipv6] queries with is a leading part of
    the normalised exploded text of the address, cut in front of a colon;
    it is the empty text, which every prefix starts with, exactly for the
    addresses below [2 ^ 32]. *)
Theorem v6key_leading_groups (t v6full key : string) (a : ip_addr) :
  ip_address t = Ret a →
  version a = IPv6 →
  exploded a = Ret v6full →
  v6key t = Ret key →
  (key ≠ EmptyString → ∃ rest, unexplode_ip v6full = key +:+ ":" +:+ rest) ∧
  (key = EmptyString ↔ ip_int a < 2 ^ 32).
Proof.
  intros Ht Hv He Hk.
  unfold v6key in Hk. rewrite Ht in Hk. cbn [mbind outcome_bind bind] in Hk.
  rewrite He in Hk. cbn [mbind outcome_bind bind] in Hk.
  injection Hk as <-.
  destruct (ip_address_inv t a Ht) as [[Hv4 _]|(_ & _ & H6)]; [congruence|].
  destruct (IPv6Address_inv t a H6) as (_ & _ & Hr).
  destruct a as [v n sc]. cbn [version ip_int] in *. subst v.
  destruct sc; [done|].
  assert (Hfull : v6full = join ":" (map hex4 (hextets n))).
  { change (Ret (join ":" (map hex4 (hextets n))) = Ret v6full) in He. congruence. }
  rewrite Hfull. clear Hfull He.
  rewrite v6partial_exploded.
  destruct (drop_trailing_zero_groups_prefix (map hex4 (take 6 (hextets n))))
    as (dropped & Hgroups & Hdropped).
  set (kept := drop_trailing_zero_groups (map hex4 (take 6 (hextets n)))) in *.
  assert (Hkept : Forall (fun p => p ≠ EmptyString) (map strip_component kept)).
  { apply Forall_map, Forall_forall. intros p _. apply strip_component_not_empty. }
  split.
  - intros Hne. exists (join ":" (map strip_component (dropped ++ map hex4 (drop 6 (hextets n))))).
    rewrite unexplode_ip_exploded_v6.
    rewrite <- (take_drop 6 (hextets n)) at 1.
    rewrite map_app, Hgroups, <- app_assoc, map_app.
    apply join_app.
    + intros E. by rewrite E in Hne.
    + destruct dropped; discriminate.
  - split.
    + intros E. apply join_empty in E; [|done].
      apply map_eq_nil in E.
      apply drop_trailing_zero_groups_nil in E.
      apply (high_hextets_zero n Hr).
      pose proof (hextets_range n) as Hrange.
      apply (Forall_take _ 6%nat) in Hrange.
      rewrite Forall_forall in Hrange. rewrite Forall_forall in E.
      apply Forall_forall. intros h Hh.
      apply (hex4_zero h (Hrange h Hh)), E.
      apply list_elem_of_In, in_map. by apply list_elem_of_In.
    + intros Hlt. apply (high_hextets_zero n Hr) in Hlt.
      replace kept with (@nil string); [done|].
      symmetry. apply drop_trailing_zero_groups_nil.
      apply Forall_map. eapply Forall_impl; [exact Hlt|].
      by intros h ->.
Qed.

Lemma v6key_leading_groups_witness :
  ("2001:de8:6"%string ≠ EmptyString →
   ∃ rest, unexplode_ip "2001:0de8:0006:0000:0000:0000:0714:0001"
           = "2001:de8:6" +:+ ":" +:+ rest) ∧
  ("2001:de8:6"%string = EmptyString
   ↔ 42540770214241647096509877216930430977 < 2 ^ 32).
Proof.
  apply (v6key_leading_groups "2001:de8:6::714:1"
           "2001:0de8:0006:0000:0000:0000:0714:0001" "2001:de8:6"
           (IpAddr IPv6 42540770214241647096509877216930430977 None));
    vm_compute; reflexivity.
Defined.
